(** * decrepit.py: version resolution, dispatch and reporting

    A shallow embedding of [decrepit.py] (rust-script-toolbox), the script
    that scrapes distribution package pages for the packaged [rustc] version.

    Conventions of the embedding.
    - Python [int] is [Z]; Python [str] and [bytes] are [string] (the text the
      script handles is ASCII: digits, dots, dashes, release names).
    - A Python [dict] with string keys is a [gmap string _] where only
      lookup, copy and update are used, so that key order plays no role; the
      dict of releases, which [main] iterates, is a list of pairs in the
      order of insertion.
    - A call that may raise returns a [result]; stateful code (the files of
      the temporary directory, the requests sent) passes a [world] along.
    - Calls into libraries that are not part of the script (urllib, lxml, re
      on patterns taken from the table, gzip, json, str.format, the codecs)
      are fields of an environment [env]; nothing is assumed about them.
    - The script is run as [__main__] (where [sys] is imported) and without
      [-O] (so [assert] statements are executed). *)

From Stdlib Require Import ZArith Ascii String Lia.
From stdpp Require Import base numbers option list gmap strings pretty sorting.

Local Open Scope Z_scope.

(** ** Exceptions and results *)

Inductive exn : Type :=
  | KeyError (key : string)
  | AttributeError
  | AssertionError (msg : string)
  | ValueError
  | OverflowError
  | IndexError
  | TypeError
  | NameError
  | OSError
  | Exception (msg : string)
  | LibraryError (what : string).

Inductive result (A : Type) : Type :=
  | Ok (a : A)
  | Raise (e : exn).
Arguments Ok {A} a.
Arguments Raise {A} e.

Definition rbind {A B} (r : result A) (k : A -> result B) : result B :=
  match r with
  | Ok a => k a
  | Raise e => Raise e
  end.

Definition is_ok {A} (r : result A) : bool :=
  match r with Ok _ => true | Raise _ => false end.

#[global] Instance result_ret : MRet result := fun _ a => Ok a.
#[global] Instance result_bind : MBind result := fun _ _ k r => rbind r k.

(** ** Python string primitives *)

Definition is_digit (c : ascii) : bool :=
  let n := N_of_ascii c in ((48 <=? n) && (n <=? 57))%N.

Definition digit_val (c : ascii) : Z := Z.of_N (N_of_ascii c) - 48.

(** [str.isspace] on the ASCII range: TAB..CR, FS..US and the space. *)
Definition is_space (c : ascii) : bool :=
  let n := N_of_ascii c in
  (((9 <=? n) && (n <=? 13)) || ((28 <=? n) && (n <=? 32)))%N.

(** The white space that [int] skips: TAB..CR and the space. *)
Definition is_int_space (c : ascii) : bool :=
  let n := N_of_ascii c in
  (((9 <=? n) && (n <=? 13)) || (n =? 32))%N.

Fixpoint lstrip (space : ascii -> bool) (s : string) : string :=
  match s with
  | String c r => if space c then lstrip space r else s
  | EmptyString => EmptyString
  end.

(** [rstrip] keeps a character when it is not a space or when something
    that is kept follows it. *)
Fixpoint rstrip (space : ascii -> bool) (s : string) : string :=
  match s with
  | String c r =>
      match rstrip space r with
      | EmptyString => if space c then EmptyString else String c EmptyString
      | r' => String c r'
      end
  | EmptyString => EmptyString
  end.

(** [s.strip()] *)
Definition strip (s : string) : string := rstrip is_space (lstrip is_space s).

(** [s.split(sep)] for a one-character separator: never the empty list. *)
Fixpoint split (sep : ascii) (s : string) : list string :=
  match s with
  | EmptyString => [EmptyString]
  | String c r =>
      if Ascii.eqb c sep then EmptyString :: split sep r
      else match split sep r with
           | w :: ws => String c w :: ws
           | [] => [String c EmptyString]
           end
  end.

(** The longest prefix of digits, and what follows it: what a greedy
    [\d+] consumes. *)
Fixpoint span_digits (s : string) : string * string :=
  match s with
  | String c r =>
      if is_digit c then let '(d, t) := span_digits r in (String c d, t)
      else (EmptyString, s)
  | EmptyString => (EmptyString, EmptyString)
  end.

(** The value of a string of digits read left to right. *)
Fixpoint digits_val (acc : Z) (s : string) : Z :=
  match s with
  | String c r => digits_val (acc * 10 + digit_val c) r
  | EmptyString => acc
  end.

(** The digits of an [int] literal: digits with single underscores allowed
    between two digits. [prev] tells whether the previous character was a
    digit. *)
Fixpoint int_digits (prev : bool) (acc : Z) (s : string) : option Z :=
  match s with
  | EmptyString => if prev then Some acc else None
  | String c r =>
      if is_digit c then int_digits true (acc * 10 + digit_val c) r
      else if Ascii.eqb c "_" then
        (if prev then
           match r with
           | String d _ => if is_digit d then int_digits false acc r else None
           | EmptyString => None
           end
         else None)
      else None
  end.

(** [int(s, 10)]: surrounding white space, an optional sign, digits. *)
Definition py_int (s : string) : result Z :=
  let s := rstrip is_int_space (lstrip is_int_space s) in
  let '(neg, body) :=
    match s with
    | String "-" r => (true, r)
    | String "+" r => (false, r)
    | _ => (false, s)
    end in
  match int_digits false 0 body with
  | Some n => Ok (if neg then - n else n)
  | None => Raise ValueError
  end.

(** ['%d' % n] *)
Definition fmt_d (n : Z) : string := pretty n.

Fixpoint zeros (k : nat) : string :=
  match k with
  | O => EmptyString
  | S k' => String "0" (zeros k')
  end.

(** ['%0<w>d' % n]: the sign first, then zeros up to the width. *)
Definition fmt_0d (w : nat) (n : Z) : string :=
  if n <? 0 then
    let d := pretty (- n) in
    "-" +:+ zeros (w - 1 - String.length d) +:+ d
  else
    let d := pretty n in
    zeros (w - String.length d) +:+ d.

(** ** Version normaliser *)

(** A version as the script handles it: the tuple built by [parse_semver]. *)
Definition semver : Type := Z * Z * Z.

Definition sentinel : semver := (0, 0, 0).

(** [fmt_ver]: ['%d.%d.%d' % ver] *)
Definition fmt_ver (ver : semver) : string :=
  let '(ma, mi, re) := ver in
  fmt_d ma +:+ "." +:+ fmt_d mi +:+ "." +:+ fmt_d re.

(** [RE_VER.match(ver)] for
    [RE_VER = (?P<ma>\d+)[.](?P<mi>\d+)([.](?P<re>\d+))], anchored at the
    start of the string. Each [\d+] is followed by a character that is not a
    digit (or by nothing), so the greedy match is the only one: the groups
    [ma], [mi] and [re], or no match. *)
Definition RE_VER_match (ver : string) : option (string * string * string) :=
  match span_digits ver with
  | (String a ma, String "." r1) =>
      match span_digits r1 with
      | (String b mi, String "." r2) =>
          match span_digits r2 with
          | (String c re, _) => Some (String a ma, String b mi, String c re)
          | _ => None
          end
      | _ => None
      end
  | _ => None
  end.

(** [parse_semver]: [m.group] on [None] is an [AttributeError]; [int] on a
    group cannot fail. *)
Definition parse_semver (ver : string) : result semver :=
  match RE_VER_match ver with
  | None => Raise AttributeError
  | Some (ma, mi, re) =>
      a ← py_int ma; b ← py_int mi; c ← py_int re; Ok (a, b, c)
  end.

(** ** The as-of date normaliser *)

Record date : Type := Date { year : Z; month : Z; day : Z }.

Definition is_leap (y : Z) : bool :=
  (y mod 4 =? 0) && (negb (y mod 100 =? 0) || (y mod 400 =? 0)).

Definition days_in_month (y m : Z) : Z :=
  if m =? 2 then (if is_leap y then 29 else 28)
  else if (m =? 4) || (m =? 6) || (m =? 9) || (m =? 11) then 30
  else 31.

(** The values of a C [int], into which [datetime.date] converts each of
    its arguments before it looks at any of them (32 bits, as on the
    platforms of CPython). *)
Definition fits_c_int (n : Z) : bool :=
  (-2147483648 <=? n) && (n <=? 2147483647).

(** [datetime.date(y, m, d)]: an [OverflowError] when an argument does not
    fit a C [int], whatever the others are; then a [ValueError] outside
    the calendar. *)
Definition datetime_date (y m d : Z) : result date :=
  if negb (fits_c_int y && fits_c_int m && fits_c_int d)
  then Raise OverflowError
  else if (1 <=? y) && (y <=? 9999) && (1 <=? m) && (m <=? 12)
          && (1 <=? d) && (d <=? days_in_month y m)
  then Ok (Date y m d)
  else Raise ValueError.

(** [parse_date]; [today] is [datetime.datetime.now().date()]. [int] is
    applied to every element of the chain, the list is then cut to three
    elements, which it always has. *)
Definition parse_date (today : date) (date : option string) : result string :=
  d ← match date with
      | None => Ok today
      | Some s =>
          ps ← mapM py_int (take 3 (split "-" s) ++ ["01"; "01"]);
          match take 3 ps with
          | [y; m; d] => datetime_date y m d
          | _ => Raise TypeError
          end
      end;
  Ok (fmt_0d 4 (year d) +:+ "-" +:+ fmt_0d 2 (month d) +:+ "-"
      +:+ fmt_0d 2 (day d)).

(** The shape [YYYY-MM-DD]: four digits, a dash, two digits, a dash, two
    digits, and nothing else. *)
Definition is_iso_date (s : string) : bool :=
  match s with
  | String y1 (String y2 (String y3 (String y4 (String "-"
      (String m1 (String m2 (String "-" (String d1 (String d2 "")))))))))
    => is_digit y1 && is_digit y2 && is_digit y3 && is_digit y4
       && is_digit m1 && is_digit m2 && is_digit d1 && is_digit d2
  | _ => false
  end.

(** A component made of digits only, as in ["2017"] or ["04"]. *)
Fixpoint all_digits (s : string) : bool :=
  match s with
  | String c r => is_digit c && all_digits r
  | EmptyString => true
  end.

Definition numeric (s : string) : bool :=
  match s with
  | EmptyString => false
  | _ => all_digits s
  end.

(** ** Arguments, responses and the world *)

(** What [get_dispatch] receives as [arg]: [main] passes a string (a release
    name or [ROLLING]); [get_scrape] also accepts [None] and a dict.
    [ArgOther] is any other object that is not a tuple.  A tuple is not an
    argument here: the [%] of a trace line would take its elements as the
    values to format, and fail on their number. *)
Inductive py_arg : Type :=
  | ArgNone
  | ArgStr (s : string)
  | ArgDict (d : gmap string string)
  | ArgOther (repr : string).

(** [ROLLING = '(rolling)'] *)
Definition ROLLING : string := "(rolling)".

(** An HTTP response: the [etag] header as [getheader] gives it, and what
    [read] returns for the body. *)
Record response : Type := Response {
  resp_etag : option string;
  resp_body : result string;
}.

(** A match object: the groups by number, group 0 (the whole match) first,
    and the numbers of the named ones; a group that took no part in the
    match is [None]. *)
Record re_match : Type := ReMatch {
  m_groups : list (option string);
  m_names : gmap string nat;
}.

(** A compiled pattern, through its [search] method. *)
Definition pattern : Type := string -> option re_match.

Record env : Type := Env {
  (** [urllib.request.urlopen(url)] *)
  http_open : string -> result response;
  (** [lxml.html.fromstring(doc).xpath(xp)], each result through [str] *)
  html_xpath : string -> string -> result (list string);
  (** [re.compile(pat)] *)
  re_compile : string -> result pattern;
  (** [template.format( **kwargs )] *)
  str_format : string -> gmap string string -> result string;
  (** [bs.decode('utf-8')] and [s.encode('utf-8')] *)
  utf8_decode : string -> result string;
  utf8_encode : string -> string;
  (** [json.loads(text).get('rows', [])], rows as dicts of strings *)
  json_rows : string -> result (list (gmap string string));
  (** [json.loads(gzip.decompress(bs).decode('utf-8'))['packages']['rustc']['name']] *)
  nix_rustc_name : string -> result string;
  (** [tempfile.gettempdir()] *)
  gettempdir : option string;
  (** [str(x)] for an argument that is not a string *)
  str_of_dict : gmap string string -> string;
}.

(** What the script changes or leaves a trace of: the files it reads and
    writes, the URLs it opens and the bodies it downloads (latest first). *)
Record world : Type := World {
  files : gmap string string;
  requests : list string;
  body_reads : list string;
}.

(** A statement sequence: from a world to a result and a world, or [None]
    when the sequence does not end within the steps allowed to its loops. *)
Definition prog (A : Type) : Type := world -> option (result A * world).

Definition ret {A} (a : A) : prog A := fun w => Some (Ok a, w).
Definition raise {A} (e : exn) : prog A := fun w => Some (Raise e, w).
Definition lift {A} (r : result A) : prog A := fun w => Some (r, w).
Definition diverge {A} : prog A := fun _ => None.

Definition bind {A B} (m : prog A) (k : A -> prog B) : prog B :=
  fun w =>
    match m w with
    | Some (Ok a, w') => k a w'
    | Some (Raise e, w') => Some (Raise e, w')
    | None => None
    end.

#[global] Instance prog_ret : MRet prog := fun _ a => ret a.
#[global] Instance prog_bind : MBind prog := fun _ _ k m => bind m k.

(** [try: m except: h] with a bare [except]. *)
Definition try_except {A} (m : prog A) (h : exn -> prog A) : prog A :=
  fun w =>
    match m w with
    | Some (Raise e, w') => h e w'
    | other => other
    end.

(** [assert cond, msg] *)
Definition py_assert (cond : bool) (msg : string) : prog unit :=
  if cond then ret tt else raise (AssertionError msg).

(** [urlopen(url)]: the request is sent and the headers are received. *)
Definition urlopen (E : env) (url : string) : prog response :=
  fun w =>
    Some (http_open E url,
          World (files w) (url :: requests w) (body_reads w)).

(** [resp.read()] on the response of [urlopen(url)]: the body is
    downloaded. *)
Definition read_body (url : string) (resp : response) : prog string :=
  fun w =>
    Some (resp_body resp,
          World (files w) (requests w) (url :: body_reads w)).

(** [open(path, 'rb').read()]; a file that is not there cannot be read.
    Files that exist are readable and the directory is writable. *)
Definition read_file (path : string) : prog string :=
  fun w =>
    match files w !! path with
    | Some bs => Some (Ok bs, w)
    | None => Some (Raise OSError, w)
    end.

(** [open(path, 'wb')]: the file is created or emptied. *)
Definition open_wb (path : string) : prog unit :=
  fun w => Some (Ok tt, World (<[path := ""]> (files w)) (requests w) (body_reads w)).

(** [f.write(bs)] on a file just opened with ['wb']. *)
Definition write_file (path : string) (bs : string) : prog unit :=
  fun w => Some (Ok tt, World (<[path := bs]> (files w)) (requests w) (body_reads w)).

(** [os.path.join(dir, name)] for a relative [name]. *)
Definition ends_with_slash (s : string) : bool :=
  match String.rev s with
  | String "/" _ => true
  | _ => false
  end.

Definition path_join (dir name : string) : string :=
  if bool_decide (dir = "") || ends_with_slash dir then dir +:+ name
  else dir +:+ "/" +:+ name.

(** [m.group(i)] and [m.group(name)] *)
Definition group_num (m : re_match) (i : nat) : result (option string) :=
  match m_groups m !! i with
  | Some g => Ok g
  | None => Raise IndexError
  end.

Definition group_name (m : re_match) (name : string) : result (option string) :=
  match m_names m !! name with
  | Some i => group_num m i
  | None => Raise IndexError
  end.

(** [pat.search(text).group(1)] handed to [parse_semver], as the custom
    resolvers do: [None.group] is an [AttributeError], and [RE_VER.match]
    on [None] a [TypeError]. *)
Definition search_group1 (pat : pattern) (text : string) : result string :=
  match pat text with
  | None => Raise AttributeError
  | Some m =>
      g ← group_num m 1;
      match g with
      | Some ver => Ok ver
      | None => Raise TypeError
      end
  end.

(** [xs[0]] *)
Definition index0 {A} (xs : list A) : result A :=
  match xs with
  | x :: _ => Ok x
  | [] => Raise IndexError
  end.

(** [str(arg)], as [format] and [%s] apply it. *)
Definition str_of_arg (E : env) (a : py_arg) : string :=
  match a with
  | ArgNone => "None"
  | ArgStr s => s
  | ArgDict d => str_of_dict E d
  | ArgOther r => r
  end.

(** ** The source definition table and the generic scraper *)

(** An entry of [DISTROS]: a dict (a scrape rule), a string (the name of
    another entry) or a function of the release argument. *)
Inductive definition : Type :=
  | ScrapeRule (defin : gmap string string)
  | Alias (target : string)
  | CustomResolver (f : py_arg -> prog semver).

(** The first lines of [get_scrape]: the argument as a dict. *)
Definition source_dict (source : py_arg) : result (gmap string string) :=
  match source with
  | ArgNone => Ok ∅
  | ArgStr s => Ok {[ "release" := s ]}
  | ArgDict d => Ok d
  | ArgOther r => Raise (Exception ("expected source to be dict, got: " +:+ r))
  end.

(** One turn of [while 'inherit' in defin]: the parent's dict, copied and
    updated with the fields of [defin] other than ['inherit']. *)
Definition inherit_step (table : gmap string definition)
    (defin : gmap string string) (inherit : string)
    : result (gmap string string) :=
  match table !! inherit with
  | None => Raise (KeyError inherit)
  | Some (ScrapeRule parent) => Ok (delete "inherit" defin ∪ parent)
  | Some _ => Raise AttributeError
  end.

(** The loop itself; [None] when [fuel] turns were not enough to leave it. *)
Fixpoint inherit_loop (fuel : nat) (table : gmap string definition)
    (defin : gmap string string) : option (result (gmap string string)) :=
  match defin !! "inherit" with
  | None => Some (Ok defin)
  | Some inherit =>
      match fuel with
      | O => None
      | S fuel' =>
          match inherit_step table defin inherit with
          | Ok new_defin => inherit_loop fuel' table new_defin
          | Raise e => Some (Raise e)
          end
      end
  end.

(** [defin[key]] *)
Definition field (defin : gmap string string) (key : string) : result string :=
  match defin !! key with
  | Some v => Ok v
  | None => Raise (KeyError key)
  end.

(** [get_scrape] up to [text = ''.join(str(res))]: the compiled pattern and
    the text it is applied to. *)
Definition scrape_fetch (fuel : nat) (E : env) (table : gmap string definition)
    (defin : gmap string string) (source : py_arg) : prog (pattern * string) :=
  source ← lift (source_dict source);
  defin ← (fun w => match inherit_loop fuel table defin with
                    | Some r => Some (r, w)
                    | None => None
                    end);
  url ← lift (t ← field defin "url"; str_format E t source);
  xpath ← lift (t ← field defin "xpath"; str_format E t source);
  regex ← lift (t ← field defin "re"; re_compile E t);
  resp ← urlopen E url;
  doc ← read_body url resp;
  res ← lift (rs ← html_xpath E doc xpath; index0 rs);
  ret (regex, res).

(** The end of [get_scrape]: from the result of [regex.search(text)] to the
    version string. *)
Definition scrape_version (m : option re_match) : result string :=
  match m with
  | Some m =>
      g ← group_name m "version";
      match g with
      | Some "" | None => Ok "0.0.0"
      | Some v => Ok v
      end
  | None => Ok "0.0.0"
  end.

Definition get_scrape (fuel : nat) (E : env) (table : gmap string definition)
    (distro : string) (defin : gmap string string) (source : py_arg)
    : prog semver :=
  '(regex, text) ← scrape_fetch fuel E table defin source;
  lift (version ← scrape_version (regex text); parse_semver version).

(** ** The custom resolvers

    Each resolver starts with [trace('get_...(%r)' % source)].  On the
    arguments of [py_arg] the formatting cannot fail, and [trace] only
    writes to the error stream, so the statement has no counterpart below. *)

Fixpoint contains (needle hay : string) : bool :=
  String.prefix needle hay
  || match hay with
     | String _ r => contains needle r
     | EmptyString => false
     end.

(** [s.replace(a, b)] for one-character [a] and [b]. *)
Fixpoint replace_char (a b : ascii) (s : string) : string :=
  match s with
  | String c r => String (if Ascii.eqb c a then b else c) (replace_char a b r)
  | EmptyString => EmptyString
  end.

Definition fedora_URL : string :=
  "https://apps.fedoraproject.org/packages/fcomm_connector"
  +:+ "/bodhi/query/query_active_releases/"
  +:+ "%7B%22filters%22:%7B%22package%22:%22rust%22%7D,"
  +:+ "%22rows_per_page%22:100%7D".

(** [source in r.get('release', None)] *)
Definition fedora_row_matches (source : py_arg) (r : gmap string string)
    : result bool :=
  match r !! "release", source with
  | Some rel, ArgStr s => Ok (contains s rel)
  | _, _ => Raise TypeError
  end.

Fixpoint filter_rows (source : py_arg) (rows : list (gmap string string))
    : result (list (gmap string string)) :=
  match rows with
  | [] => Ok []
  | r :: rows' =>
      b ← fedora_row_matches source r;
      rest ← filter_rows source rows';
      Ok (if b : bool then r :: rest else rest)
  end.

Definition get_fedora (E : env) (source : py_arg) : prog semver :=
  resp ← urlopen E fedora_URL;
  body ← read_body fedora_URL resp;
  releases ← lift (text ← utf8_decode E body; json_rows E text);
  releases ← lift (filter_rows source releases);
  release ← match releases with
            | [] => raise (Exception
                ("could not find package information for Fedora "
                 +:+ str_of_arg E source))
            | release :: _ => ret release
            end;
  re_ver ← lift (re_compile E ">(\d+[.]\d+[.]\d+)(-[^<]+)?<");
  ver ← lift (field release "stable_version");
  ver ← lift (search_group1 re_ver ver);
  lift (parse_semver ver).

Definition get_freebsd (E : env) (source : py_arg) : prog semver :=
  let svnweb := "https://svnweb.freebsd.org/" in
  let pkg := "lang/rust" in
  let rel := str_of_arg E source in
  let pkg_url := svnweb +:+ "ports/branches/" +:+ rel +:+ "/" +:+ pkg in
  let makefile_rev_xp :=
    "//tr[td[1]/a/text()='" +:+ String "010" "Makefile']/td[2]//strong/text()" in
  resp ← urlopen E pkg_url;
  doc ← read_body pkg_url resp;
  rev ← lift (rs ← html_xpath E doc makefile_rev_xp; index0 rs);
  let makefile_url :=
    svnweb +:+ "ports/branches/" +:+ rel +:+ "/" +:+ pkg
    +:+ "/Makefile?revision=" +:+ rev +:+ "&view=co" in
  resp ← urlopen E makefile_url;
  body ← read_body makefile_url resp;
  makefile_page ← lift (utf8_decode E body);
  re_ver ← lift (re_compile E "(?m)^PORTVERSION[?]\s*=\s*(\d+[.]\d+[.]\d+)");
  ver ← lift (search_group1 re_ver makefile_page);
  lift (parse_semver ver).

Definition get_openbsd (E : env) (source : py_arg) : prog semver :=
  let cvsweb := "http://cvsweb.openbsd.org/cgi-bin/cvsweb/" in
  let pkg := "lang/rust" in
  release_under ← match source with
                  | ArgStr s => ret (replace_char "." "_" s)
                  | _ => raise AttributeError
                  end;
  let tag := "OPENBSD_" +:+ release_under in
  let pkg_url := cvsweb +:+ "ports/" +:+ pkg +:+ "/?only_with_tag=" +:+ tag in
  let makefile_rev_xp := "//tr[td[1]/a[3]/text()='Makefile']/td[2]/a/b/text()" in
  resp ← urlopen E pkg_url;
  doc ← read_body pkg_url resp;
  rev ← lift (rs ← html_xpath E doc makefile_rev_xp; index0 rs);
  let makefile_url :=
    cvsweb +:+ "~checkout~/ports/" +:+ pkg +:+ "/Makefile?rev=" +:+ rev
    +:+ "&only_with_tag=" +:+ tag in
  resp ← urlopen E makefile_url;
  body ← read_body makefile_url resp;
  makefile_page ← lift (utf8_decode E body);
  re_ver ← lift (re_compile E "(?m)^V\s*=\s*(\d+[.]\d+[.]\d+)");
  ver ← lift (search_group1 re_ver makefile_page);
  lift (parse_semver ver).

Definition nixos_URL : string := "http://nixos.org/nixpkgs/packages.json.gz".

Definition etag_path (tempdir : string) : string :=
  path_join tempdir "decrepit-nixos-packages.json.gz.etag".
Definition bs_gz_path (tempdir : string) : string :=
  path_join tempdir "decrepit-nixos-packages.json.gz".

(** [get_nixos] from [last_etag = None] to the first [try]: the token left
    by the previous run, stripped, or [None]. *)
Definition nixos_last_etag (E : env) : prog (option string) :=
  match gettempdir E with
  | Some tempdir =>
      try_except
        (bs ← read_file (etag_path tempdir);
         s ← lift (utf8_decode E bs);
         ret (Some (strip s)))
        (fun _ => ret None)
  | None => ret None
  end.

(** [get_nixos] after the assertion and up to the decompression: the
    compressed payload, from the cache or from the network. *)
Definition nixos_payload (E : env) : prog string :=
  let tempdir := gettempdir E in
  last_etag ← nixos_last_etag E;
  req ← urlopen E nixos_URL;
  let cur_etag := resp_etag req in
  json_bs_gz ←
    (if bool_decide (cur_etag = last_etag) then
       try_except
         (match tempdir with
          | Some d => bs ← read_file (bs_gz_path d); ret (Some bs)
          | None => raise NameError
          end)
         (fun _ => ret None)
     else ret None);
  match json_bs_gz with
  | Some bs => ret bs
  | None =>
      bs ← read_body nixos_URL req;
      match tempdir with
      | Some d =>
          open_wb (etag_path d);;
          token ← match cur_etag with
                  | Some t => ret (utf8_encode E t)
                  | None => raise AttributeError
                  end;
          write_file (etag_path d) token;;
          open_wb (bs_gz_path d);;
          write_file (bs_gz_path d) bs
      | None => ret tt
      end;;
      ret bs
  end.

(** [arg == s] for a string [s] *)
Definition arg_eq_str (a : py_arg) (s : string) : bool :=
  match a with
  | ArgStr t => String.eqb t s
  | _ => false
  end.

Definition get_nixos (E : env) (source : py_arg) : prog semver :=
  py_assert (arg_eq_str source ROLLING)
    "NixOS is a rolling-only release";;
  json_bs_gz ← nixos_payload E;
  name ← lift (nix_rustc_name E json_bs_gz);
  re_ver ← lift (re_compile E "rustc-(\d+[.]\d+[.]\d+)");
  ver ← lift (search_group1 re_ver name);
  lift (parse_semver ver).

(** ** The dispatch engine *)

(** [DISTROS]; the functions of the table are the four resolvers above. *)
Definition DISTROS (E : env) : gmap string definition :=
  list_to_map [
    ("arch", ScrapeRule (list_to_map [
       ("url", "https://www.archlinux.org/packages/community/x86_64/rust/");
       ("xpath", "//h2/text()");
       ("re", "rust \d+:(?P<version>\d+[.]\d+[.]\d+)") ]));
    ("debian", ScrapeRule (list_to_map [
       ("url", "https://packages.debian.org/{release}/rustc");
       ("xpath", "//h1/text()");
       ("re", "rustc [(](?P<version>\d+[.]\d+[.]\d+)") ]));
    ("debian-testing", Alias "debian");
    ("debian-unstable", Alias "debian");
    ("fedora", CustomResolver (get_fedora E));
    ("fedora-latest", Alias "fedora");
    ("freebsd", CustomResolver (get_freebsd E));
    ("freebsd-latest", Alias "freebsd");
    ("nixos", CustomResolver (get_nixos E));
    ("openbsd", CustomResolver (get_openbsd E));
    ("openbsd-latest", Alias "openbsd");
    ("opensuse", ScrapeRule (list_to_map [
       ("url", "https://build.opensuse.org/package/view_file/openSUSE:Leap:{release}/rust/rust.spec?expand=1");
       ("xpath", "//pre/text()");
       ("re", "Version:\s+(?P<version>\d+[.]\d+[.]\d+)") ]));
    ("ubuntu", ScrapeRule (list_to_map [
       ("url", "http://packages.ubuntu.com/{release}/rustc");
       ("inherit", "debian") ]));
    ("ubuntu-latest", Alias "ubuntu")
  ].

(** [get_dispatch]. The table lookup comes before the [try]; everything
    else is inside it, and the bare [except] returns
    [parse_semver('0.0.0')]; the handler itself only writes the trace.
    [fuel] bounds the depth of the alias recursion and the turns of the
    loop of [get_scrape]; the recursion limit of the interpreter is not
    modelled, so a cycle of aliases has no outcome here, for any [fuel]. *)
Fixpoint get_dispatch (fuel : nat) (E : env) (table : gmap string definition)
    (distro : string) (arg : py_arg) : prog semver :=
  match fuel with
  | O => diverge
  | S fuel' =>
      match table !! distro with
      | None => raise (KeyError distro)
      | Some defin =>
          try_except
            (match defin with
             | CustomResolver f => f arg
             | Alias target => get_dispatch fuel' E table target arg
             | ScrapeRule d => get_scrape fuel' E table distro d arg
             end)
            (fun _ => lift (parse_semver "0.0.0"))
      end
  end.

(** The dispatched call alone, without the [try] around it. *)
Definition dispatch_body (fuel : nat) (E : env) (table : gmap string definition)
    (distro : string) (defin : definition) (arg : py_arg) : prog semver :=
  match defin with
  | CustomResolver f => f arg
  | Alias target => get_dispatch fuel E table target arg
  | ScrapeRule d => get_scrape fuel E table distro d arg
  end.

(** ** The batch coordinator: sorting and the headline *)

Definition lex (c1 c2 : comparison) : comparison :=
  match c1 with
  | Eq => c2
  | _ => c1
  end.

(** Comparison of the tuples [(ma, mi, re)]. *)
Definition ver_compare (v1 v2 : semver) : comparison :=
  let '(a1, b1, c1) := v1 in
  let '(a2, b2, c2) := v2 in
  lex (a1 ?= a2) (lex (b1 ?= b2) (c1 ?= c2)).

(** Comparison of the sort keys [(dv[1], dv[0])] of two results. *)
Definition key_compare (x y : string * semver) : comparison :=
  lex (ver_compare x.2 y.2) (String.compare x.1 y.1).

Definition key_leb (x y : string * semver) : bool :=
  match key_compare x y with
  | Gt => false
  | _ => true
  end.

Definition key_le (x y : string * semver) : Prop := key_leb x y.

#[global] Instance key_le_dec : RelDecision key_le := fun x y => Is_true_dec (key_leb x y).

Definition ver_le (v1 v2 : semver) : Prop := ver_compare v1 v2 <> Gt.

(** [sorted(pkg_vers, key = lambda dv: (dv[1], dv[0]))] *)
Definition sorted_by_key (pkg_vers : list (string * semver))
    : list (string * semver) :=
  merge_sort key_le pkg_vers.

(** Lines 240-244 of [main]: sort, then format the versions. *)
Definition sort_and_format (pkg_vers : list (string * semver))
    : list (string * string) :=
  (fun dv => (dv.1, fmt_ver dv.2)) <$> sorted_by_key pkg_vers.

(** Lines 271-272 of [main]. *)
Definition headline (pkg_vers : list (string * string)) : result string :=
  let vs := filter (fun v => v <> "0.0.0") (pkg_vers.*2) ++ ["unknown"] in
  index0 vs.

(** What the end of [main] does with the collected results. *)
Inductive report : Type :=
  | ExitError (code : Z) (msg : string)
  | PrintTable (rows : list (string * string))
  | PrintLine (line : string).

(** [main] from line 240 on; the rendering of the table is left to
    [tabulate] and [json]. *)
Definition main_report (show_all : bool) (pkg_vers : list (string * semver))
    : result report :=
  let pkg_vers := sort_and_format pkg_vers in
  if bool_decide (length pkg_vers = 0%nat) then
    Ok (ExitError 2 "error: no packages found!")
  else if show_all then Ok (PrintTable pkg_vers)
  else line ← headline pkg_vers; Ok (PrintLine line).

(** ** Notions used to state the properties *)

(** The chain of ['inherit'] links that starts at [link]: its length, when
    it reaches a rule without the field. *)
Inductive chain (table : gmap string definition) : option string -> nat -> Prop :=
  | chain_end : chain table None 0
  | chain_link inherit parent n :
      table !! inherit = Some (ScrapeRule parent) ->
      chain table (parent !! "inherit") n ->
      chain table (Some inherit) (S n).

(** The links lead from [link] to [name] in [k] steps through rules:
    [name] is the entry that turn [k] of the loop looks up. *)
Inductive reaches (table : gmap string definition)
    : option string -> nat -> string -> Prop :=
  | reaches_here name : reaches table (Some name) 0 name
  | reaches_link inherit parent k name :
      table !! inherit = Some (ScrapeRule parent) ->
      reaches table (parent !! "inherit") k name ->
      reaches table (Some inherit) (S k) name.

(** What [DISTROS[name].copy()] raises when [name] has no entry, or an
    entry that is not a rule. *)
Definition copy_error (table : gmap string definition) (name : string)
    : option exn :=
  match table !! name with
  | None => Some (KeyError name)
  | Some (ScrapeRule _) => None
  | Some _ => Some AttributeError
  end.

(** The links break after [n] steps: they lead to a name that cannot be
    copied. *)
Definition broken (table : gmap string definition) (link : option string)
    (n : nat) (e : exn) : Prop :=
  exists name, reaches table link n name /\ copy_error table name = Some e.

(** The links form a cycle: they come back to a name already met. *)
Definition cycle (table : gmap string definition) (link : option string)
    : Prop :=
  exists name i j,
    (i < j)%nat /\ reaches table link i name /\ reaches table link j name.

(** The names met along the links, [steps] of them at most. *)
Fixpoint chain_names (steps : nat) (table : gmap string definition)
    (link : option string) : list string :=
  match steps, link with
  | S steps', Some inherit =>
      inherit ::
      match table !! inherit with
      | Some (ScrapeRule parent) => chain_names steps' table (parent !! "inherit")
      | _ => []
      end
  | _, _ => []
  end.

(** A field looked up along the links by hand: the value the rule has
    [here], or else the value of the nearest ancestor that has one, going
    up [steps] links at most. *)
Fixpoint flat_lookup (steps : nat) (table : gmap string definition)
    (here link : option string) (key : string) : option string :=
  match here with
  | Some v => Some v
  | None =>
      match steps, link with
      | S steps', Some inherit =>
          match table !! inherit with
          | Some (ScrapeRule parent) =>
              flat_lookup steps' table (parent !! key) (parent !! "inherit") key
          | _ => None
          end
      | _, _ => None
      end
  end.

(** The token of the previous run as [get_nixos] reads it back. *)
Definition stored_etag (E : env) (fs : gmap string string) : option string :=
  match gettempdir E with
  | Some d =>
      match fs !! etag_path d with
      | Some bs =>
          match utf8_decode E bs with
          | Ok s => Some (strip s)
          | Raise _ => None
          end
      | None => None
      end
  | None => None
  end.

(** A statement sequence that ends in every world. *)
Definition halts {A} (m : prog A) : Prop := forall w, is_Some (m w).

(** ** Simulated environments *)

Fixpoint ascii_only (s : string) : bool :=
  match s with
  | String c r => (N_of_ascii c <? 128)%N && ascii_only r
  | EmptyString => true
  end.

(** The UTF-8 codec on ASCII text. *)
Definition ascii_decode (s : string) : result string :=
  if ascii_only s then Ok s else Raise (LibraryError "UnicodeDecodeError").

(** [str.format] on templates whose replacement fields are plain names;
    [name] holds the characters of the field being read, last first. *)
Fixpoint format_go (kwargs : gmap string string) (name : option string)
    (s : string) : result string :=
  match s, name with
  | EmptyString, None => Ok EmptyString
  | EmptyString, Some _ => Raise ValueError
  | String c r, None =>
      if Ascii.eqb c "{" then format_go kwargs (Some EmptyString) r
      else if Ascii.eqb c "}" then Raise ValueError
      else t ← format_go kwargs None r; Ok (String c t)
  | String c r, Some n =>
      if Ascii.eqb c "}" then
        v ← field kwargs (String.rev n);
        t ← format_go kwargs None r;
        Ok (v +:+ t)
      else format_go kwargs (Some (String c n)) r
  end.

Definition simple_format (template : string) (kwargs : gmap string string)
    : result string :=
  format_go kwargs None template.

(** An environment made of a network, a page query, a pattern compiler, a
    package index reader and a temporary directory. *)
Definition sim_env (net : string -> result response)
    (xp : string -> string -> result (list string))
    (re : string -> result pattern)
    (nix : string -> result string)
    (tmp : option string) : env :=
  Env net xp re simple_format ascii_decode (fun s => s)
      (fun _ => Ok []) nix tmp (fun _ => "{}").

(** No network: every [urlopen] fails. *)
Definition offline : env :=
  sim_env (fun _ => Raise (LibraryError "URLError"))
          (fun _ _ => Ok [])
          (fun _ => Ok (fun _ => None))
          (fun _ => Raise (LibraryError "OSError: Not a gzipped file"))
          (Some "/tmp").

(** A page whose first [h1] text holds no version: the pattern of the rule
    does not match it. *)
Definition page_nomatch : env :=
  sim_env (fun _ => Ok (Response None (Ok "<html><h1>Package: rustc</h1></html>")))
          (fun _ _ => Ok ["Package: rustc"])
          (fun _ => Ok (fun _ => None))
          (fun _ => Raise (LibraryError "OSError: Not a gzipped file"))
          (Some "/tmp").

(** A page whose first [h1] text holds a version: the pattern matches, and
    its group [version] is ["1.14.0"]. *)
Definition page_match : env :=
  sim_env (fun _ => Ok (Response None (Ok "<html><h1>Package: rustc (1.14.0+dfsg1-3)</h1></html>")))
          (fun _ _ => Ok ["Package: rustc (1.14.0+dfsg1-3)"])
          (fun _ => Ok (fun _ => Some (ReMatch [Some "rustc (1.14.0"; Some "1.14.0"]
                                               {[ "version" := 1%nat ]})))
          (fun _ => Raise (LibraryError "OSError: Not a gzipped file"))
          (Some "/tmp").

(** The package index served with token [etag] and payload [body]; the
    payloads ["P1"] and ["P2"] stand for two compressed indexes. *)
Definition nix_remote (etag : option string) (body : string) : env :=
  sim_env (fun _ => Ok (Response etag (Ok body)))
          (fun _ _ => Ok [])
          (fun _ => Ok (fun name =>
             if String.eqb name "rustc-1.16.0"
             then Some (ReMatch [Some "rustc-1.16.0"; Some "1.16.0"] ∅)
             else if String.eqb name "rustc-1.17.0"
             then Some (ReMatch [Some "rustc-1.17.0"; Some "1.17.0"] ∅)
             else None))
          (fun bs => if String.eqb bs "P1" then Ok "rustc-1.16.0"
                     else if String.eqb bs "P2" then Ok "rustc-1.17.0"
                     else Raise (LibraryError "OSError: Not a gzipped file"))
          (Some "/tmp").

Definition empty_world : world := World ∅ [] [].

(** The two cache files of [get_nixos] in [/tmp]. *)
Definition cache_files (token payload : string) : gmap string string :=
  {[ "/tmp/decrepit-nixos-packages.json.gz.etag" := token;
     "/tmp/decrepit-nixos-packages.json.gz" := payload ]}.

(** The temporary directory after a run that stored token ["abc"] and
    payload ["P1"]. *)
Definition cached_world : world := World (cache_files "abc" "P1") [] [].

(** The same directory once the payload file is gone. *)
Definition token_only_world : world :=
  World {[ "/tmp/decrepit-nixos-packages.json.gz.etag" := "abc" ]} [] [].

(** A table with a rule that inherits from itself. *)
Definition cyclic_rule : gmap string string :=
  {[ "url" := "http://example.org/{release}/rustc"; "inherit" := "loop" ]}.

Definition cyclic_table : gmap string definition :=
  {[ "loop" := ScrapeRule cyclic_rule ]}.

(** A table whose only entry names an entry that does not exist. *)
Definition dangling_table : gmap string definition :=
  {[ "mint" := Alias "lmde" ]}.

Definition debian_rule : gmap string string :=
  list_to_map [
    ("url", "https://packages.debian.org/{release}/rustc");
    ("xpath", "//h1/text()");
    ("re", "rustc [(](?P<version>\d+[.]\d+[.]\d+)") ].

Definition ubuntu_rule : gmap string string :=
  list_to_map [
    ("url", "http://packages.ubuntu.com/{release}/rustc");
    ("inherit", "debian") ].

(** ** Further notions: dates, characters, the whole run *)

(** Whether the character [c] occurs in [s]. *)
Fixpoint has_char (c : ascii) (s : string) : bool :=
  match s with
  | String a r => Ascii.eqb a c || has_char c r
  | EmptyString => false
  end.

(** The last line of [parse_date]: ['%04d-%02d-%02d'] on a date. *)
Definition iso_date (d : date) : string :=
  fmt_0d 4 (year d) +:+ "-" +:+ fmt_0d 2 (month d) +:+ "-"
  +:+ fmt_0d 2 (day d).

(** A date of the calendar: one that [datetime.date] accepts. *)
Definition valid_date (d : date) : bool :=
  is_ok (datetime_date (year d) (month d) (day d)).

(** The order of the calendar. *)
Definition date_compare (d1 d2 : date) : comparison :=
  lex (year d1 ?= year d2) (lex (month d1 ?= month d2) (day d1 ?= day d2)).

(** A statement sequence that leaves the files as they are. *)
Definition keeps_files {A} (m : prog A) : Prop :=
  forall w r w', m w = Some (r, w') -> files w' = files w.

(** A statement sequence whose result is the same in every world. *)
Definition world_blind {A} (m : prog A) : Prop :=
  forall w1 w2, fst <$> m w1 = fst <$> m w2.

(** A table in which a rule inherits from an alias. *)
Definition alias_inherit_table : gmap string definition :=
  {[ "debian" := ScrapeRule debian_rule;
     "debian-testing" := Alias "debian";
     "mint" := ScrapeRule {[ "url" := "http://packages.linuxmint.com/{release}";
                             "inherit" := "debian-testing" ]} ]}.

(** The two addresses of [get_freebsd]: the directory of the port in the
    branch [rel], and its Makefile at revision [rev]. *)
Definition freebsd_pkg_url (rel : string) : string :=
  "https://svnweb.freebsd.org/" +:+ "ports/branches/" +:+ rel +:+ "/"
  +:+ "lang/rust".

Definition freebsd_makefile_url (rel rev : string) : string :=
  "https://svnweb.freebsd.org/" +:+ "ports/branches/" +:+ rel +:+ "/"
  +:+ "lang/rust" +:+ "/Makefile?revision=" +:+ rev +:+ "&view=co".

Definition freebsd_rev_xpath : string :=
  "//tr[td[1]/a/text()='" +:+ String "010" "Makefile']/td[2]//strong/text()".

(** The tag and the two addresses of [get_openbsd]. *)
Definition openbsd_tag (release : string) : string :=
  "OPENBSD_" +:+ replace_char "." "_" release.

Definition openbsd_pkg_url (release : string) : string :=
  "http://cvsweb.openbsd.org/cgi-bin/cvsweb/" +:+ "ports/" +:+ "lang/rust"
  +:+ "/?only_with_tag=" +:+ openbsd_tag release.

Definition openbsd_makefile_url (release rev : string) : string :=
  "http://cvsweb.openbsd.org/cgi-bin/cvsweb/" +:+ "~checkout~/ports/"
  +:+ "lang/rust" +:+ "/Makefile?rev=" +:+ rev +:+ "&only_with_tag="
  +:+ openbsd_tag release.

Definition openbsd_rev_xpath : string :=
  "//tr[td[1]/a[3]/text()='Makefile']/td[2]/a/b/text()".

(** A remote for the two-step resolvers: every page lists revision
    [1.7], every Makefile gives version [1.16.0]. *)
Definition bsd_remote : env :=
  sim_env (fun _ => Ok (Response None (Ok "page")))
          (fun _ _ => Ok ["1.7"])
          (fun _ => Ok (fun _ => Some (ReMatch [Some "V = 1.16.0"; Some "1.16.0"] ∅)))
          (fun _ => Raise (LibraryError "not used"))
          None.

(** The result of [get_fedora] once the row is chosen. *)
Definition fedora_row_version (E : env) (release : gmap string string)
    : result semver :=
  re_ver ← re_compile E ">(\d+[.]\d+[.]\d+)(-[^<]+)?<";
  ver ← field release "stable_version";
  ver ← search_group1 re_ver ver;
  parse_semver ver.

(** A package query that answers with two rows, the newer release
    first. *)
Definition fedora_rows : list (gmap string string) :=
  [ {[ "release" := "Fedora 25";
       "stable_version" := "<a href='u'>1.16.0-1.fc25</a>" ]};
    {[ "release" := "Fedora 24";
       "stable_version" := "<a href='u'>1.15.1-1.fc24</a>" ]} ].

Definition fedora_remote : env :=
  Env (fun _ => Ok (Response None (Ok "{}")))
      (fun _ _ => Ok [])
      (fun _ => Ok (fun t =>
         if String.eqb t "<a href='u'>1.16.0-1.fc25</a>"
         then Some (ReMatch [Some ">1.16.0-1.fc25<"; Some "1.16.0";
                             Some "-1.fc25"] ∅)
         else if String.eqb t "<a href='u'>1.15.1-1.fc24</a>"
         then Some (ReMatch [Some ">1.15.1-1.fc24<"; Some "1.15.1";
                             Some "-1.fc24"] ∅)
         else None))
      simple_format ascii_decode (fun s => s)
      (fun _ => Ok fedora_rows)
      (fun _ => Raise (LibraryError "not used"))
      None (fun _ => "{}").

(** ** The run of [main] *)

(** An entry of [PROFILES]: the date, and the dict of the releases in the
    order in which it is written. *)
Record profile : Type := Profile {
  prof_date : string;
  prof_releases : list (string * string);
}.

Definition PROFILES : list profile := [
  Profile "2017-04-14" [
    ("arch", ROLLING);
    ("debian", "jessie");
    ("debian-testing", "stretch");
    ("debian-unstable", "sid");
    ("fedora", "24");
    ("fedora-latest", "25");
    ("freebsd", "2017Q1");
    ("freebsd-latest", "2017Q2");
    ("nixos", ROLLING);
    ("openbsd", "6.0");
    ("openbsd-latest", "6.1");
    ("opensuse", "42.2");
    ("ubuntu", "xenial");
    ("ubuntu-latest", "zesty") ];
  Profile "2017-03-16" [
    ("arch", ROLLING);
    ("debian", "jessie");
    ("debian-testing", "stretch");
    ("debian-unstable", "sid");
    ("fedora", "24");
    ("fedora-latest", "25");
    ("nixos", ROLLING);
    ("opensuse", "42.2");
    ("ubuntu", "xenial");
    ("ubuntu-latest", "yakkety") ]
].

Definition SLOW_DISTROS : list string := ["nixos"].

(** [sorted]: a stable sort.  [before x y] tells whether [x], which comes
    earlier in the input, stays in front of [y]: [key x <= key y], or
    [key y <= key x] with [reverse=True]. *)
Fixpoint insert_sorted {A} (before : A -> A -> bool) (x : A) (l : list A)
    : list A :=
  match l with
  | [] => [x]
  | y :: l' => if before x y then x :: l else y :: insert_sorted before x l'
  end.

Definition py_sorted {A} (before : A -> A -> bool) (l : list A) : list A :=
  foldr (insert_sorted before) [] l.

(** [s.split(sep, 1)]: cut at the first separator, if there is one. *)
Fixpoint split1 (sep : ascii) (s : string) : list string :=
  match s with
  | EmptyString => [EmptyString]
  | String c r =>
      if Ascii.eqb c sep then [EmptyString; r]
      else match split1 sep r with
           | w :: ws => String c w :: ws
           | [] => [String c EmptyString]
           end
  end.

(** A dict in the order of insertion: [d[k] = v] keeps the place of a key
    that is there and puts a new key last. *)
Fixpoint dict_set (k v : string) (d : list (string * string))
    : list (string * string) :=
  match d with
  | [] => [(k, v)]
  | (k', v') :: d' =>
      if String.eqb k' k then (k', v) :: d' else (k', v') :: dict_set k v d'
  end.

Fixpoint dict_get (k : string) (d : list (string * string)) : option string :=
  match d with
  | [] => None
  | (k', v) :: d' => if String.eqb k' k then Some v else dict_get k d'
  end.

(** [d.update(items)], and a dict built from [items]. *)
Definition dict_update (d items : list (string * string))
    : list (string * string) :=
  foldl (fun acc kv => dict_set kv.1 kv.2 acc) d items.

Definition dict_of (items : list (string * string)) : list (string * string) :=
  dict_update [] items.

(** Lines 168-174 of [main]: the names asked for, or every name of
    [DISTROS] when none is.  The set is kept as a list: only membership
    and emptiness are used. *)
Definition distro_names (distro_strs : list string) : list string :=
  distro_str ← distro_strs;
  (fun d => strip (List.hd "" (split ":" d))) <$> split "," distro_str.

Definition selected_distros (E : env) (distro_strs : list string)
    : list string :=
  let distros := distro_names distro_strs in
  if bool_decide (length distros = 0%nat) then (map_to_list (DISTROS E)).*1
  else distros.

(** Lines 179-189: the profiles not after the date, the latest first. *)
Definition select_profile (profiles : list profile) (as_of_date : string)
    : option profile :=
  head (py_sorted (fun p q => String.leb (prof_date q) (prof_date p))
          (List.filter (fun p => String.leb (prof_date p) as_of_date)
             profiles)).

(** [(d.split(':', 1) + [''])[:2]], unpacked as [(d, a)]; the list has
    two elements whatever [d] is. *)
Definition release_pair (d : string) : string * string :=
  match take 2 (split1 ":" d ++ [""]) with
  | [d'; a] => (d', a)
  | _ => (d, "")
  end.

(** The dict comprehension of lines 195-202 for one option: the pairs
    that give a release.  [a.strip() is not ''] is read as [!=]: the
    empty result of [strip] is the interpreter's one empty string. *)
Definition release_overrides (distro_str : string) : list (string * string) :=
  dict_of (List.filter (fun da => negb (String.eqb (strip da.2) ""))
             (release_pair <$> split "," distro_str)).

(** Lines 193-202. *)
Definition override_releases (releases : list (string * string))
    (distro_strs : list string) : list (string * string) :=
  foldl (fun releases distro_str =>
           dict_update releases (release_overrides distro_str))
        releases distro_strs.

(** Lines 208-213: the line printed by [--list-distros]. *)
Definition list_line (releases : list (string * string)) : string :=
  String.concat ", "
    ((fun da => da.1 +:+ (if String.eqb da.2 ROLLING then ""
                          else ":" +:+ da.2))
     <$> py_sorted (fun x y => String.leb x.2 y.2) releases).

(** Lines 217-220. *)
Definition check (fast_only : bool) (distros : list string) (distro : string)
    : bool :=
  if fast_only && bool_decide (distro ∈ SLOW_DISTROS) then false
  else bool_decide (distro ∈ distros).

(** Lines 222-235: [get_dispatch] on every pair, the results in the order
    of the pairs.  The pool of [main] runs the calls side by side; here
    they run one after the other, a call that raises ending the batch. *)
Fixpoint dispatch_all (fuel : nat) (E : env) (table : gmap string definition)
    (items : list (string * string)) : prog (list (string * semver)) :=
  match items with
  | [] => ret []
  | (distro, arg) :: rest =>
      v ← get_dispatch fuel E table distro (ArgStr arg);
      vs ← dispatch_all fuel E table rest;
      ret ((distro, v) :: vs)
  end.

(** The options of the command line, as [docopt] hands them over. *)
Record options : Type := Options {
  opt_DATE : option string;
  opt_distro : list string;
  opt_fast : bool;
  opt_list_distros : bool;
  opt_all : bool;
}.

Definition too_old (as_of_date : string) : string :=
  "error: provided date `" +:+ as_of_date
  +:+ "` is too old: no data available.".

(** [main] on parsed options; [today] is the date of the run.  The
    rendering options only change how the table is printed. *)
Definition main_run (fuel : nat) (E : env) (today : date) (o : options)
    : prog report :=
  as_of_date ← lift (parse_date today (opt_DATE o));
  let distros := selected_distros E (opt_distro o) in
  match select_profile PROFILES as_of_date with
  | None => ret (ExitError 1 (too_old as_of_date))
  | Some profile =>
      let releases :=
        override_releases (prof_releases profile) (opt_distro o) in
      if opt_list_distros o then ret (PrintLine (list_line releases))
      else
        pkg_vers ← dispatch_all fuel E (DISTROS E)
                     (List.filter (fun da => check (opt_fast o) distros da.1)
                        releases);
        lift (main_report (opt_all o) pkg_vers)
  end.

(** The pairs with a release that the options give, in the order in
    which they are written. *)
Definition given_releases (distro_strs : list string)
    : list (string * string) :=
  distro_str ← distro_strs;
  List.filter (fun da => negb (String.eqb (strip da.2) ""))
    (release_pair <$> split "," distro_str).

(** A statement sequence that looks at the files only: from two worlds
    with the same files it gives the same result and the same files. *)
Definition files_only {A} (m : prog A) : Prop :=
  forall w1 w2, files w1 = files w2 ->
    match m w1, m w2 with
    | Some (r1, w1'), Some (r2, w2') => r1 = r2 /\ files w1' = files w2'
    | None, None => True
    | _, _ => False
    end.

(** An argument that is [None], a string or a dict. *)
Definition plain_arg (a : py_arg) : bool :=
  match a with
  | ArgOther _ => false
  | _ => true
  end.

(** * Properties *)

(** ** Strings and decimal numbers *)

Lemma app_nil_l (s : string) : "" +:+ s = s.
Proof. reflexivity. Qed.

Lemma app_cons (c : ascii) (s1 s2 : string) :
  String c s1 +:+ s2 = String c (s1 +:+ s2).
Proof. reflexivity. Qed.

Ltac str_simpl := rewrite ?app_cons, ?app_nil_l in *; simpl in *.

Lemma append_assoc (s1 s2 s3 : string) :
  (s1 +:+ s2) +:+ s3 = s1 +:+ (s2 +:+ s3).
Proof. induction s1 as [|c s1 IH]; str_simpl; [reflexivity | by rewrite IH]. Qed.

Lemma pretty_N_go_app (x : N) (s : string) :
  pretty_N_go x s = pretty_N_go x "" +:+ s.
Proof.
  revert s. induction (N.lt_wf_0 x) as [x _ IH]; intros s.
  destruct (decide (x = 0%N)) as [->|Hx].
  - by rewrite !pretty_N_go_0.
  - rewrite (pretty_N_go_step x s), (pretty_N_go_step x "") by lia.
    assert (x `div` 10 < x)%N as Hlt by (apply N.div_lt; lia).
    rewrite (IH _ Hlt (String _ s)), (IH _ Hlt (String _ "")).
    by rewrite append_assoc.
Qed.

Lemma pretty_N_go_snoc (x : N) :
  (0 < x)%N ->
  pretty_N_go x "" =
  pretty_N_go (x `div` 10) "" +:+ String (pretty_N_char (x `mod` 10)) "".
Proof. intros Hx. rewrite pretty_N_go_step by done. apply pretty_N_go_app. Qed.

Lemma pretty_N_char_digit (d : N) :
  (d < 10)%N ->
  is_digit (pretty_N_char d) = true /\ digit_val (pretty_N_char d) = Z.of_N d.
Proof.
  intros Hd.
  assert (d = 0 \/ d = 1 \/ d = 2 \/ d = 3 \/ d = 4 \/ d = 5 \/ d = 6
          \/ d = 7 \/ d = 8 \/ d = 9)%N as Hc by lia.
  destruct_or!; subst d; by vm_compute.
Qed.

Lemma all_digits_app (s1 s2 : string) :
  all_digits (s1 +:+ s2) = all_digits s1 && all_digits s2.
Proof.
  induction s1 as [|c s1 IH]; str_simpl; [reflexivity|].
  rewrite IH. by destruct (is_digit c).
Qed.

Lemma digits_val_app (s1 s2 : string) (acc : Z) :
  digits_val acc (s1 +:+ s2) = digits_val (digits_val acc s1) s2.
Proof.
  revert acc.
  induction s1 as [|c s1 IH]; intros acc; str_simpl; [reflexivity | apply IH].
Qed.

Lemma pretty_N_go_digits (x : N) :
  all_digits (pretty_N_go x "") = true
  /\ digits_val 0 (pretty_N_go x "") = Z.of_N x.
Proof.
  induction (N.lt_wf_0 x) as [x _ IH].
  destruct (decide (x = 0%N)) as [->|Hx]; [by rewrite pretty_N_go_0|].
  rewrite pretty_N_go_snoc by lia.
  destruct (IH (x `div` 10)%N) as [Hd Hv]; [apply N.div_lt; lia|].
  destruct (pretty_N_char_digit (x `mod` 10)%N) as [Hc Hcv];
    [apply N.mod_lt; lia|].
  rewrite all_digits_app, digits_val_app, Hd, Hv. simpl. rewrite Hc, Hcv.
  split; [done|].
  rewrite (N.div_mod x 10) at 3 by lia. lia.
Qed.

Lemma pretty_N_go_nonempty (x : N) : (0 < x)%N -> pretty_N_go x "" <> "".
Proof.
  intros Hx. rewrite pretty_N_go_snoc by done.
  destruct (pretty_N_go _ ""); str_simpl; discriminate.
Qed.

(** ['%d' % n] for [n >= 0] is a non-empty string of digits that reads
    back as [n]. *)
Lemma fmt_d_numeric (n : Z) :
  0 <= n -> numeric (fmt_d n) = true /\ digits_val 0 (fmt_d n) = n.
Proof.
  intros Hn. unfold fmt_d, pretty, pretty_Z.
  destruct n as [|p|p]; [by vm_compute | | lia].
  unfold pretty, pretty_positive, pretty, pretty_N.
  destruct (decide (N.pos p = 0%N)) as [|_]; [lia|].
  destruct (pretty_N_go_digits (N.pos p)) as [Hd Hv].
  pose proof (pretty_N_go_nonempty (N.pos p)) as Hne.
  unfold numeric. destruct (pretty_N_go (N.pos p) "") eqn:E.
  - exfalso. apply Hne; [lia | done].
  - split; [exact Hd | exact Hv].
Qed.


Lemma is_digit_not_space (c : ascii) :
  is_digit c = true -> is_int_space c = false.
Proof.
  unfold is_digit, is_int_space. intros H.
  apply andb_true_iff in H as [H1 H2].
  apply N.leb_le in H1. apply N.leb_le in H2.
  apply orb_false_iff; split.
  - apply andb_false_iff; right; apply N.leb_gt; lia.
  - apply N.eqb_neq. lia.
Qed.

Lemma span_digits_all (d : string) :
  all_digits d = true -> span_digits d = (d, "").
Proof.
  induction d as [|c d IH]; simpl; [done|].
  intros [Hc Hd]%andb_true_iff. by rewrite Hc, IH.
Qed.

(** A run of digits followed by a character that is not a digit is what
    [\d+] takes. *)
Lemma span_digits_app (d : string) (c : ascii) (r : string) :
  all_digits d = true -> is_digit c = false ->
  span_digits (d +:+ String c r) = (d, String c r).
Proof.
  intros Hd Hc. induction d as [|a d IH]; str_simpl.
  - by rewrite Hc.
  - apply andb_true_iff in Hd as [Ha Hd]. by rewrite Ha, IH.
Qed.

Lemma lstrip_digits (d : string) :
  numeric d = true -> lstrip is_int_space d = d.
Proof.
  destruct d as [|c d]; simpl; [done|].
  intros [Hc _]%andb_true_iff. by rewrite (is_digit_not_space c Hc).
Qed.

Lemma rstrip_digits (d : string) :
  all_digits d = true -> rstrip is_int_space d = d.
Proof.
  induction d as [|c d IH]; simpl; [done|].
  intros [Hc Hd]%andb_true_iff. rewrite (IH Hd).
  destruct d; [by rewrite (is_digit_not_space c Hc) | done].
Qed.

Lemma numeric_all_digits (d : string) : numeric d = true -> all_digits d = true.
Proof. by destruct d. Qed.

Lemma strip_digits (d : string) :
  numeric d = true -> rstrip is_int_space (lstrip is_int_space d) = d.
Proof.
  intros Hd. rewrite (lstrip_digits d Hd).
  by apply rstrip_digits, numeric_all_digits.
Qed.

Lemma int_digits_all (s : string) (prev : bool) (acc : Z) :
  all_digits s = true -> prev = true \/ s <> "" ->
  int_digits prev acc s = Some (digits_val acc s).
Proof.
  revert prev acc. induction s as [|c s IH]; intros prev acc Hs Hp; simpl.
  - destruct Hp as [->|]; done.
  - simpl in Hs. apply andb_true_iff in Hs as [Hc Hs].
    rewrite Hc. apply IH; auto.
Qed.

(** [int] on a non-empty string of digits. *)
Lemma py_int_numeric (d : string) :
  numeric d = true -> py_int d = Ok (digits_val 0 d).
Proof.
  intros Hd. unfold py_int. rewrite (strip_digits d Hd).
  assert (int_digits false 0 d = Some (digits_val 0 d)) as Hi.
  { apply int_digits_all; [by apply numeric_all_digits|].
    right. by destruct d. }
  destruct d as [|c d]; [done|].
  assert (is_digit c = true) as Hc.
  { simpl in Hd. by apply andb_true_iff in Hd as [? _]. }
  destruct c as [[] [] [] [] [] [] [] []]; try discriminate; by rewrite Hi.
Qed.

Lemma RE_VER_match_numeric (ma mi re : string) :
  numeric ma = true -> numeric mi = true -> numeric re = true ->
  RE_VER_match (ma +:+ "." +:+ mi +:+ "." +:+ re) = Some (ma, mi, re).
Proof.
  intros Ha Hb Hc. unfold RE_VER_match.
  rewrite !(app_cons "."), !app_nil_l.
  rewrite (span_digits_app ma) by (by apply numeric_all_digits || done).
  destruct ma as [|a ma]; [done|].
  rewrite (span_digits_app mi) by (by apply numeric_all_digits || done).
  destruct mi as [|b mi]; [done|].
  rewrite (span_digits_all re) by (by apply numeric_all_digits).
  by destruct re.
Qed.

(** C8. For every version [(ma, mi, re)] of non-negative integers, parsing
    the formatted string gives the tuple back:
    [parse_semver (fmt_ver v) = v]. *)
Theorem parse_semver_fmt_ver (ma mi re : Z) :
  0 <= ma -> 0 <= mi -> 0 <= re ->
  parse_semver (fmt_ver (ma, mi, re)) = Ok (ma, mi, re).
Proof.
  intros Ha Hb Hc.
  destruct (fmt_d_numeric ma Ha) as [Na Va].
  destruct (fmt_d_numeric mi Hb) as [Nb Vb].
  destruct (fmt_d_numeric re Hc) as [Nc Vc].
  unfold parse_semver, fmt_ver.
  rewrite RE_VER_match_numeric by done.
  rewrite !py_int_numeric by done. simpl.
  by rewrite Va, Vb, Vc.
Qed.

Lemma parse_semver_fmt_ver_witness :
  parse_semver (fmt_ver (1, 16, 0)) = Ok (1, 16, 0).
Proof. apply (parse_semver_fmt_ver 1 16 0); lia. Defined.

(** *** The date normaliser *)

Lemma split_digits (d : string) :
  all_digits d = true -> split "-" d = [d].
Proof.
  induction d as [|c d IH]; simpl; [done|].
  intros [Hc Hd]%andb_true_iff. rewrite (IH Hd).
  destruct (Ascii.eqb_spec c "-") as [->|]; [discriminate | done].
Qed.

Lemma split_digits_dash (d r : string) :
  all_digits d = true -> split "-" (d +:+ "-" +:+ r) = d :: split "-" r.
Proof.
  intros Hd. rewrite (app_cons "-"), app_nil_l.
  induction d as [|c d IH]; str_simpl; [done|].
  apply andb_true_iff in Hd as [Hc Hd]. rewrite (IH Hd).
  destruct (Ascii.eqb_spec c "-") as [->|]; [discriminate | done].
Qed.

Lemma days_in_month_pos (y m : Z) : 1 <= days_in_month y m.
Proof. unfold days_in_month. repeat case_match; lia. Qed.

Ltac leb_cases :=
  repeat match goal with
         | |- context [?a <=? ?b] => destruct (Z.leb_spec a b)
         end.

Lemma datetime_date_first (y m : Z) :
  1 <= y <= 9999 -> 1 <= m <= 12 ->
  datetime_date y m 1 = Ok (Date y m 1).
Proof.
  intros Hy Hm. unfold datetime_date, fits_c_int.
  pose proof (days_in_month_pos y m).
  leb_cases; simpl; try reflexivity; lia.
Qed.

(** The first day of a month that is not in the calendar: the error
    depends on whether the numbers fit a C [int]. *)
Lemma datetime_date_first_error (y m : Z) :
  0 <= y -> 0 <= m -> ~ (1 <= y <= 9999 /\ 1 <= m <= 12) ->
  datetime_date y m 1
  = Raise (if (y <=? 2147483647) && (m <=? 2147483647) then ValueError
           else OverflowError).
Proof.
  intros Hy Hm Hout. unfold datetime_date, fits_c_int.
  leb_cases; simpl; try reflexivity; lia.
Qed.

Lemma digits_val_ge (s : string) (acc : Z) :
  all_digits s = true -> 0 <= acc -> acc <= digits_val acc s.
Proof.
  revert acc. induction s as [|c s IH]; intros acc Hs Hacc; simpl; [lia|].
  simpl in Hs. apply andb_true_iff in Hs as [Hc Hs].
  assert (0 <= digit_val c).
  { unfold is_digit, digit_val in *. apply andb_true_iff in Hc as [H1 _].
    apply N.leb_le in H1. lia. }
  specialize (IH (acc * 10 + digit_val c) Hs). lia.
Qed.

Lemma length_app (s1 s2 : string) :
  String.length (s1 +:+ s2) = (String.length s1 + String.length s2)%nat.
Proof. induction s1 as [|c s1 IH]; str_simpl; [done | by rewrite IH]. Qed.

Lemma length_zeros (k : nat) : String.length (zeros k) = k.
Proof. induction k as [|k IH]; simpl; [done | by rewrite IH]. Qed.

Lemma all_digits_zeros (k : nat) : all_digits (zeros k) = true.
Proof. induction k as [|k IH]; simpl; done. Qed.

(** A number below [10^k] is printed with at most [k] digits. *)
Lemma pretty_N_go_length (k : nat) (x : N) :
  (x < 10 ^ N.of_nat k)%N -> (String.length (pretty_N_go x "") <= k)%nat.
Proof.
  revert x. induction k as [|k IH]; intros x Hx.
  - assert (x = 0%N) as -> by (simpl in Hx; lia). by rewrite pretty_N_go_0.
  - destruct (decide (x = 0%N)) as [->|Hx0]; [rewrite pretty_N_go_0; simpl; lia|].
    rewrite pretty_N_go_snoc, length_app by lia. simpl.
    assert (x `div` 10 < 10 ^ N.of_nat k)%N as Hd.
    { apply N.Div0.div_lt_upper_bound.
      rewrite Nat2N.inj_succ, N.pow_succ_r' in Hx. lia. }
    specialize (IH _ Hd). lia.
Qed.

(** ['%0<w>d'] on a number from 0 to [10^w - 1]: exactly [w] digits. *)
Lemma fmt_0d_width (w : nat) (n : Z) :
  (0 < w)%nat -> 0 <= n < 10 ^ Z.of_nat w ->
  String.length (fmt_0d w n) = w /\ all_digits (fmt_0d w n) = true.
Proof.
  intros Hw Hn. unfold fmt_0d.
  replace (n <? 0) with false by (symmetry; apply Z.ltb_ge; lia).
  destruct (fmt_d_numeric n) as [Hnum Hval]; [lia|]. unfold fmt_d in *.
  assert (String.length (pretty n) <= w)%nat as Hlen.
  { unfold pretty, pretty_Z. destruct n as [|p|p]; [simpl; lia | | lia].
    unfold pretty, pretty_positive, pretty, pretty_N.
    destruct (decide (N.pos p = 0%N)) as [|_]; [lia|].
    apply pretty_N_go_length.
    apply N2Z.inj_lt. rewrite N2Z.inj_pow, nat_N_Z. simpl. lia. }
  rewrite length_app, length_zeros, all_digits_app, all_digits_zeros.
  split; [lia | by apply numeric_all_digits].
Qed.

Lemma is_iso_date_parts (y m d : string) :
  String.length y = 4%nat -> all_digits y = true ->
  String.length m = 2%nat -> all_digits m = true ->
  String.length d = 2%nat -> all_digits d = true ->
  is_iso_date (y +:+ "-" +:+ m +:+ "-" +:+ d) = true.
Proof.
  intros Ly Dy Lm Dm Ld Dd.
  destruct y as [|y1 [|y2 [|y3 [|y4 [|? ?]]]]]; try discriminate.
  destruct m as [|m1 [|m2 [|? ?]]]; try discriminate.
  destruct d as [|d1 [|d2 [|? ?]]]; try discriminate.
  simpl in *.
  repeat match goal with
         | H : _ && _ = true |- _ => apply andb_true_iff in H as [? ?]
         end.
  str_simpl.
  repeat match goal with
         | H : is_digit _ = true |- _ => rewrite H; clear H
         end.
  reflexivity.
Qed.

(** C10 (as amended). On one or two dash-separated components of digits
    [parse_date] fills the missing month and day with 01.  When the year is
    one of the calendar (1 to 9999) and the month, if given, is one too (1
    to 12), it returns the zero-padded string [YYYY-MM-DD].  Otherwise no
    string comes back: [datetime.date] raises [OverflowError] when one of
    the numbers does not fit a C [int], and [ValueError] when they fit. *)
Theorem parse_date_partial (today : date) (y : string) :
  numeric y = true ->
  let yyyy := fmt_0d 4 (digits_val 0 y) in
  (1 <= digits_val 0 y <= 9999 ->
     parse_date today (Some y) = Ok (yyyy +:+ "-" +:+ "01" +:+ "-" +:+ "01")
     /\ is_iso_date (yyyy +:+ "-" +:+ "01" +:+ "-" +:+ "01") = true)
  /\ (digits_val 0 y = 0 \/ 9999 < digits_val 0 y <= 2147483647 ->
      parse_date today (Some y) = Raise ValueError)
  /\ (2147483647 < digits_val 0 y ->
      parse_date today (Some y) = Raise OverflowError)
  /\ forall m,
       numeric m = true ->
       let mm := fmt_0d 2 (digits_val 0 m) in
       (1 <= digits_val 0 y <= 9999 -> 1 <= digits_val 0 m <= 12 ->
          parse_date today (Some (y +:+ "-" +:+ m))
          = Ok (yyyy +:+ "-" +:+ mm +:+ "-" +:+ "01")
          /\ is_iso_date (yyyy +:+ "-" +:+ mm +:+ "-" +:+ "01") = true)
       /\ (digits_val 0 y <= 2147483647 -> digits_val 0 m <= 2147483647 ->
           ~ (1 <= digits_val 0 y <= 9999 /\ 1 <= digits_val 0 m <= 12) ->
           parse_date today (Some (y +:+ "-" +:+ m)) = Raise ValueError)
       /\ (2147483647 < digits_val 0 y \/ 2147483647 < digits_val 0 m ->
           parse_date today (Some (y +:+ "-" +:+ m)) = Raise OverflowError).
Proof.
  intros Ny yyyy.
  pose proof (numeric_all_digits y Ny) as Dy.
  pose proof (digits_val_ge y 0 Dy (Z.le_refl 0)) as Py.
  assert (parse_date today (Some y)
          = d ← datetime_date (digits_val 0 y) 1 1;
            Ok (fmt_0d 4 (year d) +:+ "-" +:+ fmt_0d 2 (month d) +:+ "-"
                +:+ fmt_0d 2 (day d))) as Hone.
  { unfold parse_date. rewrite split_digits by done. simpl.
    by rewrite py_int_numeric by done. }
  split; [|split; [|split]].
  - intros Hy.
    destruct (fmt_0d_width 4 (digits_val 0 y)) as [Ly Ay]; [lia | lia |].
    split; [|by apply is_iso_date_parts].
    rewrite Hone, datetime_date_first by (done || lia). reflexivity.
  - intros Hy. rewrite Hone, datetime_date_first_error by lia.
    replace (digits_val 0 y <=? 2147483647) with true
      by (symmetry; apply Z.leb_le; lia).
    reflexivity.
  - intros Hy. rewrite Hone, datetime_date_first_error by lia.
    replace (digits_val 0 y <=? 2147483647) with false
      by (symmetry; apply Z.leb_gt; lia).
    reflexivity.
  - intros m Nm mm.
    pose proof (numeric_all_digits m Nm) as Dm.
    pose proof (digits_val_ge m 0 Dm (Z.le_refl 0)) as Pm.
    assert (parse_date today (Some (y +:+ "-" +:+ m))
            = d ← datetime_date (digits_val 0 y) (digits_val 0 m) 1;
              Ok (fmt_0d 4 (year d) +:+ "-" +:+ fmt_0d 2 (month d) +:+ "-"
                  +:+ fmt_0d 2 (day d))) as Htwo.
    { unfold parse_date. rewrite split_digits_dash, split_digits by done.
      simpl. by rewrite !py_int_numeric by done. }
    split; [|split].
    + intros Hy Hm.
      destruct (fmt_0d_width 4 (digits_val 0 y)) as [Ly Ay]; [lia | lia |].
      destruct (fmt_0d_width 2 (digits_val 0 m)) as [Lm Am]; [lia | lia |].
      split; [|by apply is_iso_date_parts].
      rewrite Htwo, datetime_date_first by done. reflexivity.
    + intros Hy Hm Hout. rewrite Htwo, datetime_date_first_error by lia.
      replace (digits_val 0 y <=? 2147483647) with true
        by (symmetry; apply Z.leb_le; lia).
      replace (digits_val 0 m <=? 2147483647) with true
        by (symmetry; apply Z.leb_le; lia).
      reflexivity.
    + intros Hbig. rewrite Htwo, datetime_date_first_error by lia.
      destruct (Z.leb_spec (digits_val 0 y) 2147483647),
               (Z.leb_spec (digits_val 0 m) 2147483647);
        try reflexivity; lia.
Qed.

Lemma parse_date_partial_witness :
  parse_date (Date 2017 4 14) (Some "2017") = Ok "2017-01-01"
  /\ parse_date (Date 2017 4 14) (Some "2017-04") = Ok "2017-04-01".
Proof.
  destruct (parse_date_partial (Date 2017 4 14) "2017")
    as (H1 & _ & _ & H2); [reflexivity|].
  destruct H1 as [H1 _]; [vm_compute; split; discriminate|].
  split; [exact H1|].
  destruct (H2 "04") as [H3 _]; [reflexivity|].
  destruct H3 as [H3 _]; [vm_compute; split; discriminate..|].
  exact H3.
Defined.

(** C10, as stated, fails: two numeric components, and no date comes
    back when the second is not a month. *)
Lemma parse_date_month_13 :
  numeric "2017" = true /\ numeric "13" = true
  /\ parse_date (Date 2017 4 14) (Some "2017-13") = Raise ValueError.
Proof. vm_compute. repeat split. Qed.

Example parse_date_examples :
  parse_date (Date 2017 4 14) (Some "2017") = Ok "2017-01-01"
  /\ parse_date (Date 2017 4 14) (Some "2017-4-9") = Ok "2017-04-09"
  /\ parse_date (Date 2017 4 14) None = Ok "2017-04-14"
  /\ parse_date (Date 2017 4 14) (Some "0") = Raise ValueError
  /\ parse_date (Date 2017 4 14) (Some "2017-2-29") = Raise ValueError
  /\ parse_date (Date 2017 4 14) (Some "2016-2-29-x") = Ok "2016-02-29"
  /\ parse_date (Date 2017 4 14) (Some "") = Raise ValueError
  /\ parse_date (Date 2017 4 14) (Some "2147483647") = Raise ValueError
  /\ parse_date (Date 2017 4 14) (Some "2147483648") = Raise OverflowError
  /\ parse_date (Date 2017 4 14) (Some "2017-1-4294967296")
     = Raise OverflowError.
Proof. vm_compute. repeat split. Qed.

(** *** Sorting by [(version, name)] *)

Lemma ver_compare_spec (a1 b1 c1 a2 b2 c2 : Z) :
  match ver_compare (a1, b1, c1) (a2, b2, c2) with
  | Eq => a1 = a2 /\ b1 = b2 /\ c1 = c2
  | Lt => a1 < a2 \/ (a1 = a2 /\ (b1 < b2 \/ (b1 = b2 /\ c1 < c2)))
  | Gt => a2 < a1 \/ (a1 = a2 /\ (b2 < b1 \/ (b1 = b2 /\ c2 < c1)))
  end.
Proof.
  unfold ver_compare, lex.
  destruct (Z.compare_spec a1 a2), (Z.compare_spec b1 b2),
    (Z.compare_spec c1 c2); subst; auto; lia.
Qed.

(** [ver_le] is the order of the tuples: component by component. *)
Lemma ver_le_spec (a1 b1 c1 a2 b2 c2 : Z) :
  ver_le (a1, b1, c1) (a2, b2, c2) <->
  a1 < a2 \/ (a1 = a2 /\ (b1 < b2 \/ (b1 = b2 /\ c1 <= c2))).
Proof.
  unfold ver_le. pose proof (ver_compare_spec a1 b1 c1 a2 b2 c2) as H.
  destruct (ver_compare _ _); split; intros; try done; lia.
Qed.

(** [key_le] is the order of the keys [(version, name)]: the versions
    first, the names (as strings) when the versions are equal. *)
Lemma key_le_spec (d1 d2 : string) (v1 v2 : semver) :
  key_le (d1, v1) (d2, v2) <->
  (ver_le v1 v2 /\ v1 <> v2) \/ (v1 = v2 /\ String.le d1 d2).
Proof.
  unfold key_le, key_leb, key_compare, ver_le, String.le, String.leb, lex.
  simpl. destruct v1 as [[a1 b1] c1], v2 as [[a2 b2] c2].
  pose proof (ver_compare_spec a1 b1 c1 a2 b2 c2) as H.
  destruct (ver_compare _ _) eqn:E.
  - destruct H as (-> & -> & ->).
    destruct (String.compare d1 d2); simpl;
      (split; [intros ?; by right | intros [[_ ?]|[_ ?]]; done]).
  - simpl. split; [intros _; left; split; [done|intros [= -> -> ->]; lia]|done].
  - simpl. split; [done|]. intros [[? _]|[[= -> -> ->] _]]; [done | lia].
Qed.

Lemma key_le_ver_le (x y : string * semver) : key_le x y -> ver_le x.2 y.2.
Proof.
  destruct x as [d1 v1], y as [d2 v2]. rewrite key_le_spec. simpl.
  intros [[? _]|[-> _]]; [done|].
  destruct v2 as [[a b] c]. apply ver_le_spec. lia.
Qed.

#[global] Instance ver_le_trans : Transitive ver_le.
Proof.
  intros [[a1 b1] c1] [[a2 b2] c2] [[a3 b3] c3].
  rewrite !ver_le_spec. lia.
Qed.

Lemma ver_le_antisym (v1 v2 : semver) : ver_le v1 v2 -> ver_le v2 v1 -> v1 = v2.
Proof.
  destruct v1 as [[a1 b1] c1], v2 as [[a2 b2] c2]. rewrite !ver_le_spec.
  intros H1 H2. assert (a1 = a2 /\ b1 = b2 /\ c1 = c2) as (-> & -> & ->) by lia.
  done.
Qed.

Lemma ver_le_total (v1 v2 : semver) : ver_le v1 v2 \/ ver_le v2 v1.
Proof.
  destruct v1 as [[a1 b1] c1], v2 as [[a2 b2] c2]. rewrite !ver_le_spec. lia.
Qed.

#[global] Instance key_le_trans : Transitive key_le.
Proof.
  intros [d1 v1] [d2 v2] [d3 v3]. rewrite !key_le_spec.
  intros [[H1 N1]|[-> H1]] [[H2 N2]|[-> H2]].
  - left. split; [by etrans|]. intros ->. apply N1. by apply ver_le_antisym.
  - left. done.
  - left. done.
  - right. split; [done|]. by etrans.
Qed.

#[global] Instance key_le_total : Total key_le.
Proof.
  intros [d1 v1] [d2 v2]. rewrite !key_le_spec.
  destruct (decide (v1 = v2)) as [->|Hne].
  - destruct (total String.le d1 d2); [left | right]; by right.
  - destruct (ver_le_total v1 v2); [left | right]; left; split; congruence.
Qed.

#[global] Instance key_le_antisym : AntiSymm (=) key_le.
Proof.
  intros [d1 v1] [d2 v2]. rewrite !key_le_spec.
  intros [[H1 N1]|[-> H1]] [[H2 N2]|[E H2]]; try congruence.
  - exfalso. apply N1. by apply ver_le_antisym.
  - f_equal. by apply (anti_symm String.le).
Qed.

Lemma sorted_by_key_sorted (pkg_vers : list (string * semver)) :
  StronglySorted key_le (sorted_by_key pkg_vers).
Proof. apply StronglySorted_merge_sort; apply _. Qed.

Lemma sorted_by_key_perm (pkg_vers : list (string * semver)) :
  sorted_by_key pkg_vers ≡ₚ pkg_vers.
Proof. apply merge_sort_Permutation. Qed.

(** There is one sorted arrangement of the results, so every sorting
    procedure, that of Python included, returns [sorted_by_key]. *)
Lemma sorted_by_key_unique (pkg_vers l : list (string * semver)) :
  l ≡ₚ pkg_vers -> Sorted key_le l -> l = sorted_by_key pkg_vers.
Proof.
  intros Hp Hs. apply (Sorted_unique key_le); [done | | ].
  - apply Sorted_merge_sort; apply _.
  - by rewrite Hp, sorted_by_key_perm.
Qed.

(** C6. The collected results are sorted in ascending order of the key
    [(version, source name)]: the outcome is the formatted image of an
    arrangement of the input in which every element is below all later
    ones; on the input [("b","1.2.0"), ("a","1.2.0"), ("c","0.0.0")] it is
    [("c","0.0.0"), ("a","1.2.0"), ("b","1.2.0")]. *)
Theorem sort_and_format_ascending (pkg_vers : list (string * semver)) :
  sort_and_format pkg_vers
    = (fun dv => (dv.1, fmt_ver dv.2)) <$> sorted_by_key pkg_vers
  /\ sorted_by_key pkg_vers ≡ₚ pkg_vers
  /\ StronglySorted key_le (sorted_by_key pkg_vers)
  /\ sort_and_format [("b", (1, 2, 0)); ("a", (1, 2, 0)); ("c", (0, 0, 0))]
     = [("c", "0.0.0"); ("a", "1.2.0"); ("b", "1.2.0")].
Proof.
  split; [reflexivity|].
  split; [apply sorted_by_key_perm|].
  split; [apply sorted_by_key_sorted|].
  by vm_compute.
Qed.

(** *** The headline *)

Lemma fmt_d_zero_prefix (z : Z) (r r' : string) :
  fmt_d z +:+ String "." r = String "0" (String "." r') -> z = 0 /\ r = r'.
Proof.
  destruct z as [|p|p].
  - intros [= ->]. done.
  - destruct (fmt_d_numeric (Z.pos p)) as [Hn _]; [lia|].
    destruct (fmt_d (Z.pos p)) as [|c0 [|c1 t]] eqn:E; [done | | ].
    + str_simpl. intros [= -> ->].
      assert (Z.pos p = 0) by (apply (inj pretty); exact E). lia.
    + str_simpl. intros [= -> -> _].
      by apply andb_true_iff in Hn as [_ Hn].
  - unfold fmt_d, pretty, pretty_Z. str_simpl. discriminate.
Qed.

(** Only the sentinel is printed as ["0.0.0"]. *)
Lemma fmt_ver_sentinel (v : semver) : fmt_ver v = "0.0.0" <-> v = sentinel.
Proof.
  split; [|by intros ->].
  destruct v as [[a b] c]. unfold fmt_ver.
  rewrite !(app_cons "."), !app_nil_l.
  intros H. apply fmt_d_zero_prefix in H as [-> H].
  apply (fmt_d_zero_prefix b (fmt_d c) "0") in H as [-> H].
  assert (c = 0) as -> by (apply (inj pretty); exact H). done.
Qed.

Lemma filter_fmt_ver (vs : list semver) :
  filter (fun v => v <> "0.0.0") (fmt_ver <$> vs)
  = fmt_ver <$> filter (fun v => v <> sentinel) vs.
Proof.
  induction vs as [|v vs IH]; [done|].
  rewrite fmap_cons, !filter_cons, IH.
  destruct (decide (fmt_ver v <> "0.0.0")) as [H|H],
    (decide (v <> sentinel)) as [H'|H']; try done.
  - exfalso. apply H, fmt_ver_sentinel.
    destruct (decide (v = sentinel)); [done | by destruct H'].
  - exfalso. apply H', fmt_ver_sentinel.
    destruct (decide (fmt_ver v = "0.0.0")); [done | by destruct H].
Qed.

Lemma headline_unfold (pkg_vers : list (string * semver)) :
  headline (sort_and_format pkg_vers)
  = index0 ((fmt_ver <$> filter (fun v => v <> sentinel) (sorted_by_key pkg_vers).*2)
            ++ ["unknown"]).
Proof.
  unfold headline, sort_and_format.
  rewrite <- list_fmap_compose, <- filter_fmt_ver, <- list_fmap_compose.
  reflexivity.
Qed.

(** In a sorted list the first version that is not the sentinel is the
    lowest such version. *)
Lemma first_nonsentinel_lowest (l : list (string * semver)) :
  StronglySorted key_le l ->
  match filter (fun v => v <> sentinel) l.*2 with
  | [] => Forall (fun dv => dv.2 = sentinel) l
  | v0 :: _ =>
      v0 <> sentinel /\ (exists d0, (d0, v0) ∈ l)
      /\ forall dv, dv ∈ l -> dv.2 <> sentinel -> ver_le v0 dv.2
  end.
Proof.
  induction 1 as [|x l Hs IH Hx]; [by constructor|].
  rewrite fmap_cons, filter_cons.
  destruct (decide (x.2 <> sentinel)) as [Hne|Heq].
  - split; [done|]. split.
    + exists x.1. destruct x. left.
    + intros dv [->|Hin]%elem_of_cons _.
      * apply key_le_ver_le. destruct x. apply key_le_spec. by right.
      * apply key_le_ver_le. rewrite Forall_forall in Hx. by apply Hx.
  - assert (x.2 = sentinel) as Hx2 by (by destruct (decide (x.2 = sentinel))).
    destruct (filter _ l.*2) as [|v0 vs].
    + by constructor.
    + destruct IH as (Hv0 & [d0 Hd0] & Hlow). split; [done|]. split.
      * exists d0. by right.
      * intros dv [->|Hin]%elem_of_cons Hdv; [done | by apply Hlow].
Qed.

(** C5. In the default mode the line reported is the lowest version among
    the results that are not the sentinel [(0,0,0)], and ["unknown"] when
    every result is the sentinel. *)
Theorem headline_lowest (pkg_vers : list (string * semver)) :
  (Forall (fun dv => dv.2 = sentinel) pkg_vers ->
     headline (sort_and_format pkg_vers) = Ok "unknown")
  /\ (Exists (fun dv => dv.2 <> sentinel) pkg_vers ->
     exists d0 v0,
       (d0, v0) ∈ pkg_vers /\ v0 <> sentinel
       /\ (forall dv, dv ∈ pkg_vers -> dv.2 <> sentinel -> ver_le v0 dv.2)
       /\ headline (sort_and_format pkg_vers) = Ok (fmt_ver v0))
  /\ (pkg_vers <> [] ->
     exists line,
       headline (sort_and_format pkg_vers) = Ok line
       /\ main_report false pkg_vers = Ok (PrintLine line)).
Proof.
  pose proof (first_nonsentinel_lowest _ (sorted_by_key_sorted pkg_vers)) as Hf.
  pose proof (sorted_by_key_perm pkg_vers) as Hp.
  rewrite headline_unfold.
  assert (forall dv, dv ∈ sorted_by_key pkg_vers <-> dv ∈ pkg_vers) as Hmem.
  { intros dv. by rewrite Hp. }
  split; [|split].
  - intros Hall. destruct (filter _ _) as [|v0 vs]; [done|].
    destruct Hf as (Hv0 & [d0 Hd0] & _). apply Hmem in Hd0.
    rewrite Forall_forall in Hall. by specialize (Hall _ Hd0).
  - intros (dv & Hin & Hdv)%Exists_exists.
    destruct (filter _ _) as [|v0 vs].
    + rewrite Forall_forall in Hf. apply Hmem in Hin. by specialize (Hf _ Hin).
    + destruct Hf as (Hv0 & [d0 Hd0] & Hlow).
      exists d0, v0. split; [by apply Hmem|]. split; [done|]. split; [|done].
      intros dv' Hin'%Hmem. by apply Hlow.
  - intros Hne. unfold main_report.
    rewrite headline_unfold.
    assert (length (sort_and_format pkg_vers) <> 0%nat) as Hlen.
    { unfold sort_and_format. rewrite length_fmap, Hp. by destruct pkg_vers. }
    rewrite bool_decide_eq_false_2 by done.
    destruct (filter _ _) as [|v0 vs]; simpl; eauto.
Qed.

Lemma headline_lowest_witness :
  main_report false [("x", (0, 0, 0)); ("y", (1, 10, 0)); ("z", (1, 2, 3))]
    = Ok (PrintLine "1.2.3")
  /\ headline (sort_and_format [("x", (0, 0, 0))]) = Ok "unknown".
Proof.
  split.
  - destruct (headline_lowest [("x", (0, 0, 0)); ("y", (1, 10, 0)); ("z", (1, 2, 3))])
      as (_ & _ & H).
    destruct H as (line & Hl & Hm); [discriminate|].
    rewrite Hm. f_equal. f_equal.
    assert (Ok line = Ok "1.2.3") as [= ->]; [|reflexivity].
    rewrite <- Hl. vm_compute. reflexivity.
  - destruct (headline_lowest [("x", (0, 0, 0))]) as (H & _ & _).
    apply H. repeat constructor.
Defined.

(** *** The rolling-only resolver *)

Ltac unfold_prog :=
  unfold py_assert, urlopen, read_body, read_file, open_wb, write_file,
    try_except, mbind, prog_bind, bind, mret, prog_ret, ret, raise, lift,
    diverge, result_bind, result_ret, rbind in *.

Lemma nixos_last_etag_stored (E : env) (w : world) :
  nixos_last_etag E w = Some (Ok (stored_etag E (files w)), w).
Proof.
  unfold nixos_last_etag, stored_etag. unfold_prog.
  destruct (gettempdir E) as [d|]; [|done].
  destruct (files w !! etag_path d) as [bs|]; [|done].
  by destruct (utf8_decode E bs).
Qed.

Lemma nixos_payload_requests (E : env) (w : world) :
  exists r w', nixos_payload E w = Some (r, w')
    /\ requests w' = nixos_URL :: requests w.
Proof.
  unfold nixos_payload.
  unfold mbind at 1, prog_bind, bind. rewrite nixos_last_etag_stored.
  unfold_prog.
  destruct (http_open E nixos_URL) as [req|e]; [|by eexists _, _].
  destruct (bool_decide _), (gettempdir E) as [d|]; simpl;
    try destruct (files w !! bs_gz_path d);
    destruct (resp_body req); try destruct (resp_etag req);
    by eexists _, _.
Qed.

Lemma arg_eq_str_true (a : py_arg) (s : string) :
  arg_eq_str a s = true <-> a = ArgStr s.
Proof.
  destruct a; simpl; try (split; [discriminate | congruence]).
  rewrite String.eqb_eq. split; congruence.
Qed.

Lemma get_nixos_assertion_fails (E : env) (source : py_arg) (w : world) :
  source <> ArgStr ROLLING ->
  get_nixos E source w
  = Some (Raise (AssertionError "NixOS is a rolling-only release"), w).
Proof.
  intros Hne. unfold get_nixos.
  destruct (arg_eq_str source ROLLING) eqn:Ha.
  - by apply arg_eq_str_true in Ha.
  - reflexivity.
Qed.

Lemma get_nixos_rolling_fetches (E : env) (w : world) :
  exists r w', get_nixos E (ArgStr ROLLING) w = Some (r, w')
    /\ requests w' = nixos_URL :: requests w.
Proof.
  unfold get_nixos. simpl.
  destruct (nixos_payload_requests E w) as (r & w' & Hp & Hr).
  unfold py_assert, ret.
  unfold mbind at 1, prog_bind, bind at 1.
  unfold mbind at 1, prog_bind, bind at 1. rewrite Hp.
  destruct r as [bs|e]; [|eauto].
  unfold_prog.
  destruct (nix_rustc_name E bs) as [name|]; [|eauto].
  destruct (re_compile E _) as [re_ver|]; [|eauto].
  destruct (search_group1 re_ver name); eauto.
Qed.

(** C9. [get_nixos] accepts the rolling argument only: with [ROLLING] the
    assertion passes and the request is sent; with any other argument it
    raises the assertion failure and nothing has been fetched (the world is
    the one it started from). *)
Theorem get_nixos_rolling_only (E : env) (source : py_arg) (w : world) :
  (source = ArgStr ROLLING ->
     exists r w', get_nixos E source w = Some (r, w')
       /\ requests w' = nixos_URL :: requests w)
  /\ (source <> ArgStr ROLLING ->
     get_nixos E source w
     = Some (Raise (AssertionError "NixOS is a rolling-only release"), w)).
Proof.
  split.
  - intros ->. apply get_nixos_rolling_fetches.
  - apply get_nixos_assertion_fails.
Qed.

Lemma get_nixos_rolling_only_witness :
  get_nixos offline (ArgStr "16.09") empty_world
  = Some (Raise (AssertionError "NixOS is a rolling-only release"), empty_world).
Proof.
  destruct (get_nixos_rolling_only offline (ArgStr "16.09") empty_world)
    as [_ H].
  apply H. discriminate.
Defined.

(** *** The cache of [get_nixos] *)

Lemma etag_path_ne (d : string) : etag_path d <> bs_gz_path d.
Proof.
  unfold etag_path, bs_gz_path, path_join.
  destruct (_ || _); intros H.
  - by apply (inj (String.app d)) in H.
  - apply (inj (String.app d)) in H. by apply (inj (String.app "/")) in H.
Qed.

(** C7 (as amended). With a token [t] reported by the remote:
    when the stored token equals [t] and the cached payload can be read,
    the payload comes from the cache and no body is downloaded; when the
    stored token differs from [t], or there is none, or the cached payload
    cannot be read, the body is downloaded and both the token and the
    payload are written, replacing what was stored. *)
Theorem nixos_payload_conditional (E : env) (w : world) (d : string)
    (req : response) (t : string) :
  gettempdir E = Some d ->
  http_open E nixos_URL = Ok req ->
  resp_etag req = Some t ->
  (forall p,
     stored_etag E (files w) = Some t ->
     files w !! bs_gz_path d = Some p ->
     nixos_payload E w
     = Some (Ok p, World (files w) (nixos_URL :: requests w) (body_reads w)))
  /\ (forall b,
     resp_body req = Ok b ->
     stored_etag E (files w) <> Some t \/ files w !! bs_gz_path d = None ->
     let files' :=
       <[bs_gz_path d := b]> (<[etag_path d := utf8_encode E t]> (files w)) in
     nixos_payload E w
     = Some (Ok b, World files' (nixos_URL :: requests w)
                        (nixos_URL :: body_reads w))
     /\ files' !! etag_path d = Some (utf8_encode E t)
     /\ files' !! bs_gz_path d = Some b).
Proof.
  intros Htmp Hreq Htok. split.
  - intros p Hst Hp. unfold nixos_payload.
    unfold mbind at 1, prog_bind, bind. rewrite nixos_last_etag_stored.
    unfold_prog. rewrite Hreq, Htok, Hst, Htmp. simpl.
    rewrite bool_decide_eq_true_2 by done. simpl. by rewrite Hp.
  - intros b Hb Hmiss files'. split; [|split].
    + unfold nixos_payload.
      unfold mbind at 1, prog_bind, bind. rewrite nixos_last_etag_stored.
      unfold_prog. rewrite Hreq, Htok, Htmp. simpl.
      assert (forall fs, <[bs_gz_path d:=b]> (<[bs_gz_path d:=""]>
                (<[etag_path d:=utf8_encode E t]> (<[etag_path d:=""]> fs)))
              = <[bs_gz_path d:=b]> (<[etag_path d:=utf8_encode E t]> fs))
        as Hfs by (intros fs; by rewrite !insert_insert_eq).
      destruct Hmiss as [Hne|Hnone].
      * rewrite bool_decide_eq_false_2 by congruence.
        rewrite Hb. simpl. by rewrite Hfs.
      * destruct (bool_decide _); simpl; rewrite ?Hnone, Hb; simpl;
          by rewrite Hfs.
    + unfold files'. rewrite lookup_insert_ne by (symmetry; apply etag_path_ne).
      apply lookup_insert_eq.
    + apply lookup_insert_eq.
Qed.

Lemma nixos_payload_conditional_witness :
  nixos_payload (nix_remote (Some "abc") "P2") cached_world
  = Some (Ok "P1", World (files cached_world) [nixos_URL] [])
  /\ exists fs,
       nixos_payload (nix_remote (Some "def") "P2") cached_world
       = Some (Ok "P2", World fs [nixos_URL] [nixos_URL])
       /\ fs !! etag_path "/tmp" = Some "def"
       /\ fs !! bs_gz_path "/tmp" = Some "P2".
Proof.
  split.
  - destruct (nixos_payload_conditional (nix_remote (Some "abc") "P2")
                cached_world "/tmp" (Response (Some "abc") (Ok "P2")) "abc")
      as [Hhit _]; [reflexivity | reflexivity | reflexivity |].
    apply Hhit; reflexivity.
  - destruct (nixos_payload_conditional (nix_remote (Some "def") "P2")
                cached_world "/tmp" (Response (Some "def") (Ok "P2")) "def")
      as [_ Hmiss]; [reflexivity | reflexivity | reflexivity |].
    destruct (Hmiss "P2") as (H1 & H2 & H3);
      [reflexivity | left; vm_compute; discriminate |].
    eexists. split; [exact H1 | split; [exact H2 | exact H3]].
Defined.

(** C7, as stated, fails: the stored token equals the token of the remote,
    yet the body is downloaded, because the payload file is not there. *)
Lemma nixos_token_equal_payload_gone :
  stored_etag (nix_remote (Some "abc") "P2") (files token_only_world)
  = Some "abc"
  /\ nixos_payload (nix_remote (Some "abc") "P2") token_only_world
     = Some (Ok "P2", World (cache_files "abc" "P2") [nixos_URL] [nixos_URL]).
Proof. split; vm_compute; reflexivity. Qed.

(** The scenario of the specification: a first run stores ["abc"] and
    [P1]; a second run with the same token answers from [P1] without a
    second download; a run with token ["def"] downloads again and
    replaces both files. *)
Example nixos_cache_scenario :
  let u := nixos_URL in
  get_nixos (nix_remote (Some "abc") "P1") (ArgStr ROLLING) empty_world
  = Some (Ok (1, 16, 0), World (cache_files "abc" "P1") [u] [u])
  /\ get_nixos (nix_remote (Some "abc") "P2") (ArgStr ROLLING)
       (World (cache_files "abc" "P1") [u] [u])
     = Some (Ok (1, 16, 0), World (cache_files "abc" "P1") [u; u] [u])
  /\ get_nixos (nix_remote (Some "def") "P2") (ArgStr ROLLING)
       (World (cache_files "abc" "P1") [u; u] [u])
     = Some (Ok (1, 17, 0), World (cache_files "def" "P2") [u; u; u] [u; u]).
Proof. repeat split; vm_compute; reflexivity. Qed.

(** *** The failure boundary of the dispatch *)

Lemma parse_semver_sentinel : parse_semver "0.0.0" = Ok sentinel.
Proof. reflexivity. Qed.

Section boundary.
Context (E : env) (table : gmap string definition).
Implicit Types (fuel : nat) (distro : string) (arg : py_arg) (w : world).

(** [get_dispatch] on a name of the table: the dispatched call, with every
    exception turned into the sentinel. *)
Lemma get_dispatch_boundary fuel distro (defin : definition) arg w :
  table !! distro = Some defin ->
  get_dispatch (S fuel) E table distro arg w
  = match dispatch_body fuel E table distro defin arg w with
    | Some (Raise _, w') => Some (Ok sentinel, w')
    | other => other
    end.
Proof.
  intros Hd. simpl. rewrite Hd. unfold try_except, dispatch_body, lift.
  by destruct defin.
Qed.

(** A name that is not in the table: the lookup is outside the [try]. *)
Lemma get_dispatch_unknown fuel distro arg w :
  table !! distro = None ->
  get_dispatch (S fuel) E table distro arg w = Some (Raise (KeyError distro), w).
Proof. intros Hd. simpl. by rewrite Hd. Qed.

(** On a name of the table no exception leaves [get_dispatch]. *)
Lemma get_dispatch_no_raise fuel distro arg w w' (r : result semver) :
  is_Some (table !! distro) ->
  get_dispatch fuel E table distro arg w = Some (r, w') ->
  is_ok r = true.
Proof.
  intros [defin Hd] Hr. destruct fuel as [|fuel]; [discriminate|].
  rewrite (get_dispatch_boundary _ _ _ _ _ Hd) in Hr.
  destruct (dispatch_body _ _ _ _ _ _ _) as [[[v|e] w'']|]; by simplify_eq.
Qed.

End boundary.

(** C3 (as amended). A precondition violation of the rolling-only resolver
    does not leave the dispatch: the assertion failure is caught by the
    bare [except] and the result is the sentinel [(0,0,0)], in an unchanged
    world. *)
Theorem get_dispatch_catches_assertion (fuel : nat) (E : env)
    (table : gmap string definition) (distro : string) (arg : py_arg)
    (w : world) :
  table !! distro = Some (CustomResolver (get_nixos E)) ->
  arg <> ArgStr ROLLING ->
  get_nixos E arg w
    = Some (Raise (AssertionError "NixOS is a rolling-only release"), w)
  /\ get_dispatch (S fuel) E table distro arg w = Some (Ok sentinel, w).
Proof.
  intros Hd Harg.
  pose proof (get_nixos_assertion_fails E arg w Harg) as Hraise.
  split; [done|].
  rewrite (get_dispatch_boundary _ _ _ _ _ _ _ Hd). simpl. by rewrite Hraise.
Qed.

Lemma get_dispatch_catches_assertion_witness :
  get_dispatch 1 offline (DISTROS offline) "nixos" (ArgStr "16.09") empty_world
  = Some (Ok sentinel, empty_world).
Proof.
  apply (get_dispatch_catches_assertion 0 offline (DISTROS offline) "nixos"
           (ArgStr "16.09") empty_world); [reflexivity | discriminate].
Defined.

(** C3, as stated, fails: the non-rolling argument makes the resolver
    raise, and the dispatch returns a version all the same. *)
Lemma get_dispatch_nixos_jessie :
  get_nixos offline (ArgStr "16.09") empty_world
    = Some (Raise (AssertionError "NixOS is a rolling-only release"), empty_world)
  /\ get_dispatch 3 offline (DISTROS offline) "nixos" (ArgStr "16.09") empty_world
     = Some (Ok (0, 0, 0), empty_world).
Proof. split; vm_compute; reflexivity. Qed.

(** *** The generic scraper *)

Lemma get_scrape_fetch (fuel : nat) (E : env) (table : gmap string definition)
    (distro : string) (defin : gmap string string) (source : py_arg)
    (w w' : world) (regex : pattern) (text : string) :
  scrape_fetch fuel E table defin source w = Some (Ok (regex, text), w') ->
  get_scrape fuel E table distro defin source w
  = Some (version ← scrape_version (regex text); parse_semver version, w').
Proof.
  intros Hf. unfold get_scrape.
  unfold mbind at 1, prog_bind, bind. by rewrite Hf.
Qed.

(** C2 (as amended). Once the text has been extracted: when the pattern
    does not match, the scraper does not fail, it falls back to ["0.0.0"]
    and returns the sentinel; when the pattern matches, the group
    [version] is parsed, and an empty or absent group also falls back to
    ["0.0.0"]. *)
Theorem get_scrape_regex_outcome (fuel : nat) (E : env)
    (table : gmap string definition) (distro : string)
    (defin : gmap string string) (source : py_arg) (w w' : world)
    (regex : pattern) (text : string) :
  scrape_fetch fuel E table defin source w = Some (Ok (regex, text), w') ->
  (regex text = None ->
     get_scrape fuel E table distro defin source w = Some (Ok sentinel, w'))
  /\ (forall m v,
        regex text = Some m -> group_name m "version" = Ok (Some v) ->
        v <> "" ->
        get_scrape fuel E table distro defin source w
        = Some (parse_semver v, w'))
  /\ (forall m,
        regex text = Some m ->
        group_name m "version" = Ok None
        \/ group_name m "version" = Ok (Some "") ->
        get_scrape fuel E table distro defin source w = Some (Ok sentinel, w')).
Proof.
  intros Hf. rewrite (get_scrape_fetch _ _ _ distro _ _ _ _ _ _ Hf).
  split; [|split].
  - intros ->. reflexivity.
  - intros m v -> Hg Hv. unfold scrape_version.
    unfold mbind at 2, result_bind, rbind. rewrite Hg.
    destruct v as [|c v]; [done | reflexivity].
  - intros m -> [Hg|Hg]; unfold scrape_version;
      unfold mbind at 2, result_bind, rbind; rewrite Hg; reflexivity.
Qed.

Lemma get_scrape_regex_outcome_witness :
  get_scrape 1 page_match (DISTROS page_match) "debian" debian_rule
    (ArgStr "jessie") empty_world
  = Some (Ok (1, 14, 0),
          World ∅ ["https://packages.debian.org/jessie/rustc"]
                  ["https://packages.debian.org/jessie/rustc"]).
Proof.
  destruct (get_scrape_regex_outcome 1 page_match (DISTROS page_match)
              "debian" debian_rule (ArgStr "jessie") empty_world
              (World ∅ ["https://packages.debian.org/jessie/rustc"]
                       ["https://packages.debian.org/jessie/rustc"])
              (fun _ => Some (ReMatch [Some "rustc (1.14.0"; Some "1.14.0"]
                                      {[ "version" := 1%nat ]}))
              "Package: rustc (1.14.0+dfsg1-3)")
    as (_ & Hmatch & _); [vm_compute; reflexivity|].
  apply (Hmatch (ReMatch [Some "rustc (1.14.0"; Some "1.14.0"]
                         {[ "version" := 1%nat ]}) "1.14.0");
    [reflexivity | vm_compute; reflexivity | discriminate].
Defined.

(** C2, as stated, fails: the page is fetched, the pattern does not match
    the extracted text, and the scraper returns a version instead of
    failing. *)
Lemma get_scrape_no_match_returns :
  scrape_fetch 1 page_nomatch (DISTROS page_nomatch) debian_rule
    (ArgStr "jessie") empty_world
  = Some (Ok (fun _ => None, "Package: rustc"),
          World ∅ ["https://packages.debian.org/jessie/rustc"]
                  ["https://packages.debian.org/jessie/rustc"])
  /\ get_scrape 1 page_nomatch (DISTROS page_nomatch) "debian" debian_rule
       (ArgStr "jessie") empty_world
     = Some (Ok (0, 0, 0),
             World ∅ ["https://packages.debian.org/jessie/rustc"]
                     ["https://packages.debian.org/jessie/rustc"]).
Proof. split; vm_compute; reflexivity. Qed.

(** *** The chain of ['inherit'] links *)

Lemma inherit_step_parent (table : gmap string definition)
    (defin parent : gmap string string) (inherit : string) :
  table !! inherit = Some (ScrapeRule parent) ->
  inherit_step table defin inherit = Ok (delete "inherit" defin ∪ parent).
Proof. intros H. unfold inherit_step. by rewrite H. Qed.

(** The merge of one turn: the fields of the child win, the parent gives
    the others, and the link of the parent becomes the link to follow. *)
Lemma merge_lookup (defin parent : gmap string string) :
  (delete "inherit" defin ∪ parent) !! "inherit" = parent !! "inherit"
  /\ (forall k v, k <> "inherit" -> defin !! k = Some v ->
        (delete "inherit" defin ∪ parent) !! k = Some v)
  /\ (forall k, k <> "inherit" -> defin !! k = None ->
        (delete "inherit" defin ∪ parent) !! k = parent !! k).
Proof.
  split; [|split].
  - rewrite lookup_union_r; [done | apply lookup_delete_eq].
  - intros k v Hk Hv. apply lookup_union_Some_l.
    by rewrite lookup_delete_ne.
  - intros k Hk Hv. rewrite lookup_union_r; [done|].
    by rewrite lookup_delete_ne.
Qed.

Lemma chain_det (table : gmap string definition) (link : option string)
    (n m : nat) :
  chain table link n -> chain table link m -> n = m.
Proof.
  intros Hn. revert m. induction Hn as [|p parent n Hp _ IH]; intros m Hm.
  - by inversion Hm.
  - inversion Hm as [|p' parent' m' Hp' Hm']; subst.
    rewrite Hp in Hp'. injection Hp' as <-. f_equal. by apply IH.
Qed.

Lemma chain_names_sub (table : gmap string definition) (link : option string)
    (n : nat) (q : string) :
  chain table link n -> q ∈ chain_names n table link ->
  exists m, (1 <= m <= n)%nat /\ chain table (Some q) m.
Proof.
  induction 1 as [|p parent n Hp Hc IH]; simpl.
  - by intros ?%elem_of_nil.
  - rewrite Hp. intros [->|Hin]%elem_of_cons.
    + exists (S n). split; [lia | by econstructor].
    + destruct (IH Hin) as (m & ? & ?). exists m. split; [lia | done].
Qed.

Lemma chain_names_distinct (table : gmap string definition)
    (link : option string) (n : nat) :
  chain table link n ->
  length (chain_names n table link) = n
  /\ NoDup (chain_names n table link)
  /\ forall q, q ∈ chain_names n table link -> is_Some (table !! q).
Proof.
  induction 1 as [|p parent n Hp Hc (IHl & IHd & IHt)]; simpl.
  - split; [done|]. split; [constructor | by intros ? ?%elem_of_nil].
  - rewrite Hp. simpl. split; [by rewrite IHl|]. split.
    + constructor; [|done]. intros Hin.
      destruct (chain_names_sub _ _ _ _ Hc Hin) as (m & Hm & Hcm).
      assert (m = S n) by (eapply chain_det; [exact Hcm | by econstructor]).
      lia.
    + intros q [->|Hin]%elem_of_cons; [by eexists | by apply IHt].
Qed.

(** A chain that ends has no more links than the table has entries. *)
Lemma chain_bounded (table : gmap string definition) (link : option string)
    (n : nat) :
  chain table link n -> (n <= size table)%nat.
Proof.
  intros Hc. destruct (chain_names_distinct _ _ _ Hc) as (Hl & Hd & Ht).
  rewrite <- Hl, <- (size_list_to_set (C := gset string)) by done.
  rewrite <- (size_dom table). apply subseteq_size.
  intros q Hq%elem_of_list_to_set. by apply elem_of_dom, Ht.
Qed.

Lemma flat_lookup_here (steps : nat) (table : gmap string definition)
    (v : string) (link : option string) (key : string) :
  flat_lookup steps table (Some v) link key = Some v.
Proof. by destruct steps. Qed.

Lemma inherit_loop_chain (table : gmap string definition)
    (link : option string) (n : nat) :
  chain table link n ->
  forall (defin : gmap string string) (fuel : nat),
    defin !! "inherit" = link -> (n <= fuel)%nat ->
    exists d, inherit_loop fuel table defin = Some (Ok d)
      /\ d !! "inherit" = None
      /\ forall k, k <> "inherit" ->
           d !! k = flat_lookup n table (defin !! k) link k.
Proof.
  induction 1 as [|p parent n Hp Hc IH]; intros defin fuel Hl Hf.
  - exists defin. split; [destruct fuel; simpl; by rewrite Hl|].
    split; [done|]. intros k _. simpl. by destruct (defin !! k).
  - destruct fuel as [|fuel]; [lia|]. simpl inherit_loop. rewrite Hl.
    rewrite (inherit_step_parent _ _ _ _ Hp).
    destruct (merge_lookup defin parent) as (Hi & Hchild & Hparent).
    destruct (IH (delete "inherit" defin ∪ parent) fuel) as (d & Hd & Hn & Hk);
      [done | lia |].
    exists d. split; [done|]. split; [done|].
    intros k Hne. rewrite (Hk k Hne).
    destruct (defin !! k) as [v|] eqn:Hv.
    + rewrite (Hchild k v Hne Hv). by rewrite !flat_lookup_here.
    + rewrite (Hparent k Hne Hv). simpl. by rewrite Hp.
Qed.

(** The loop ends with a rule only along a chain that ends. *)
Lemma inherit_loop_ok_chain (table : gmap string definition) (fuel : nat)
    (defin d : gmap string string) :
  inherit_loop fuel table defin = Some (Ok d) ->
  exists n, (n <= fuel)%nat /\ chain table (defin !! "inherit") n.
Proof.
  revert defin. induction fuel as [|fuel IH]; intros defin; simpl.
  - destruct (defin !! "inherit") eqn:Hl; [done|].
    intros _. exists 0%nat. split; [done | constructor].
  - destruct (defin !! "inherit") as [p|] eqn:Hl.
    + unfold inherit_step.
      destruct (table !! p) as [[parent| |]|] eqn:Hp; try done.
      intros Hloop. destruct (IH _ Hloop) as (n & Hn & Hc).
      destruct (merge_lookup defin parent) as (Hi & _ & _).
      rewrite Hi in Hc. exists (S n). split; [lia | by econstructor].
    + intros _. exists 0%nat. split; [lia | constructor].
Qed.

(** A turn raises exactly the exception of the copy. *)
Lemma inherit_step_raise (table : gmap string definition)
    (defin : gmap string string) (name : string) (e : exn) :
  inherit_step table defin name = Raise e <-> copy_error table name = Some e.
Proof.
  unfold inherit_step, copy_error.
  destruct (table !! name) as [[parent| |]|]; split; intros H;
    by simplify_eq.
Qed.

(** The loop ends with an exception only where the links break. *)
Lemma inherit_loop_raise_broken (table : gmap string definition) (fuel : nat)
    (defin : gmap string string) (e : exn) :
  inherit_loop fuel table defin = Some (Raise e) ->
  exists n, (n < fuel)%nat /\ broken table (defin !! "inherit") n e.
Proof.
  revert defin. induction fuel as [|fuel IH]; intros defin; simpl.
  - by destruct (defin !! "inherit").
  - destruct (defin !! "inherit") as [p|] eqn:Hl; [|done].
    destruct (inherit_step table defin p) as [d|e'] eqn:Hs.
    + intros Hloop. destruct (IH _ Hloop) as (n & Hn & name & Hr & He).
      unfold inherit_step in Hs.
      destruct (table !! p) as [[parent| |]|] eqn:Hp; try done.
      injection Hs as <-.
      destruct (merge_lookup defin parent) as (Hi & _ & _).
      rewrite Hi in Hr. exists (S n). split; [lia|].
      exists name. split; [by econstructor | done].
    + intros [= ->]. exists 0%nat. split; [lia|].
      exists p. split; [constructor | by apply (inherit_step_raise _ defin)].
Qed.

(** Where the links lead is determined: of two names met, the later one
    is met from the earlier one. *)
Lemma reaches_from (table : gmap string definition) (link : option string)
    (i j : nat) (x y : string) :
  reaches table link i x -> reaches table link j y -> (i <= j)%nat ->
  reaches table (Some x) (j - i) y.
Proof.
  intros Hi. revert j. induction Hi as [x|p parent k x Hp _ IH]; intros j Hj Hle.
  - by rewrite Nat.sub_0_r.
  - inversion Hj as [|p' parent' k' y' Hp' Hk']; subst; [lia|].
    rewrite Hp in Hp'. injection Hp' as <-. apply IH; [done | lia].
Qed.

Lemma reaches_rule (table : gmap string definition) (x y : string) (k : nat) :
  reaches table (Some x) (S k) y -> copy_error table x = None.
Proof.
  inversion 1 as [|p parent k' y' Hp _]; subst.
  unfold copy_error. by rewrite Hp.
Qed.

Lemma reaches_chain (table : gmap string definition) (link : option string)
    (i n : nat) (name : string) :
  reaches table link i name -> chain table link n ->
  (i < n)%nat /\ chain table (Some name) (n - i).
Proof.
  intros Hi. revert n. induction Hi as [x|p parent k x Hp _ IH]; intros n Hn.
  - inversion Hn; subst. split; [lia|]. by rewrite Nat.sub_0_r.
  - inversion Hn as [|p' parent' n' Hp' Hn']; subst.
    rewrite Hp in Hp'. injection Hp' as <-.
    destruct (IH _ Hn') as [Hlt Hc]. split; [lia | done].
Qed.

Lemma broken_det (table : gmap string definition) (link : option string)
    (n m : nat) (e e' : exn) :
  broken table link n e -> broken table link m e' -> n = m /\ e = e'.
Proof.
  assert (forall i j x y, (i <= j)%nat ->
            reaches table link i x -> copy_error table x <> None ->
            reaches table link j y -> i = j /\ x = y) as Hle.
  { intros i j x y Hij Hx Hex Hy.
    pose proof (reaches_from _ _ _ _ _ _ Hx Hy Hij) as Hxy.
    destruct (j - i)%nat as [|k] eqn:Hk.
    - inversion Hxy; subst. split; [lia | done].
    - by apply reaches_rule in Hxy. }
  intros (x & Hx & Hex) (y & Hy & Hey).
  destruct (Nat.le_ge_cases n m) as [Hnm|Hnm].
  - destruct (Hle n m x y Hnm Hx) as [-> ->]; [congruence | done |].
    split; [done | congruence].
  - destruct (Hle m n y x Hnm Hy) as [-> ->]; [congruence | done |].
    split; [done | congruence].
Qed.

Lemma chain_not_broken (table : gmap string definition) (link : option string)
    (n m : nat) (e : exn) :
  chain table link n -> broken table link m e -> False.
Proof.
  intros Hc (x & Hx & Hex).
  destruct (reaches_chain _ _ _ _ _ Hx Hc) as [_ Hcx].
  inversion Hcx as [|p parent k Hp _]; subst.
  unfold copy_error in Hex. by rewrite Hp in Hex.
Qed.

Lemma cycle_not_chain (table : gmap string definition) (link : option string)
    (n : nat) :
  cycle table link -> chain table link n -> False.
Proof.
  intros (x & i & j & Hij & Hi & Hj) Hc.
  destruct (reaches_chain _ _ _ _ _ Hi Hc) as [Hin Hci].
  destruct (reaches_chain _ _ _ _ _ Hj Hc) as [Hjn Hcj].
  pose proof (chain_det _ _ _ _ Hci Hcj). lia.
Qed.

Lemma cycle_not_broken (table : gmap string definition) (link : option string)
    (n : nat) (e : exn) :
  cycle table link -> broken table link n e -> False.
Proof.
  intros (x & i & j & Hij & Hi & Hj) (y & Hy & Hey).
  assert (forall k, reaches table link k x -> (k <= n)%nat
                    /\ broken table (Some x) (n - k) e) as Hx.
  { intros k Hk. destruct (Nat.le_gt_cases k n) as [Hle|Hgt].
    - split; [done|]. exists y. split; [|done]. by eapply reaches_from.
    - exfalso. pose proof (reaches_from _ _ _ _ _ _ Hy Hk) as Hyx.
      destruct (k - n)%nat as [|d] eqn:Hd; [lia|].
      specialize (Hyx ltac:(lia)). apply reaches_rule in Hyx. congruence. }
  destruct (Hx i Hi) as [Hin Hbi]. destruct (Hx j Hj) as [Hjn Hbj].
  destruct (broken_det _ _ _ _ _ _ Hbi Hbj). lia.
Qed.

(** The loop does not end before the links do. *)
Lemma inherit_loop_early (table : gmap string definition)
    (defin : gmap string string) (fuel : nat) :
  (forall n, chain table (defin !! "inherit") n -> (fuel < n)%nat) ->
  (forall n e, broken table (defin !! "inherit") n e -> (fuel <= n)%nat) ->
  inherit_loop fuel table defin = None.
Proof.
  intros Hc Hb.
  destruct (inherit_loop fuel table defin) as [[d|e]|] eqn:Hl; [| |done].
  - destruct (inherit_loop_ok_chain _ _ _ _ Hl) as (n & Hn & Hcn).
    specialize (Hc n Hcn). lia.
  - destruct (inherit_loop_raise_broken _ _ _ _ Hl) as (n & Hn & Hbn).
    specialize (Hb n e Hbn). lia.
Qed.

Lemma inherit_loop_broken (table : gmap string definition)
    (link : option string) (n : nat) (name : string) :
  reaches table link n name ->
  forall (e : exn) (defin : gmap string string) (fuel : nat),
    copy_error table name = Some e ->
    defin !! "inherit" = link -> (n < fuel)%nat ->
    inherit_loop fuel table defin = Some (Raise e).
Proof.
  induction 1 as [x|p parent k x Hp _ IH]; intros e defin fuel He Hl Hf;
    (destruct fuel as [|fuel]; [lia|]); simpl; rewrite Hl.
  - apply (inherit_step_raise _ defin) in He. by rewrite He.
  - rewrite (inherit_step_parent _ _ _ _ Hp).
    apply (IH e); [done| |lia].
    by destruct (merge_lookup defin parent) as [-> _].
Qed.

(** Along links that neither end nor break within [k] steps, [k] names
    are met, each one an entry of the table. *)
Lemma chain_names_progress (table : gmap string definition) (k : nat)
    (link : option string) :
  (exists n, chain table link n)
  \/ (exists n e, broken table link n e)
  \/ (length (chain_names k table link) = k
      /\ forall i name, chain_names k table link !! i = Some name ->
           reaches table link i name /\ is_Some (table !! name)).
Proof.
  revert link. induction k as [|k IH]; intros link.
  - right; right. split; [by destruct link|].
    intros i name. by destruct link.
  - destruct link as [p|]; [|left; exists 0%nat; constructor].
    destruct (table !! p) as [[parent| |]|] eqn:Hp.
    + destruct (IH (parent !! "inherit"))
        as [[n Hn]|[(n & e & name & Hr & He)|[Hlen Hnames]]].
      * left. exists (S n). by econstructor.
      * right; left. exists (S n), e, name. split; [by econstructor | done].
      * right; right. simpl. rewrite Hp. simpl. split; [by rewrite Hlen|].
        intros [|i] name; simpl.
        -- intros [= <-]. split; [constructor | by eexists].
        -- intros Hi. destruct (Hnames _ _ Hi) as [Hr Ht].
           split; [by econstructor | done].
    + right; left. exists 0%nat, AttributeError, p.
      split; [constructor | unfold copy_error; by rewrite Hp].
    + right; left. exists 0%nat, AttributeError, p.
      split; [constructor | unfold copy_error; by rewrite Hp].
    + right; left. exists 0%nat, (KeyError p), p.
      split; [constructor | unfold copy_error; by rewrite Hp].
Qed.

(** A list with a repetition holds some name at two places. *)
Lemma repeated_name (l : list string) :
  ~ NoDup l ->
  exists i j x, (i < j)%nat /\ l !! i = Some x /\ l !! j = Some x.
Proof.
  induction l as [|x l IH]; intros Hnd; [destruct Hnd; constructor|].
  destruct (decide (x ∈ l)) as [Hin|Hin].
  - apply list_elem_of_lookup in Hin as [j Hj].
    exists 0%nat, (S j), x. split; [lia | done].
  - destruct IH as (i & j & y & Hij & Hi & Hj).
    { intros Hl. apply Hnd. by constructor. }
    exists (S i), (S j), y. split; [lia | done].
Qed.

(** Links that neither end nor break form a cycle. *)
Lemma links_trichotomy (table : gmap string definition)
    (link : option string) :
  (exists n, chain table link n)
  \/ (exists n e, broken table link n e)
  \/ cycle table link.
Proof.
  destruct (chain_names_progress table (S (size table)) link)
    as [H|[H|[Hlen Hnames]]]; [by left | by right; left |].
  right; right.
  set (l := chain_names (S (size table)) table link) in *.
  destruct (repeated_name l) as (i & j & x & Hij & Hi & Hj).
  - intros Hnd.
    assert (length l <= size (dom table))%nat; [|rewrite size_dom in *; lia].
    rewrite <- (size_list_to_set (C := gset string)) by done.
    apply subseteq_size.
    intros q [k Hq]%elem_of_list_to_set%list_elem_of_lookup.
    apply elem_of_dom. by destruct (Hnames _ _ Hq).
  - exists x, i, j. split; [done|].
    split; [by destruct (Hnames _ _ Hi) | by destruct (Hnames _ _ Hj)].
Qed.

(** C4 (as amended). The walk follows the ['inherit'] links, the fields
    of the child overriding those of the parent: each field of the outcome
    is the one of the nearest rule of the chain that has it.  The walk has
    no cap and no check for cycles; it takes one turn for each link.  It
    ends with a rule exactly along links that reach a rule without
    ['inherit'], after as many turns as there are links, which are no more
    than the table has entries, and not before.  It ends with the
    exception of the copy, [KeyError] or [AttributeError], exactly along
    links that reach a name with no entry or with an entry that is not a
    rule.  In the one remaining case, links that come back to a name
    already met, it never ends. *)
Theorem inherit_loop_follows_links (table : gmap string definition)
    (defin : gmap string string) :
  (forall n, chain table (defin !! "inherit") n ->
     (n <= size table)%nat
     /\ (forall fuel, (fuel < n)%nat -> inherit_loop fuel table defin = None)
     /\ forall fuel, (n <= fuel)%nat ->
          exists d, inherit_loop fuel table defin = Some (Ok d)
            /\ d !! "inherit" = None
            /\ forall k, k <> "inherit" ->
                 d !! k
                 = flat_lookup n table (defin !! k) (defin !! "inherit") k)
  /\ (forall n e, broken table (defin !! "inherit") n e ->
        (forall fuel, (fuel <= n)%nat -> inherit_loop fuel table defin = None)
        /\ forall fuel, (n < fuel)%nat ->
             inherit_loop fuel table defin = Some (Raise e))
  /\ (cycle table (defin !! "inherit") ->
        forall fuel, inherit_loop fuel table defin = None)
  /\ (forall fuel d, inherit_loop fuel table defin = Some (Ok d) ->
        exists n, (n <= fuel)%nat /\ chain table (defin !! "inherit") n)
  /\ (forall fuel e, inherit_loop fuel table defin = Some (Raise e) ->
        exists n, (n < fuel)%nat /\ broken table (defin !! "inherit") n e)
  /\ ((exists n, chain table (defin !! "inherit") n)
      \/ (exists n e, broken table (defin !! "inherit") n e)
      \/ cycle table (defin !! "inherit")).
Proof.
  split; [|split; [|split; [|split; [|split]]]].
  - intros n Hc. split; [by eapply chain_bounded|]. split.
    + intros fuel Hf. apply inherit_loop_early.
      * intros m Hm. rewrite (chain_det _ _ _ _ Hm Hc). done.
      * intros m e Hb. by destruct (chain_not_broken _ _ _ _ _ Hc Hb).
    + intros fuel Hf. by eapply inherit_loop_chain.
  - intros n e Hb. split.
    + intros fuel Hf. apply inherit_loop_early.
      * intros m Hm. by destruct (chain_not_broken _ _ _ _ _ Hm Hb).
      * intros m e' Hb'. destruct (broken_det _ _ _ _ _ _ Hb Hb') as [<- _].
        done.
    + intros fuel Hf. destruct Hb as (name & Hr & He).
      by eapply inherit_loop_broken.
  - intros Hcy fuel. apply inherit_loop_early.
    + intros m Hm. by destruct (cycle_not_chain _ _ _ Hcy Hm).
    + intros m e Hb. by destruct (cycle_not_broken _ _ _ _ Hcy Hb).
  - intros fuel d. apply inherit_loop_ok_chain.
  - intros fuel e. apply inherit_loop_raise_broken.
  - apply links_trichotomy.
Qed.

Lemma inherit_loop_follows_links_witness :
  (exists d, inherit_loop 1 (DISTROS offline) ubuntu_rule = Some (Ok d)
     /\ d !! "inherit" = None
     /\ d !! "url" = Some "http://packages.ubuntu.com/{release}/rustc"
     /\ d !! "xpath" = Some "//h1/text()")
  /\ inherit_loop 0 (DISTROS offline) ubuntu_rule = None.
Proof.
  destruct (inherit_loop_follows_links (DISTROS offline) ubuntu_rule)
    as (H & _).
  destruct (H 1%nat) as (_ & Hearly & Hend).
  - change (ubuntu_rule !! "inherit") with (Some "debian").
    apply (chain_link _ "debian" debian_rule 0); [reflexivity|].
    change (debian_rule !! "inherit") with (@None string). constructor.
  - split; [|apply Hearly; lia].
    destruct (Hend 1%nat) as (d & Hd & Hn & Hk); [lia|].
    exists d. split; [done|]. split; [done|].
    split; rewrite Hk by discriminate; vm_compute; reflexivity.
Defined.

Lemma cyclic_loop_diverges (fuel : nat) (defin : gmap string string) :
  defin !! "inherit" = Some "loop" ->
  inherit_loop fuel cyclic_table defin = None.
Proof.
  revert defin. induction fuel as [|fuel IH]; intros defin Hl; simpl.
  - by rewrite Hl.
  - rewrite Hl.
    rewrite (inherit_step_parent _ _ cyclic_rule) by apply lookup_singleton_eq.
    apply IH. by destruct (merge_lookup defin cyclic_rule) as [-> _].
Qed.

(** C4, as stated, fails: on a rule that inherits from itself the walk has
    not ended after as many turns as the table has entries, nor after any
    number of turns. *)
Lemma inherit_loop_cycle_never_ends :
  inherit_loop (size cyclic_table) cyclic_table cyclic_rule = None
  /\ ~ (exists fuel r, inherit_loop fuel cyclic_table cyclic_rule = Some r).
Proof.
  split.
  - by apply cyclic_loop_diverges.
  - intros (fuel & r & H). by rewrite cyclic_loop_diverges in H.
Qed.

(** The dispatch of such a rule does not return: no version, and no
    exception for the bare [except] to catch. *)
Lemma get_dispatch_cycle_diverges (fuel : nat) (E : env) (release : string)
    (w : world) :
  get_dispatch fuel E cyclic_table "loop" (ArgStr release) w = None.
Proof.
  destruct fuel as [|fuel]; [done|].
  rewrite (get_dispatch_boundary _ _ _ _ (ScrapeRule cyclic_rule))
    by apply lookup_singleton_eq.
  unfold dispatch_body, get_scrape, scrape_fetch.
  unfold mbind at 1, prog_bind, bind at 1.
  unfold mbind at 1, prog_bind, bind at 1.
  unfold mbind at 1, prog_bind, bind at 1. simpl.
  by rewrite cyclic_loop_diverges.
Qed.

(** *** More fuel changes nothing

    An outcome reached with some fuel is the outcome with any larger fuel:
    the bound is not observed by a run that ends. *)

Lemma inherit_loop_mono (table : gmap string definition) (fuel fuel' : nat)
    (defin : gmap string string) (r : result (gmap string string)) :
  inherit_loop fuel table defin = Some r -> (fuel <= fuel')%nat ->
  inherit_loop fuel' table defin = Some r.
Proof.
  revert fuel' defin. induction fuel as [|fuel IH]; intros fuel' defin.
  - simpl. destruct (defin !! "inherit") eqn:Hl; [done|].
    intros <- _. destruct fuel'; simpl; by rewrite Hl.
  - intros H Hf. destruct fuel' as [|fuel']; [lia|]. simpl in *.
    destruct (defin !! "inherit"); [|done].
    destruct (inherit_step table defin s); [|done].
    apply IH; [done | lia].
Qed.

Lemma get_scrape_mono (E : env) (table : gmap string definition)
    (fuel fuel' : nat) (distro : string) (defin : gmap string string)
    (source : py_arg) (w : world) (o : result semver * world) :
  get_scrape fuel E table distro defin source w = Some o ->
  (fuel <= fuel')%nat ->
  get_scrape fuel' E table distro defin source w = Some o.
Proof.
  intros H Hf. unfold get_scrape, scrape_fetch in *.
  unfold mbind at 1, prog_bind, bind at 1 in H.
  unfold mbind at 1, prog_bind, bind at 1 in H.
  unfold mbind at 1, prog_bind, bind at 1 in H.
  unfold mbind at 1, prog_bind, bind at 1.
  unfold mbind at 1, prog_bind, bind at 1.
  unfold mbind at 1, prog_bind, bind at 1.
  destruct (lift (source_dict source) w) as [[[src|e] w1]|]; [|done..].
  destruct (inherit_loop fuel table defin) as [r|] eqn:Hl; [|done].
  by rewrite (inherit_loop_mono _ _ _ _ _ Hl Hf).
Qed.

Lemma get_dispatch_mono (E : env) (table : gmap string definition)
    (fuel fuel' : nat) (distro : string) (arg : py_arg) (w : world)
    (o : result semver * world) :
  get_dispatch fuel E table distro arg w = Some o ->
  (fuel <= fuel')%nat ->
  get_dispatch fuel' E table distro arg w = Some o.
Proof.
  revert fuel' distro w o.
  induction fuel as [|fuel IH]; intros fuel' distro w o; [done|].
  intros H Hf. destruct fuel' as [|fuel']; [lia|]. simpl in *.
  destruct (table !! distro) as [[d|target|f]|]; [| |done..].
  - unfold try_except in *.
    destruct (get_scrape fuel E table distro d arg w) as [o'|] eqn:Hs; [|done].
    by rewrite (get_scrape_mono _ _ _ fuel' _ _ _ _ _ Hs) by lia.
  - unfold try_except in *.
    destruct (get_dispatch fuel E table target arg w) as [o'|] eqn:Hs; [|done].
    by rewrite (IH fuel' _ _ _ Hs) by lia.
Qed.

(** *** Every path of the dispatch ends *)

Section halting.
Context {A B : Type}.

Lemma halts_ret (a : A) : halts (ret a).
Proof. intros w. by eexists. Qed.

Lemma halts_raise (e : exn) : halts (raise (A := A) e).
Proof. intros w. by eexists. Qed.

Lemma halts_lift (r : result A) : halts (lift r).
Proof. intros w. by eexists. Qed.

Lemma halts_bind (m : prog A) (k : A -> prog B) :
  halts m -> (forall a, halts (k a)) -> halts (m ≫= k).
Proof.
  intros Hm Hk w. unfold mbind, prog_bind, bind.
  destruct (Hm w) as [[[a|e] w'] ->]; [apply Hk | by eexists].
Qed.

Lemma halts_try (m : prog A) (h : exn -> prog A) :
  halts m -> (forall e, halts (h e)) -> halts (try_except m h).
Proof.
  intros Hm Hh w. unfold try_except.
  destruct (Hm w) as [[[a|e] w'] ->]; [by eexists | apply Hh].
Qed.
End halting.

Lemma halts_urlopen (E : env) (url : string) : halts (urlopen E url).
Proof. intros w. by eexists. Qed.

Lemma halts_read_body (url : string) (resp : response) :
  halts (read_body url resp).
Proof. intros w. by eexists. Qed.

Lemma halts_read_file (path : string) : halts (read_file path).
Proof. intros w. unfold read_file. destruct (_ !! _); by eexists. Qed.

Lemma halts_open_wb (path : string) : halts (open_wb path).
Proof. intros w. by eexists. Qed.

Lemma halts_write_file (path bs : string) : halts (write_file path bs).
Proof. intros w. by eexists. Qed.

Lemma halts_py_assert (cond : bool) (msg : string) : halts (py_assert cond msg).
Proof. intros w. unfold py_assert. destruct cond; by eexists. Qed.

Ltac halts_step :=
  match goal with
  | |- halts (mbind _ _) => apply halts_bind; [|intros ?]
  | |- halts (mret _) => apply halts_ret
  | |- halts (ret _) => apply halts_ret
  | |- halts (raise _) => apply halts_raise
  | |- halts (lift _) => apply halts_lift
  | |- halts (urlopen _ _) => apply halts_urlopen
  | |- halts (read_body _ _) => apply halts_read_body
  | |- halts (read_file _) => apply halts_read_file
  | |- halts (open_wb _) => apply halts_open_wb
  | |- halts (write_file _ _) => apply halts_write_file
  | |- halts (py_assert _ _) => apply halts_py_assert
  | |- halts (try_except _ _) => apply halts_try; [|intros ?]
  | |- halts (match ?x with _ => _ end) => destruct x
  end.

Ltac halts_auto := cbv zeta; repeat halts_step.

Lemma halts_get_fedora (E : env) (source : py_arg) : halts (get_fedora E source).
Proof. unfold get_fedora. halts_auto. Qed.

Lemma halts_get_freebsd (E : env) (source : py_arg) : halts (get_freebsd E source).
Proof. unfold get_freebsd. halts_auto. Qed.

Lemma halts_get_openbsd (E : env) (source : py_arg) : halts (get_openbsd E source).
Proof. unfold get_openbsd. halts_auto. Qed.

Lemma halts_get_nixos (E : env) (source : py_arg) : halts (get_nixos E source).
Proof. unfold get_nixos, nixos_payload, nixos_last_etag. halts_auto. Qed.

(** The generic scraper ends when the chain of links of its rule does. *)
Lemma halts_get_scrape (fuel : nat) (E : env) (table : gmap string definition)
    (distro : string) (defin : gmap string string) (source : py_arg) (n : nat) :
  chain table (defin !! "inherit") n -> (n <= fuel)%nat ->
  halts (get_scrape fuel E table distro defin source).
Proof.
  intros Hc Hf. unfold get_scrape, scrape_fetch.
  destruct (inherit_loop_chain _ _ _ Hc defin fuel) as (d & Hd & _); [done..|].
  rewrite Hd.
  apply halts_bind; [|intros [regex text]; halts_auto].
  apply halts_bind; [halts_auto|intros src].
  apply halts_bind; [intros w; by eexists|intros d'].
  halts_auto.
Qed.

(** The entries of [DISTROS], by kind: a rule whose chain of links ends
    after one link at most, a resolver that ends, or the name of such an
    entry. *)
Lemma DISTROS_entry (E : env) (distro : string) (defin : definition) :
  DISTROS E !! distro = Some defin ->
  (exists d n, defin = ScrapeRule d /\ (n <= 1)%nat
     /\ chain (DISTROS E) (d !! "inherit") n)
  \/ (exists f, defin = CustomResolver f /\ forall a, halts (f a))
  \/ (exists target d n, defin = Alias target
        /\ DISTROS E !! target = Some (ScrapeRule d) /\ (n <= 1)%nat
        /\ chain (DISTROS E) (d !! "inherit") n)
  \/ (exists target f, defin = Alias target
        /\ DISTROS E !! target = Some (CustomResolver f)
        /\ forall a, halts (f a)).
Proof.
  intros H. apply elem_of_list_to_map_2 in H.
  assert (forall d : gmap string string,
    d !! "inherit" = None -> chain (DISTROS E) (d !! "inherit") 0) as Hend.
  { intros d ->. constructor. }
  assert (chain (DISTROS E) (ubuntu_rule !! "inherit") 1) as Hubuntu.
  { change (ubuntu_rule !! "inherit") with (Some "debian").
    apply (chain_link _ "debian" debian_rule 0); [reflexivity|].
    by apply Hend. }
  repeat (apply elem_of_cons in H as [H|H]); try (by apply elem_of_nil in H);
    injection H as -> ->.
  - left. eexists _, 0%nat. split; [done|]. split; [lia | by apply Hend].
  - left. eexists _, 0%nat. split; [done|]. split; [lia | by apply Hend].
  - right; right; left. exists "debian", debian_rule, 0%nat.
    split; [done|]. split; [reflexivity|]. split; [lia | by apply Hend].
  - right; right; left. exists "debian", debian_rule, 0%nat.
    split; [done|]. split; [reflexivity|]. split; [lia | by apply Hend].
  - right; left. eexists. split; [done | apply halts_get_fedora].
  - right; right; right. exists "fedora", (get_fedora E).
    split; [done|]. split; [reflexivity | apply halts_get_fedora].
  - right; left. eexists. split; [done | apply halts_get_freebsd].
  - right; right; right. exists "freebsd", (get_freebsd E).
    split; [done|]. split; [reflexivity | apply halts_get_freebsd].
  - right; left. eexists. split; [done | apply halts_get_nixos].
  - right; left. eexists. split; [done | apply halts_get_openbsd].
  - right; right; right. exists "openbsd", (get_openbsd E).
    split; [done|]. split; [reflexivity | apply halts_get_openbsd].
  - left. eexists _, 0%nat. split; [done|]. split; [lia | by apply Hend].
  - left. exists ubuntu_rule, 1%nat. split; [done|]. split; [lia | done].
  - right; right; left. exists "ubuntu", ubuntu_rule, 1%nat.
    split; [done|]. split; [reflexivity|]. split; [lia | done].
Qed.

Lemma get_dispatch_halts_rule (fuel : nat) (E : env)
    (table : gmap string definition) (distro : string)
    (d : gmap string string) (n : nat) (arg : py_arg) (w : world) :
  table !! distro = Some (ScrapeRule d) ->
  chain table (d !! "inherit") n -> (n <= fuel)%nat ->
  exists v w', get_dispatch (S fuel) E table distro arg w = Some (Ok v, w').
Proof.
  intros Hd Hc Hf. rewrite (get_dispatch_boundary _ _ _ _ _ _ _ Hd). simpl.
  destruct (halts_get_scrape fuel E table distro d arg n Hc Hf w)
    as [[[v|e] w'] ->]; by eexists _, _.
Qed.

Lemma get_dispatch_halts_custom (fuel : nat) (E : env)
    (table : gmap string definition) (distro : string)
    (f : py_arg -> prog semver) (arg : py_arg) (w : world) :
  table !! distro = Some (CustomResolver f) -> halts (f arg) ->
  exists v w', get_dispatch (S fuel) E table distro arg w = Some (Ok v, w').
Proof.
  intros Hd Hh. rewrite (get_dispatch_boundary _ _ _ _ _ _ _ Hd). simpl.
  destruct (Hh w) as [[[v|e] w'] ->]; by eexists _, _.
Qed.

Lemma get_dispatch_halts_alias (fuel : nat) (E : env)
    (table : gmap string definition) (distro target : string)
    (arg : py_arg) (w : world) :
  table !! distro = Some (Alias target) ->
  (exists v w', get_dispatch fuel E table target arg w = Some (Ok v, w')) ->
  exists v w', get_dispatch (S fuel) E table distro arg w = Some (Ok v, w').
Proof.
  intros Hd (v & w' & Ht). rewrite (get_dispatch_boundary _ _ _ _ _ _ _ Hd).
  simpl. rewrite Ht. by eexists _, _.
Qed.

(** C1 (as amended). For every name of the table [DISTROS], every argument
    and every behaviour of the network and of the libraries, the dispatch
    returns a version and raises nothing; when the dispatched call raises,
    the version returned is the sentinel [(0,0,0)]. *)
Theorem get_dispatch_returns_version (E : env) (distro : string)
    (defin : definition) (arg : py_arg) (w : world) (fuel : nat) :
  DISTROS E !! distro = Some defin ->
  (2 <= fuel)%nat ->
  (exists v w', get_dispatch (S fuel) E (DISTROS E) distro arg w = Some (Ok v, w'))
  /\ (forall e w',
        dispatch_body fuel E (DISTROS E) distro defin arg w = Some (Raise e, w') ->
        get_dispatch (S fuel) E (DISTROS E) distro arg w = Some (Ok sentinel, w')).
Proof.
  intros Hd Hf. split.
  - destruct (DISTROS_entry E distro defin Hd)
      as [(d & n & -> & Hn & Hc)|[(f & -> & Hh)|[(t & d & n & -> & Ht & Hn & Hc)
          |(t & f & -> & Ht & Hh)]]].
    + eapply get_dispatch_halts_rule; [done | done | lia].
    + by eapply get_dispatch_halts_custom.
    + eapply get_dispatch_halts_alias; [done|].
      destruct fuel as [|fuel]; [lia|].
      eapply get_dispatch_halts_rule; [done | done | lia].
    + eapply get_dispatch_halts_alias; [done|].
      destruct fuel as [|fuel]; [lia|].
      by eapply get_dispatch_halts_custom.
  - intros e w' He. rewrite (get_dispatch_boundary _ _ _ _ _ _ _ Hd).
    by rewrite He.
Qed.

Lemma get_dispatch_returns_version_witness :
  get_dispatch 3 offline (DISTROS offline) "debian" (ArgStr "jessie")
    empty_world
  = Some (Ok sentinel, World ∅ ["https://packages.debian.org/jessie/rustc"] []).
Proof.
  destruct (get_dispatch_returns_version offline "debian"
              (ScrapeRule debian_rule) (ArgStr "jessie") empty_world 2)
    as [_ H]; [reflexivity | lia |].
  apply (H (LibraryError "URLError")). vm_compute. reflexivity.
Defined.

(** C1, as stated, fails: for a name that has no entry in the table the
    lookup raises before the [try] is entered, and the [KeyError] leaves
    [get_dispatch]. *)
Lemma get_dispatch_unknown_name_raises :
  DISTROS offline !! "gentoo" = None
  /\ get_dispatch 3 offline (DISTROS offline) "gentoo" (ArgStr "1") empty_world
     = Some (Raise (KeyError "gentoo"), empty_world).
Proof. split; vm_compute; reflexivity. Qed.

(** An alias to a name that does not exist: the [KeyError] is raised inside
    the [try] of the outer call, and caught there. *)
Example get_dispatch_dangling_alias :
  get_dispatch 2 offline dangling_table "mint" (ArgStr "debbie") empty_world
  = Some (Ok (0, 0, 0), empty_world).
Proof. vm_compute. reflexivity. Qed.

(** A remote that sends no [etag] header while a token is stored: the body
    is downloaded, the token file is emptied by [open], and
    [cur_etag.encode] fails on [None]. *)
Example nixos_remote_without_token :
  nixos_payload (nix_remote None "P2") cached_world
  = Some (Raise AttributeError,
          World (cache_files "" "P1") [nixos_URL] [nixos_URL]).
Proof. vm_compute. reflexivity. Qed.

(** *** Examples of the primitives *)

Example parse_semver_examples :
  parse_semver "1.16.0" = Ok (1, 16, 0)
  /\ parse_semver "1.2.3-beta" = Ok (1, 2, 3)
  /\ parse_semver "1.2" = Raise AttributeError
  /\ parse_semver "v1.2.3" = Raise AttributeError
  /\ fmt_ver (1, 16, 0) = "1.16.0".
Proof. vm_compute. repeat split. Qed.

Example py_int_examples :
  py_int " +1_0 " = Ok 10 /\ py_int "1__0" = Raise ValueError
  /\ py_int "-7" = Ok (-7) /\ py_int "" = Raise ValueError
  /\ py_int "04" = Ok 4 /\ py_int "+ 1" = Raise ValueError
  /\ py_int (String "028" "1") = Raise ValueError
  /\ strip (String "028" "1") = "1".
Proof. vm_compute. repeat split. Qed.

Example fmt_0d_examples :
  fmt_0d 4 17 = "0017" /\ fmt_0d 2 4 = "04" /\ fmt_0d 4 (-5) = "-005"
  /\ fmt_0d 2 2017 = "2017".
Proof. vm_compute. repeat split. Qed.

Example split_strip_examples :
  split "-" "2017-4-9" = ["2017"; "4"; "9"] /\ split "-" "" = [""]
  /\ split "-" "a-" = ["a"; ""] /\ strip "  a b  " = "a b".
Proof. vm_compute. repeat split. Qed.

Example simple_format_examples :
  simple_format "https://packages.debian.org/{release}/rustc"
    {[ "release" := "jessie" ]}
  = Ok "https://packages.debian.org/jessie/rustc"
  /\ simple_format "https://packages.debian.org/{release}/rustc" ∅
     = Raise (KeyError "release").
Proof. vm_compute. repeat split. Qed.

(** * Further properties *)

(** ** The version normaliser, beyond the round trip *)

Lemma span_digits_spec (s d t : string) :
  span_digits s = (d, t) ->
  s = d +:+ t /\ all_digits d = true
  /\ match t with String c _ => is_digit c = false | EmptyString => True end.
Proof.
  revert d t. induction s as [|c s IH]; intros d t; simpl.
  - by intros [= <- <-].
  - destruct (is_digit c) eqn:Hc.
    + destruct (span_digits s) as [d' t'] eqn:Hs. intros [= <- <-].
      destruct (IH d' t' eq_refl) as (-> & Hd & Ht).
      rewrite app_cons. simpl. by rewrite Hc.
    + intros [= <- <-]. by rewrite app_nil_l.
Qed.

Lemma RE_VER_match_spec (s ma mi re : string) :
  RE_VER_match s = Some (ma, mi, re) ->
  numeric ma = true /\ numeric mi = true /\ numeric re = true.
Proof.
  unfold RE_VER_match.
  destruct (span_digits s) as [d1 t1] eqn:H1.
  destruct (span_digits_spec _ _ _ H1) as (_ & D1 & _).
  destruct d1 as [|a d1]; [done|]. destruct t1 as [|c1 t1]; [done|].
  destruct (Ascii.eqb_spec c1 ".") as [->|Hne];
    [|by destruct c1 as [[] [] [] [] [] [] [] []]].
  destruct (span_digits t1) as [d2 t2] eqn:H2.
  destruct (span_digits_spec _ _ _ H2) as (_ & D2 & _).
  destruct d2 as [|b d2]; [done|]. destruct t2 as [|c2 t2]; [done|].
  destruct (Ascii.eqb_spec c2 ".") as [->|Hne];
    [|by destruct c2 as [[] [] [] [] [] [] [] []]].
  destruct (span_digits t2) as [d3 t3] eqn:H3.
  destruct (span_digits_spec _ _ _ H3) as (_ & D3 & _).
  destruct d3 as [|c d3]; [done|].
  by intros [= <- <- <-].
Qed.

Lemma parse_semver_ok (s : string) (a b c : Z) :
  parse_semver s = Ok (a, b, c) -> 0 <= a /\ 0 <= b /\ 0 <= c.
Proof.
  unfold parse_semver.
  destruct (RE_VER_match s) as [[[ma mi] re]|] eqn:Hm; [|done].
  destruct (RE_VER_match_spec _ _ _ _ Hm) as (Na & Nb & Nc).
  rewrite !py_int_numeric by done. simpl. intros [= <- <- <-].
  repeat split; apply digits_val_ge;
    (by apply numeric_all_digits) || lia.
Qed.

Lemma parse_semver_fmt_suffix (ma mi re : Z) (rest : string) :
  0 <= ma -> 0 <= mi -> 0 <= re ->
  match rest with String c _ => is_digit c = false | EmptyString => True end ->
  parse_semver (fmt_ver (ma, mi, re) +:+ rest) = Ok (ma, mi, re).
Proof.
  intros Ha Hb Hc Hrest.
  destruct (fmt_d_numeric ma Ha) as [Na Va].
  destruct (fmt_d_numeric mi Hb) as [Nb Vb].
  destruct (fmt_d_numeric re Hc) as [Nc Vc].
  unfold parse_semver, fmt_ver, RE_VER_match.
  rewrite !append_assoc, !(app_cons "."), !app_nil_l.
  rewrite (span_digits_app (fmt_d ma)) by (by apply numeric_all_digits || done).
  destruct (fmt_d ma) as [|a sa] eqn:Ea; [done|].
  rewrite (span_digits_app (fmt_d mi)) by (by apply numeric_all_digits || done).
  destruct (fmt_d mi) as [|b sb] eqn:Eb; [done|].
  assert (span_digits (fmt_d re +:+ rest) = (fmt_d re, rest)) as ->.
  { destruct rest as [|c rest].
    - assert (fmt_d re +:+ "" = fmt_d re) as ->.
      { generalize (fmt_d re). intros s. induction s as [|x s IH];
          [done | by rewrite app_cons, IH]. }
      by apply span_digits_all, numeric_all_digits.
    - by apply span_digits_app; [apply numeric_all_digits|]. }
  destruct (fmt_d re) as [|c sc] eqn:Ec; [done|].
  rewrite !py_int_numeric by done. rewrite Va, Vb, Vc. reflexivity.
Qed.

(** X1. [parse_semver] has two outcomes only: a triple of non-negative
    integers, which formatting and parsing again gives back, or the
    [AttributeError] of [m.group] on a failed match. *)
Theorem parse_semver_outcome (s : string) :
  (exists a b c,
     parse_semver s = Ok (a, b, c) /\ 0 <= a /\ 0 <= b /\ 0 <= c
     /\ parse_semver (fmt_ver (a, b, c)) = Ok (a, b, c))
  \/ parse_semver s = Raise AttributeError.
Proof.
  destruct (parse_semver s) as [[[a b] c]|e] eqn:Hp.
  - left. exists a, b, c. destruct (parse_semver_ok _ _ _ _ Hp) as (Ha & Hb & Hc).
    repeat split; try done.
    pose proof (parse_semver_fmt_suffix a b c "" Ha Hb Hc I) as H.
    assert (forall s, s +:+ "" = s) as Hnil.
    { intros t. induction t as [|x t IH]; [done | by rewrite app_cons, IH]. }
    by rewrite Hnil in H.
  - right. unfold parse_semver in Hp.
    destruct (RE_VER_match s) as [[[ma mi] re]|] eqn:Hm; [|by injection Hp as <-].
    destruct (RE_VER_match_spec _ _ _ _ Hm) as (Na & Nb & Nc).
    by rewrite !py_int_numeric in Hp.
Qed.

(** X2. Whatever follows the third number is ignored, provided it does not
    begin with a digit: pre-release and build suffixes do not change the
    version read. *)
Theorem parse_semver_ignores_suffix (ma mi re : Z) (c : ascii) (rest : string) :
  0 <= ma -> 0 <= mi -> 0 <= re -> is_digit c = false ->
  parse_semver (fmt_ver (ma, mi, re) +:+ String c rest) = Ok (ma, mi, re).
Proof. intros. by apply parse_semver_fmt_suffix. Qed.

Lemma parse_semver_ignores_suffix_witness :
  parse_semver (fmt_ver (1, 14, 0) +:+ String "+" "dfsg1-3") = Ok (1, 14, 0).
Proof. apply (parse_semver_ignores_suffix 1 14 0 "+" "dfsg1-3"); (lia || reflexivity). Defined.

Lemma all_digits_no_char (c : ascii) (s : string) :
  is_digit c = false -> all_digits s = true -> has_char c s = false.
Proof.
  intros Hc. induction s as [|a s IH]; simpl; [done|].
  intros [Ha Hs]%andb_true_iff. rewrite (IH Hs), orb_false_r.
  destruct (Ascii.eqb_spec a c) as [->|]; [congruence | done].
Qed.

Lemma fmt_d_no_dot (z : Z) : has_char "." (fmt_d z) = false.
Proof.
  destruct (decide (0 <= z)) as [Hz|Hz].
  - destruct (fmt_d_numeric z Hz) as [Hn _].
    by apply all_digits_no_char, numeric_all_digits.
  - destruct z as [|p|p]; [lia | lia |].
    unfold fmt_d, pretty, pretty_Z. rewrite app_cons, app_nil_l. simpl.
    destruct (fmt_d_numeric (Z.pos p)) as [Hn _]; [lia|].
    by apply all_digits_no_char, numeric_all_digits.
Qed.

Lemma split_at_char (c : ascii) (s1 s2 r1 r2 : string) :
  has_char c s1 = false -> has_char c s2 = false ->
  s1 +:+ String c r1 = s2 +:+ String c r2 -> s1 = s2 /\ r1 = r2.
Proof.
  revert s2. induction s1 as [|a s1 IH]; intros [|b s2]; simpl;
    rewrite ?app_cons, ?app_nil_l.
  - intros _ _ [= E]. by subst.
  - intros _ [Hb _]%orb_false_iff [= E _]. subst.
    by rewrite Ascii.eqb_refl in Hb.
  - intros [Ha _]%orb_false_iff _ [= E _]. subst.
    by rewrite Ascii.eqb_refl in Ha.
  - intros [_ H1]%orb_false_iff [_ H2]%orb_false_iff [= E H]. subst.
    destruct (IH _ H1 H2 H) as [-> ->]. done.
Qed.

Lemma fmt_ver_inj (v1 v2 : semver) : fmt_ver v1 = fmt_ver v2 -> v1 = v2.
Proof.
  destruct v1 as [[a1 b1] c1], v2 as [[a2 b2] c2]. unfold fmt_ver.
  rewrite !(app_cons "."), !app_nil_l. intros H.
  apply split_at_char in H as [Ha H]; [|apply fmt_d_no_dot..].
  apply split_at_char in H as [Hb Hc]; [|apply fmt_d_no_dot..].
  apply (inj pretty) in Ha, Hb, Hc. by subst.
Qed.

(** X3. Distinct versions are printed differently, for all triples of
    integers: comparing formatted versions, as the headline does with
    ['0.0.0'], compares the versions. *)
Theorem fmt_ver_distinct (v1 v2 : semver) :
  v1 <> v2 -> fmt_ver v1 <> fmt_ver v2.
Proof. intros Hne H. by apply Hne, fmt_ver_inj. Qed.

Lemma fmt_ver_distinct_witness : fmt_ver (1, 10, 0) <> fmt_ver (1, 1, 0).
Proof. apply fmt_ver_distinct. discriminate. Defined.

(** ** The date normaliser, beyond partial dates *)

Lemma py_int_error (s : string) (e : exn) : py_int s = Raise e -> e = ValueError.
Proof.
  unfold py_int. destruct (rstrip _ _) as [|c r].
  - simpl. by intros [= <-].
  - destruct (match String c r with
              | String "-" r0 => (true, r0)
              | String "+" r0 => (false, r0)
              | _ => (false, String c r)
              end) as [neg body].
    destruct (int_digits false 0 body); [done | by intros [= <-]].
Qed.

Lemma mapM_py_int (l : list string) :
  (exists ns, mapM py_int l = Ok ns /\ length ns = length l)
  \/ mapM py_int l = Raise ValueError.
Proof.
  induction l as [|s l IH]; simpl.
  - left. by exists [].
  - destruct (py_int s) as [n|e] eqn:Hs.
    + destruct IH as [(ns & -> & Hlen) | ->]; [|by right].
      left. exists (n :: ns). simpl. by rewrite Hlen.
    + right. by rewrite (py_int_error _ _ Hs).
Qed.

Lemma mapM_py_int_each (l : list string) (ns : list Z) :
  mapM py_int l = Ok ns -> Forall2 (fun p n => py_int p = Ok n) l ns.
Proof.
  revert ns. induction l as [|s l IH]; intros ns; simpl.
  - intros [= <-]. constructor.
  - destruct (py_int s) as [n|e] eqn:Hs; [|done]. simpl.
    destruct (mapM py_int l) as [ns'|e]; [|done]. simpl.
    intros [= <-]. constructor; [done | by apply IH].
Qed.

Lemma datetime_date_ok (y m d : Z) (dt : date) :
  datetime_date y m d = Ok dt ->
  dt = Date y m d /\ 1 <= y <= 9999 /\ 1 <= m <= 12 /\ 1 <= d <= 31.
Proof.
  unfold datetime_date.
  destruct (negb _); [done|].
  destruct (_ && _) eqn:H; [|done]. intros [= <-].
  repeat (apply andb_true_iff in H as [H ?]).
  repeat match goal with
         | H : (_ <=? _) = true |- _ => apply Z.leb_le in H
         end.
  assert (days_in_month y m <= 31) by (unfold days_in_month; repeat case_match; lia).
  repeat split; lia.
Qed.

Lemma datetime_date_error (y m d : Z) (e : exn) :
  datetime_date y m d = Raise e ->
  e = ValueError
  \/ (e = OverflowError
      /\ (fits_c_int y = false \/ fits_c_int m = false
          \/ fits_c_int d = false)).
Proof.
  unfold datetime_date.
  destruct (fits_c_int y), (fits_c_int m), (fits_c_int d); simpl;
    try (intros [= <-]; right; split; [done|]; auto; fail).
  destruct (_ && _); [done|]. intros [= <-]. by left.
Qed.

Lemma valid_date_range (d : date) :
  valid_date d = true ->
  1 <= year d <= 9999 /\ 1 <= month d <= 12 /\ 1 <= day d <= 31.
Proof.
  unfold valid_date.
  destruct (datetime_date _ _ _) as [dt|] eqn:H; [|done]. intros _.
  by destruct (datetime_date_ok _ _ _ _ H) as (_ & ? & ? & ?).
Qed.

Lemma iso_date_shape (d : date) :
  valid_date d = true -> is_iso_date (iso_date d) = true.
Proof.
  intros (Hy & Hm & Hd)%valid_date_range. unfold iso_date.
  destruct (fmt_0d_width 4 (year d)) as [? ?]; [lia | lia |].
  destruct (fmt_0d_width 2 (month d)) as [? ?]; [lia | lia |].
  destruct (fmt_0d_width 2 (day d)) as [? ?]; [lia | lia |].
  by apply is_iso_date_parts.
Qed.

Lemma split_not_nil (c : ascii) (s : string) : split c s <> [].
Proof.
  destruct s as [|a s]; simpl; [done|].
  destruct (Ascii.eqb a c); [done|]. by destruct (split c s).
Qed.

(** What [parse_date] returns on a string: the date built and its text. *)
Lemma parse_date_ok (today : date) (s t : string) :
  parse_date today (Some s) = Ok t ->
  exists d, valid_date d = true /\ t = iso_date d.
Proof.
  unfold parse_date.
  destruct (mapM py_int _) as [ns|] eqn:Hm; [|done]. simpl.
  destruct (take 3 ns) as [|y [|m [|d [|? ?]]]]; try done.
  destruct (datetime_date y m d) as [dt|] eqn:Hd; [|done]. simpl.
  intros [= <-]. exists dt. split; [|done].
  destruct (datetime_date_ok _ _ _ _ Hd) as (-> & _). unfold valid_date.
  simpl. by rewrite Hd.
Qed.

(** X4. On any string [parse_date] has three outcomes only: a text of
    the form [YYYY-MM-DD]; the [ValueError] of [int] or of [datetime.date];
    or the [OverflowError] of [datetime.date], and then one of the first
    three components is a number that does not fit a C [int].  Without a
    string it returns the text of today's date. *)
Theorem parse_date_outcome (today : date) (s : string) :
  valid_date today = true ->
  ((exists t, parse_date today (Some s) = Ok t /\ is_iso_date t = true)
   \/ parse_date today (Some s) = Raise ValueError
   \/ (parse_date today (Some s) = Raise OverflowError
       /\ exists p n, p ∈ take 3 (split "-" s) /\ py_int p = Ok n
                      /\ fits_c_int n = false))
  /\ parse_date today None = Ok (iso_date today)
  /\ is_iso_date (iso_date today) = true.
Proof.
  intros Ht. split; [|split; [reflexivity | by apply iso_date_shape]].
  destruct (parse_date today (Some s)) as [t|e] eqn:Hp.
  - left. exists t. split; [done|].
    destruct (parse_date_ok _ _ _ Hp) as (d & Hd & ->). by apply iso_date_shape.
  - right. unfold parse_date in Hp.
    destruct (mapM py_int (take 3 (split "-" s) ++ ["01"; "01"]))
      as [ns|e'] eqn:Hns; simpl in Hp.
    + apply mapM_py_int_each in Hns.
      apply Forall2_app_inv_l in Hns as (ns3 & ones & H3 & H1 & ->).
      assert (ones = [1; 1]) as ->.
      { inversion H1 as [|? n1 ? ? Hn1 H1']; subst.
        inversion H1' as [|? n2 ? ? Hn2 H1'']; subst.
        inversion H1''; subst. vm_compute in Hn1, Hn2. congruence. }
      assert (forall n, n ∈ take 3 (ns3 ++ [1; 1]) -> fits_c_int n = false ->
                exists p, p ∈ take 3 (split "-" s) /\ py_int p = Ok n)
        as Hfrom.
      { intros n Hin Hn.
        apply elem_of_take in Hin as (i & Hi & _).
        apply lookup_app_Some in Hi as [Hi|[_ Hi]].
        - destruct (Forall2_lookup_r _ _ _ _ _ H3 Hi) as (p & Hp3 & Hpn).
          exists p. split; [by eapply list_elem_of_lookup_2 | done].
        - assert (n = 1) as ->; [|done].
          destruct (i - length ns3)%nat as [|[|?]]; by simplify_eq/=. }
      assert (length (take 3 (ns3 ++ [1; 1])) = 3%nat) as Hlen.
      { rewrite length_take, List.length_app, <- (Forall2_length _ _ _ H3).
        rewrite length_take. pose proof (split_not_nil "-" s).
        destruct (split "-" s); [done|]. cbn [length]. lia. }
      destruct (take 3 (ns3 ++ [1; 1])) as [|y [|m [|d [|? ?]]]] eqn:Ht3;
        try done.
      destruct (datetime_date y m d) as [dt|e'] eqn:Hd; [done|]. simpl in Hp.
      injection Hp as <-.
      destruct (datetime_date_error _ _ _ _ Hd) as [->|[-> Hfit]];
        [by left|].
      right. split; [done|].
      destruct Hfit as [Hn|[Hn|Hn]];
        [destruct (Hfrom y) as (p & ? & ?)
        |destruct (Hfrom m) as (p & ? & ?)
        |destruct (Hfrom d) as (p & ? & ?)]; try done;
        try (by eexists _, _); set_solver.
    + injection Hp as <-. left.
      destruct (mapM_py_int (take 3 (split "-" s) ++ ["01"; "01"]))
        as [(ns & Hns' & _)|Hns']; congruence.
Qed.

Lemma parse_date_outcome_witness :
  parse_date (Date 2017 4 14) None = Ok "2017-04-14".
Proof.
  destruct (parse_date_outcome (Date 2017 4 14) "") as (_ & H & _);
    [reflexivity | exact H].
Defined.

Lemma digits_val_zeros (k : nat) (s : string) :
  digits_val 0 (zeros k +:+ s) = digits_val 0 s.
Proof.
  induction k as [|k IH]; [done|].
  change (zeros (S k)) with (String "0" (zeros k)). rewrite app_cons.
  exact IH.
Qed.

(** ['%0<w>d'] on a number from 0 on is read back by [int]. *)
Lemma py_int_fmt_0d (w : nat) (n : Z) :
  0 <= n ->
  all_digits (fmt_0d w n) = true /\ py_int (fmt_0d w n) = Ok n.
Proof.
  intros Hn. destruct (fmt_d_numeric n Hn) as [Hnum Hval].
  unfold fmt_0d, fmt_d in *.
  replace (n <? 0) with false by (symmetry; apply Z.ltb_ge; lia).
  assert (all_digits (zeros (w - String.length (pretty n)) +:+ pretty n) = true)
    as Hall.
  { rewrite all_digits_app, all_digits_zeros. by apply numeric_all_digits. }
  split; [done|].
  rewrite py_int_numeric, digits_val_zeros; [by rewrite Hval|].
  destruct (zeros _) as [|z zs]; [by rewrite app_nil_l|].
  rewrite app_cons in *. done.
Qed.

Lemma parse_date_iso (today d : date) :
  valid_date d = true -> parse_date today (Some (iso_date d)) = Ok (iso_date d).
Proof.
  intros Hv. pose proof (valid_date_range d Hv) as (Hy & Hm & Hd).
  destruct (py_int_fmt_0d 4 (year d)) as [Ay Py]; [lia|].
  destruct (py_int_fmt_0d 2 (month d)) as [Am Pm]; [lia|].
  destruct (py_int_fmt_0d 2 (day d)) as [Ad Pd]; [lia|].
  unfold parse_date, iso_date.
  rewrite !split_digits_dash, split_digits by done. simpl.
  rewrite Py, Pm, Pd. simpl.
  unfold valid_date in Hv.
  destruct (datetime_date _ _ _) as [dt|] eqn:E; [|done].
  by destruct (datetime_date_ok _ _ _ _ E) as (-> & _).
Qed.

(** X5. Normalising is idempotent: the text [parse_date] returns is
    returned unchanged when given back to it, whatever the day. *)
Theorem parse_date_idempotent (today today' : date) (s t : string) :
  parse_date today (Some s) = Ok t -> parse_date today' (Some t) = Ok t.
Proof.
  intros (d & Hd & ->)%parse_date_ok. by apply parse_date_iso.
Qed.

Lemma parse_date_idempotent_witness :
  parse_date (Date 2018 1 1) (Some "2017-04-09") = Ok "2017-04-09".
Proof.
  apply (parse_date_idempotent (Date 2017 4 14) (Date 2018 1 1) "2017-4-9").
  reflexivity.
Defined.

Lemma split_app_sep (c : ascii) (s r : string) :
  split c (s +:+ String c r) = split c s ++ split c r.
Proof.
  induction s as [|a s IH]; rewrite ?app_cons, ?app_nil_l; simpl.
  - by rewrite Ascii.eqb_refl.
  - rewrite IH. destruct (Ascii.eqb a c); [done|].
    pose proof (split_not_nil c s). by destruct (split c s).
Qed.

(** X6. Only the first three dash-separated components count: what
    follows a third dash is dropped before anything is converted, so it
    may be anything. *)
Theorem parse_date_ignores_fourth (today : date) (s junk : string) :
  (3 <= length (split "-" s))%nat ->
  parse_date today (Some (s +:+ "-" +:+ junk)) = parse_date today (Some s).
Proof.
  intros Hl. unfold parse_date.
  rewrite (app_cons "-"), app_nil_l, split_app_sep.
  by rewrite take_app_le by lia.
Qed.

Lemma parse_date_ignores_fourth_witness :
  parse_date (Date 2017 4 14) (Some "2017-4-9-rc1")
  = parse_date (Date 2017 4 14) (Some "2017-4-9").
Proof.
  apply (parse_date_ignores_fourth (Date 2017 4 14) "2017-4-9" "rc1").
  vm_compute. lia.
Defined.

(** *** The order of the normalised dates *)

Lemma compare_app_eqlen (a b x y : string) :
  String.length a = String.length b ->
  String.compare (a +:+ x) (b +:+ y)
  = lex (String.compare a b) (String.compare x y).
Proof.
  revert b. induction a as [|c1 a IH]; intros [|c2 b]; try done.
  cbn [String.length]. intros [= Hl]. rewrite !app_cons.
  cbn [String.compare].
  destruct (Ascii.compare c1 c2); [by apply IH | done | done].
Qed.

Lemma digits_val_acc (s : string) (acc : Z) :
  digits_val acc s
  = acc * 10 ^ Z.of_nat (String.length s) + digits_val 0 s.
Proof.
  revert acc. induction s as [|c s IH]; intros acc.
  - simpl. lia.
  - cbn [digits_val String.length]. rewrite (IH (acc * 10 + digit_val c)).
    rewrite (IH (0 * 10 + digit_val c)).
    rewrite Nat2Z.inj_succ, Z.pow_succ_r by lia. lia.
Qed.

Lemma digit_val_range (c : ascii) : is_digit c = true -> 0 <= digit_val c <= 9.
Proof.
  unfold is_digit, digit_val. intros [H1 H2]%andb_true_iff.
  apply N.leb_le in H1. apply N.leb_le in H2. lia.
Qed.

Lemma digits_val_bound (s : string) :
  all_digits s = true ->
  0 <= digits_val 0 s < 10 ^ Z.of_nat (String.length s).
Proof.
  induction s as [|c s IH]; [simpl; lia|].
  cbn [all_digits]. intros [Hc Hs]%andb_true_iff.
  cbn [digits_val String.length]. rewrite digits_val_acc.
  rewrite Nat2Z.inj_succ, Z.pow_succ_r by lia.
  pose proof (digit_val_range c Hc). specialize (IH Hs). nia.
Qed.

(** Two runs of digits of the same length compare as their values. *)
Lemma digits_compare (a b : string) :
  String.length a = String.length b ->
  all_digits a = true -> all_digits b = true ->
  String.compare a b = (digits_val 0 a ?= digits_val 0 b).
Proof.
  revert b. induction a as [|c1 a IH]; intros [|c2 b]; try done.
  cbn [String.length all_digits]. intros [= Hl].
  intros [Hc1 Ha]%andb_true_iff [Hc2 Hb]%andb_true_iff.
  cbn [String.compare digits_val].
  rewrite (digits_val_acc a), (digits_val_acc b), <- Hl.
  pose proof (digits_val_bound a Ha) as Ba.
  pose proof (digits_val_bound b Hb) as Bb. rewrite <- Hl in Bb.
  pose proof (digit_val_range c1 Hc1). pose proof (digit_val_range c2 Hc2).
  set (P := 10 ^ Z.of_nat (String.length a)) in *.
  assert (Ascii.compare c1 c2 = (digit_val c1 ?= digit_val c2)) as ->.
  { unfold Ascii.compare, digit_val. rewrite <- N2Z.inj_compare.
    generalize (Z.of_N (N_of_ascii c1)) (Z.of_N (N_of_ascii c2)).
    intros p q.
    destruct (Z.compare_spec p q), (Z.compare_spec (p - 48) (q - 48));
      try done; lia. }
  destruct (Z.compare_spec (digit_val c1) (digit_val c2)) as [E|L|G].
  - rewrite (IH b Hl Ha Hb), E.
    symmetry. destruct (Z.compare_spec (digits_val 0 a) (digits_val 0 b));
      [apply Z.compare_eq_iff | apply Z.compare_lt_iff | apply Z.compare_gt_iff];
      lia.
  - symmetry. apply Z.compare_lt_iff. nia.
  - symmetry. apply Z.compare_gt_iff. nia.
Qed.

Lemma fmt_0d_value (w : nat) (n : Z) :
  0 <= n -> digits_val 0 (fmt_0d w n) = n.
Proof.
  intros Hn. destruct (fmt_d_numeric n Hn) as [_ Hval].
  unfold fmt_0d, fmt_d in *.
  replace (n <? 0) with false by (symmetry; apply Z.ltb_ge; lia).
  by rewrite digits_val_zeros.
Qed.

Lemma fmt_0d_compare (w : nat) (n1 n2 : Z) :
  (0 < w)%nat -> 0 <= n1 < 10 ^ Z.of_nat w -> 0 <= n2 < 10 ^ Z.of_nat w ->
  String.compare (fmt_0d w n1) (fmt_0d w n2) = (n1 ?= n2).
Proof.
  intros Hw H1 H2.
  destruct (fmt_0d_width w n1 Hw H1) as [L1 A1].
  destruct (fmt_0d_width w n2 Hw H2) as [L2 A2].
  rewrite digits_compare by (done || congruence).
  by rewrite !fmt_0d_value by lia.
Qed.

Lemma iso_date_compare (d1 d2 : date) :
  valid_date d1 = true -> valid_date d2 = true ->
  String.compare (iso_date d1) (iso_date d2) = date_compare d1 d2.
Proof.
  intros (Hy1 & Hm1 & Hd1)%valid_date_range (Hy2 & Hm2 & Hd2)%valid_date_range.
  unfold iso_date, date_compare.
  destruct (fmt_0d_width 4 (year d1)) as [Ly1 _]; [lia | lia |].
  destruct (fmt_0d_width 4 (year d2)) as [Ly2 _]; [lia | lia |].
  destruct (fmt_0d_width 2 (month d1)) as [Lm1 _]; [lia | lia |].
  destruct (fmt_0d_width 2 (month d2)) as [Lm2 _]; [lia | lia |].
  rewrite compare_app_eqlen by congruence.
  rewrite fmt_0d_compare by lia.
  rewrite (compare_app_eqlen "-" "-") by done.
  rewrite compare_app_eqlen by congruence.
  rewrite fmt_0d_compare by lia.
  rewrite (compare_app_eqlen "-" "-") by done.
  rewrite fmt_0d_compare by lia.
  reflexivity.
Qed.

(** X7. The normalised texts are ordered as the dates are: comparing two
    of them as strings, as [main] does to choose a profile, is comparing
    the dates in the calendar. *)
Theorem iso_date_order (d1 d2 : date) :
  valid_date d1 = true -> valid_date d2 = true ->
  String.compare (iso_date d1) (iso_date d2) = date_compare d1 d2.
Proof. apply iso_date_compare. Qed.

Lemma iso_date_order_witness :
  String.compare (iso_date (Date 2017 3 16)) (iso_date (Date 2017 4 14)) = Lt.
Proof.
  rewrite (iso_date_order (Date 2017 3 16) (Date 2017 4 14));
    reflexivity.
Defined.

(** ** The report does not depend on the order of collection *)

(** X8. The results may be collected in any order: two collections with
    the same results give the same sorted list and the same report. *)
Theorem main_report_order_independent (show_all : bool)
    (l1 l2 : list (string * semver)) :
  l1 ≡ₚ l2 ->
  sort_and_format l1 = sort_and_format l2
  /\ main_report show_all l1 = main_report show_all l2.
Proof.
  intros Hp.
  assert (sorted_by_key l1 = sorted_by_key l2) as Hs.
  { apply sorted_by_key_unique.
    - by rewrite sorted_by_key_perm.
    - apply Sorted_merge_sort; apply _. }
  unfold main_report, sort_and_format. by rewrite Hs.
Qed.

Lemma main_report_order_independent_witness :
  main_report false [("y", (1, 10, 0)); ("z", (1, 2, 3))]
  = main_report false [("z", (1, 2, 3)); ("y", (1, 10, 0))].
Proof.
  apply (main_report_order_independent false
           [("y", (1, 10, 0)); ("z", (1, 2, 3))]
           [("z", (1, 2, 3)); ("y", (1, 10, 0))]).
  apply perm_swap.
Defined.

(** ** What the resolvers touch *)

Section frame.
Context {A B : Type}.
Implicit Types (m : prog A) (k : A -> prog B).

Lemma keeps_files_lift (r : result A) : keeps_files (lift r).
Proof. by intros w r' w' [= _ <-]. Qed.

Lemma keeps_files_ret (a : A) : keeps_files (ret a).
Proof. by intros w r' w' [= _ <-]. Qed.

Lemma keeps_files_raise (e : exn) : keeps_files (raise (A := A) e).
Proof. by intros w r' w' [= _ <-]. Qed.

Lemma keeps_files_bind m k :
  keeps_files m -> (forall a, keeps_files (k a)) -> keeps_files (m ≫= k).
Proof.
  intros Hm Hk w r w'. unfold mbind, prog_bind, bind.
  destruct (m w) as [[[a|e] w1]|] eqn:E; [| |done].
  - intros H. rewrite (Hk a _ _ _ H). by eapply Hm.
  - intros [= <- <-]. by eapply Hm.
Qed.

Lemma keeps_files_try m (h : exn -> prog A) :
  keeps_files m -> (forall e, keeps_files (h e)) -> keeps_files (try_except m h).
Proof.
  intros Hm Hh w r w'. unfold try_except.
  destruct (m w) as [[[a|e] w1]|] eqn:E; [| |done].
  - intros [= <- <-]. by eapply Hm.
  - intros H. rewrite (Hh e _ _ _ H). by eapply Hm.
Qed.

Lemma world_blind_lift (r : result A) : world_blind (lift r).
Proof. by intros w1 w2. Qed.

Lemma world_blind_ret (a : A) : world_blind (ret a).
Proof. by intros w1 w2. Qed.

Lemma world_blind_raise (e : exn) : world_blind (raise (A := A) e).
Proof. by intros w1 w2. Qed.

Lemma world_blind_bind m k :
  world_blind m -> (forall a, world_blind (k a)) -> world_blind (m ≫= k).
Proof.
  intros Hm Hk w1 w2. unfold mbind, prog_bind, bind.
  specialize (Hm w1 w2).
  destruct (m w1) as [[[a|e] w1']|], (m w2) as [[[a'|e'] w2']|];
    simplify_eq/=; [apply Hk | done | done].
Qed.

Lemma world_blind_try m (h : exn -> prog A) :
  world_blind m -> (forall e, world_blind (h e)) -> world_blind (try_except m h).
Proof.
  intros Hm Hh w1 w2. unfold try_except.
  specialize (Hm w1 w2).
  destruct (m w1) as [[[a|e] w1']|], (m w2) as [[[a'|e'] w2']|];
    simplify_eq/=; [done | apply Hh | done].
Qed.
End frame.

Lemma keeps_files_urlopen (E : env) (url : string) : keeps_files (urlopen E url).
Proof. by intros w r w' [= _ <-]. Qed.

Lemma keeps_files_read_body (url : string) (resp : response) :
  keeps_files (read_body url resp).
Proof. by intros w r w' [= _ <-]. Qed.

Lemma world_blind_urlopen (E : env) (url : string) : world_blind (urlopen E url).
Proof. by intros w1 w2. Qed.

Lemma world_blind_read_body (url : string) (resp : response) :
  world_blind (read_body url resp).
Proof. by intros w1 w2. Qed.

Ltac frame_step :=
  match goal with
  | |- keeps_files (mbind _ _) => apply keeps_files_bind; [|intros ?]
  | |- keeps_files (mret _) => apply keeps_files_ret
  | |- keeps_files (ret _) => apply keeps_files_ret
  | |- keeps_files (raise _) => apply keeps_files_raise
  | |- keeps_files (lift _) => apply keeps_files_lift
  | |- keeps_files (urlopen _ _) => apply keeps_files_urlopen
  | |- keeps_files (read_body _ _) => apply keeps_files_read_body
  | |- keeps_files (try_except _ _) => apply keeps_files_try; [|intros ?]
  | |- keeps_files (match ?x with _ => _ end) => destruct x
  | |- world_blind (mbind _ _) => apply world_blind_bind; [|intros ?]
  | |- world_blind (mret _) => apply world_blind_ret
  | |- world_blind (ret _) => apply world_blind_ret
  | |- world_blind (raise _) => apply world_blind_raise
  | |- world_blind (lift _) => apply world_blind_lift
  | |- world_blind (urlopen _ _) => apply world_blind_urlopen
  | |- world_blind (read_body _ _) => apply world_blind_read_body
  | |- world_blind (try_except _ _) => apply world_blind_try; [|intros ?]
  | |- world_blind (match ?x with _ => _ end) => destruct x
  end.

Ltac frame_auto := cbv zeta; repeat frame_step.

Lemma frame_get_fedora (E : env) (source : py_arg) :
  keeps_files (get_fedora E source) /\ world_blind (get_fedora E source).
Proof. split; unfold get_fedora; frame_auto. Qed.

Lemma frame_get_freebsd (E : env) (source : py_arg) :
  keeps_files (get_freebsd E source) /\ world_blind (get_freebsd E source).
Proof. split; unfold get_freebsd; frame_auto. Qed.

Lemma frame_get_openbsd (E : env) (source : py_arg) :
  keeps_files (get_openbsd E source) /\ world_blind (get_openbsd E source).
Proof. split; unfold get_openbsd; frame_auto. Qed.

Lemma frame_get_scrape (fuel : nat) (E : env) (table : gmap string definition)
    (distro : string) (defin : gmap string string) (source : py_arg) :
  keeps_files (get_scrape fuel E table distro defin source)
  /\ world_blind (get_scrape fuel E table distro defin source).
Proof.
  split; unfold get_scrape, scrape_fetch.
  - apply keeps_files_bind; [|intros [regex text]; frame_auto].
    apply keeps_files_bind; [frame_auto|intros src].
    apply keeps_files_bind; [|intros d; frame_auto].
    intros w r w'. destruct (inherit_loop _ _ _); [|done]. by intros [= _ <-].
  - apply world_blind_bind; [|intros [regex text]; frame_auto].
    apply world_blind_bind; [frame_auto|intros src].
    apply world_blind_bind; [|intros d; frame_auto].
    intros w1 w2. by destruct (inherit_loop _ _ _).
Qed.

(** On a set of names closed under the aliases, whose functions leave the
    files alone and do not look at the world, so does the dispatch. *)
Lemma frame_get_dispatch (E : env) (table : gmap string definition)
    (P : string -> Prop) (fuel : nat) (distro : string) (arg : py_arg) :
  (forall name f, P name -> table !! name = Some (CustomResolver f) ->
     keeps_files (f arg) /\ world_blind (f arg)) ->
  (forall name target, P name -> table !! name = Some (Alias target) ->
     P target) ->
  P distro ->
  keeps_files (get_dispatch fuel E table distro arg)
  /\ world_blind (get_dispatch fuel E table distro arg).
Proof.
  intros Hf Ha. revert distro. induction fuel as [|fuel IH]; intros distro HP.
  - split; [by intros w r w' | by intros w1 w2].
  - simpl. destruct (table !! distro) as [[d|target|f]|] eqn:Hd.
    + destruct (frame_get_scrape fuel E table distro d arg).
      split; [apply keeps_files_try | apply world_blind_try]; try done;
        intros e; frame_auto.
    + destruct (IH target) as [? ?]; [by eapply Ha|].
      split; [apply keeps_files_try | apply world_blind_try]; try done;
        intros e; frame_auto.
    + destruct (Hf _ _ HP Hd).
      split; [apply keeps_files_try | apply world_blind_try]; try done;
        intros e; frame_auto.
    + split; frame_auto.
Qed.

(** Apart from [nixos], the sources of [DISTROS] leave the files alone
    and do not look at the world. *)
Lemma frame_DISTROS (E : env) (fuel : nat) (distro : string) (arg : py_arg) :
  distro <> "nixos" ->
  keeps_files (get_dispatch fuel E (DISTROS E) distro arg)
  /\ world_blind (get_dispatch fuel E (DISTROS E) distro arg).
Proof.
  apply (frame_get_dispatch E (DISTROS E) (fun name => name <> "nixos")).
  - intros name f Hne H. apply elem_of_list_to_map_2 in H.
    repeat (apply elem_of_cons in H as [H|H]); try (by apply elem_of_nil in H);
      try discriminate H; injection H as -> ->; try done.
    + apply frame_get_fedora.
    + apply frame_get_freebsd.
    + apply frame_get_openbsd.
  - intros name target Hne H. apply elem_of_list_to_map_2 in H.
    repeat (apply elem_of_cons in H as [H|H]); try (by apply elem_of_nil in H);
      try discriminate H; by injection H as -> ->.
Qed.

Lemma world_blind_result {A} (m : prog A) (w1 w2 w1' : world) (r : result A) :
  world_blind m -> m w1 = Some (r, w1') -> exists w2', m w2 = Some (r, w2').
Proof.
  intros Hb H1. specialize (Hb w1 w2). rewrite H1 in Hb. simpl in Hb.
  destruct (m w2) as [[r2 w2']|]; [|done].
  injection Hb as ->. by exists w2'.
Qed.

(** X9. Apart from [nixos], no source of [DISTROS] reads or writes a file:
    resolving it leaves the files as they are, and the outcome is the same
    in every world. *)
Theorem dispatch_leaves_files (E : env) (fuel : nat) (distro : string)
    (arg : py_arg) (w w' : world) (r : result semver) :
  distro <> "nixos" ->
  get_dispatch fuel E (DISTROS E) distro arg w = Some (r, w') ->
  files w' = files w
  /\ forall w2, exists w2',
       get_dispatch fuel E (DISTROS E) distro arg w2 = Some (r, w2').
Proof.
  intros Hne Hr. destruct (frame_DISTROS E fuel distro arg Hne) as [Hk Hb].
  split; [by eapply Hk|].
  intros w2. by eapply world_blind_result.
Qed.

Lemma dispatch_leaves_files_witness :
  exists w2',
    get_dispatch 3 offline (DISTROS offline) "debian" (ArgStr "jessie")
      cached_world
    = Some (Ok sentinel, w2').
Proof.
  destruct (dispatch_leaves_files offline 3 "debian" (ArgStr "jessie")
              empty_world
              (World ∅ ["https://packages.debian.org/jessie/rustc"] [])
              (Ok sentinel)) as [_ H];
    [discriminate | vm_compute; reflexivity |].
  apply (H cached_world).
Defined.

(** X10. The generic scraper sends one request at most, to the formatted
    [url] of the rule once the links are followed, and only after the
    argument, the rule, the templates and the pattern have been accepted;
    it returns no version without a request and touches no file. *)
Theorem get_scrape_one_request (fuel : nat) (E : env)
    (table : gmap string definition) (distro : string)
    (defin : gmap string string) (source : py_arg) (w w' : world)
    (r : result semver) :
  get_scrape fuel E table distro defin source w = Some (r, w') ->
  files w' = files w
  /\ ((requests w' = requests w /\ body_reads w' = body_reads w
       /\ is_ok r = false)
      \/ exists src d t url,
           source_dict source = Ok src
           /\ inherit_loop fuel table defin = Some (Ok d)
           /\ d !! "url" = Some t /\ str_format E t src = Ok url
           /\ requests w' = url :: requests w
           /\ (body_reads w' = body_reads w
               \/ body_reads w' = url :: body_reads w)).
Proof.
  unfold get_scrape, scrape_fetch, field. unfold_prog.
  destruct (source_dict source) as [src|e0]; [|intros [= <- <-]; auto].
  destruct (inherit_loop fuel table defin) as [[d|e1]|]; [| |done];
    [|intros [= <- <-]; auto].
  destruct (d !! "url") as [t|] eqn:Hu; [|intros [= <- <-]; auto].
  destruct (str_format E t src) as [url|] eqn:Hf; [|intros [= <- <-]; auto].
  destruct (d !! "xpath") as [tx|]; [|intros [= <- <-]; auto].
  destruct (str_format E tx src) as [xp|]; [|intros [= <- <-]; auto].
  destruct (d !! "re") as [tr|]; [|intros [= <- <-]; auto].
  destruct (re_compile E tr) as [regex|]; [|intros [= <- <-]; auto].
  assert (forall P : Prop, P -> True /\ P) as Hsplit by auto.
  destruct (http_open E url) as [resp|].
  - destruct (resp_body resp) as [doc|].
    + destruct (html_xpath E doc xp) as [[|res rs]|]; simpl;
        intros [= <- <-]; (split; [done|]); right;
        exists src, d, t, url; auto 10.
    + intros [= <- <-]. split; [done|]. right. exists src, d, t, url. auto 10.
  - intros [= <- <-]. split; [done|]. right. exists src, d, t, url. auto 10.
Qed.

Lemma get_scrape_one_request_witness :
  requests (World ∅ ["https://packages.debian.org/jessie/rustc"]
                    ["https://packages.debian.org/jessie/rustc"])
  = "https://packages.debian.org/jessie/rustc" :: requests empty_world.
Proof.
  destruct (get_scrape_one_request 1 page_match (DISTROS page_match) "debian"
              debian_rule (ArgStr "jessie") empty_world
              (World ∅ ["https://packages.debian.org/jessie/rustc"]
                       ["https://packages.debian.org/jessie/rustc"])
              (Ok (1, 14, 0))) as [_ [(_ & _ & H)|(src & d & t & url & H)]];
    [vm_compute; reflexivity | discriminate H | reflexivity].
Defined.

(** ** Aliases and links that lead nowhere *)

(** X11. Resolving an alias is resolving its target: when the target has
    an entry, the alias gives the very outcome of the target, world
    included. *)
Theorem get_dispatch_alias (fuel : nat) (E : env)
    (table : gmap string definition) (distro target : string)
    (arg : py_arg) (w : world) :
  table !! distro = Some (Alias target) ->
  is_Some (table !! target) ->
  get_dispatch (S fuel) E table distro arg w
  = get_dispatch fuel E table target arg w.
Proof.
  intros Hd Ht. rewrite (get_dispatch_boundary _ _ _ _ _ _ _ Hd). simpl.
  destruct (get_dispatch fuel E table target arg w) as [[[v|e] w']|] eqn:Hg;
    try done.
  by apply get_dispatch_no_raise in Hg.
Qed.

Lemma get_dispatch_alias_witness :
  get_dispatch 3 page_match (DISTROS page_match) "ubuntu-latest"
    (ArgStr "zesty") empty_world
  = get_dispatch 2 page_match (DISTROS page_match) "ubuntu"
      (ArgStr "zesty") empty_world.
Proof.
  apply (get_dispatch_alias 2 page_match (DISTROS page_match) "ubuntu-latest"
           "ubuntu" (ArgStr "zesty") empty_world);
    [reflexivity | by eexists].
Defined.

(** X12. An alias to a name that has no entry does not fail like that
    name itself: the [KeyError] of the inner lookup is raised inside the
    [try] of the outer call, and the alias resolves to the sentinel
    without any request. *)
Theorem dangling_alias_gives_sentinel (fuel : nat) (E : env)
    (table : gmap string definition) (distro target : string)
    (arg : py_arg) (w : world) :
  table !! distro = Some (Alias target) ->
  table !! target = None ->
  get_dispatch (S (S fuel)) E table target arg w
    = Some (Raise (KeyError target), w)
  /\ get_dispatch (S (S fuel)) E table distro arg w = Some (Ok sentinel, w).
Proof.
  intros Hd Ht. split; [by apply get_dispatch_unknown|].
  rewrite (get_dispatch_boundary _ _ _ _ _ _ _ Hd). unfold dispatch_body.
  by rewrite (get_dispatch_unknown _ _ _ _ _ _ Ht).
Qed.

Lemma dangling_alias_gives_sentinel_witness :
  get_dispatch 2 offline dangling_table "mint" (ArgStr "debbie") empty_world
  = Some (Ok sentinel, empty_world).
Proof.
  destruct (dangling_alias_gives_sentinel 0 offline dangling_table "mint" "lmde"
              (ArgStr "debbie") empty_world) as [_ H];
    [reflexivity | reflexivity | exact H].
Defined.

(** X13. A rule may inherit from a rule only: when ['inherit'] names an
    alias, a function or nothing, the walk fails before any request, and
    the dispatch of the rule gives the sentinel in an unchanged world. *)
Theorem get_dispatch_bad_inherit (fuel : nat) (E : env)
    (table : gmap string definition) (distro inherit : string)
    (d : gmap string string) (release : string) (w : world) :
  table !! distro = Some (ScrapeRule d) ->
  d !! "inherit" = Some inherit ->
  (forall parent, table !! inherit <> Some (ScrapeRule parent)) ->
  (exists e, get_scrape (S fuel) E table distro d (ArgStr release) w
             = Some (Raise e, w))
  /\ get_dispatch (S (S fuel)) E table distro (ArgStr release) w
     = Some (Ok sentinel, w).
Proof.
  intros Hd Hi Hp.
  assert (exists e, get_scrape (S fuel) E table distro d (ArgStr release) w
                    = Some (Raise e, w)) as [e He].
  { unfold get_scrape, scrape_fetch. unfold_prog. simpl.
    rewrite Hi. unfold inherit_step.
    destruct (table !! inherit) as [[parent| |]|] eqn:Ht; try by eexists.
    by destruct (Hp parent). }
  split; [by exists e|].
  rewrite (get_dispatch_boundary _ _ _ _ _ _ _ Hd). unfold dispatch_body.
  by rewrite He.
Qed.

Lemma get_dispatch_bad_inherit_witness :
  get_dispatch 2 page_match alias_inherit_table "mint" (ArgStr "debbie")
    empty_world
  = Some (Ok sentinel, empty_world).
Proof.
  destruct (get_dispatch_bad_inherit 0 page_match alias_inherit_table "mint"
              "debian-testing"
              {[ "url" := "http://packages.linuxmint.com/{release}";
                 "inherit" := "debian-testing" ]} "debbie" empty_world)
    as [_ H]; [reflexivity | reflexivity | | exact H].
  intros parent. vm_compute. discriminate.
Defined.

(** ** The cache of the package index, run after run *)

Lemma nixos_payload_hit (E : env) (w : world) (d p : string) (req : response) :
  gettempdir E = Some d ->
  http_open E nixos_URL = Ok req ->
  resp_etag req = stored_etag E (files w) ->
  files w !! bs_gz_path d = Some p ->
  nixos_payload E w
  = Some (Ok p, World (files w) (nixos_URL :: requests w) (body_reads w)).
Proof.
  intros Htmp Hreq Htok Hp. unfold nixos_payload.
  unfold mbind at 1, prog_bind, bind. rewrite nixos_last_etag_stored.
  unfold_prog. rewrite Hreq, Htok, Htmp. simpl.
  rewrite bool_decide_eq_true_2 by done. simpl. by rewrite Hp.
Qed.

Lemma nixos_payload_miss (E : env) (w : world) (d t b : string)
    (req : response) :
  gettempdir E = Some d ->
  http_open E nixos_URL = Ok req ->
  resp_etag req = Some t ->
  resp_body req = Ok b ->
  stored_etag E (files w) <> Some t \/ files w !! bs_gz_path d = None ->
  nixos_payload E w
  = Some (Ok b,
          World (<[bs_gz_path d := b]>
                   (<[etag_path d := utf8_encode E t]> (files w)))
                (nixos_URL :: requests w) (nixos_URL :: body_reads w)).
Proof.
  intros Htmp Hreq Htok Hb Hmiss. unfold nixos_payload.
  unfold mbind at 1, prog_bind, bind. rewrite nixos_last_etag_stored.
  unfold_prog. rewrite Hreq, Htok, Htmp. simpl.
  assert (forall fs, <[bs_gz_path d:=b]> (<[bs_gz_path d:=""]>
            (<[etag_path d:=utf8_encode E t]> (<[etag_path d:=""]> fs)))
          = <[bs_gz_path d:=b]> (<[etag_path d:=utf8_encode E t]> fs))
    as Hfs by (intros fs; by rewrite !insert_insert_eq).
  destruct Hmiss as [Hne|Hnone].
  - rewrite bool_decide_eq_false_2 by congruence.
    rewrite Hb. simpl. by rewrite Hfs.
  - destruct (bool_decide _); simpl; rewrite ?Hnone, Hb; simpl;
      by rewrite Hfs.
Qed.

(** The runs of [nixos_payload] that return a payload. *)
Lemma nixos_payload_ok (E : env) (w w1 : world) (x : string) :
  nixos_payload E w = Some (Ok x, w1) ->
  exists req, http_open E nixos_URL = Ok req
    /\ ((exists d, gettempdir E = Some d
           /\ resp_etag req = stored_etag E (files w)
           /\ files w !! bs_gz_path d = Some x
           /\ w1 = World (files w) (nixos_URL :: requests w) (body_reads w))
        \/ (exists d t, gettempdir E = Some d /\ resp_etag req = Some t
              /\ resp_body req = Ok x
              /\ w1 = World (<[bs_gz_path d := x]>
                               (<[etag_path d := utf8_encode E t]> (files w)))
                            (nixos_URL :: requests w)
                            (nixos_URL :: body_reads w))
        \/ (gettempdir E = None /\ resp_body req = Ok x
            /\ w1 = World (files w) (nixos_URL :: requests w)
                          (nixos_URL :: body_reads w))).
Proof.
  unfold nixos_payload.
  unfold mbind at 1, prog_bind, bind. rewrite nixos_last_etag_stored.
  unfold_prog.
  destruct (http_open E nixos_URL) as [req|e]; [|done].
  intros H. exists req. split; [done|]. revert H.
  destruct (bool_decide (resp_etag req = stored_etag E (files w))) eqn:Hb.
  - apply bool_decide_eq_true in Hb.
    destruct (gettempdir E) as [d|] eqn:Htmp; simpl.
    + destruct (files w !! bs_gz_path d) as [p|] eqn:Hp.
      * intros [= <- <-]. left. by exists d.
      * destruct (resp_body req) as [b|]; [|done].
        destruct (resp_etag req) as [t|]; [|done].
        simpl. intros [= <- <-]. right; left. exists d, t.
        by rewrite !insert_insert_eq.
    + destruct (resp_body req) as [b|]; [|done].
      intros [= <- <-]. by right; right.
  - destruct (gettempdir E) as [d|] eqn:Htmp; simpl.
    + destruct (resp_body req) as [b|]; [|done].
      destruct (resp_etag req) as [t|]; [|done].
      simpl. intros [= <- <-]. right; left. exists d, t.
      by rewrite !insert_insert_eq.
    + destruct (resp_body req) as [b|]; [|done].
      intros [= <- <-]. by right; right.
Qed.

(** X14. After a run that returned a payload, a second run returns the
    same payload and leaves the files as the first run left them; when
    the token of the remote reads back from the token file as it is, the
    second run downloads nothing. *)
Theorem nixos_payload_again (E : env) (w w1 : world) (x : string) :
  nixos_payload E w = Some (Ok x, w1) ->
  exists w2,
    nixos_payload E w1 = Some (Ok x, w2)
    /\ files w2 = files w1
    /\ forall req t,
         http_open E nixos_URL = Ok req -> resp_etag req = Some t ->
         is_Some (gettempdir E) ->
         utf8_decode E (utf8_encode E t) = Ok t -> strip t = t ->
         body_reads w2 = body_reads w1.
Proof.
  intros (req & Hreq & [(d & Htmp & Htok & Hp & ->)
                       |[(d & t & Htmp & Htok & Hb & ->)
                        |(Htmp & Hb & ->)]])%nixos_payload_ok.
  - eexists. split; [by apply (nixos_payload_hit E _ d x req)|].
    split; [done|]. done.
  - set (F := <[bs_gz_path d:=x]> (<[etag_path d:=utf8_encode E t]> (files w))).
    assert (F !! bs_gz_path d = Some x) as Hgz by apply lookup_insert_eq.
    assert (F !! etag_path d = Some (utf8_encode E t)) as Het.
    { unfold F. rewrite lookup_insert_ne by (symmetry; apply etag_path_ne).
      apply lookup_insert_eq. }
    destruct (decide (stored_etag E F = Some t)) as [Hst|Hst].
    + eexists. split.
      { apply (nixos_payload_hit E _ d x req); simpl; try done. congruence. }
      split; [done|]. done.
    + eexists. split.
      { apply (nixos_payload_miss E _ d t x req); simpl; auto. }
      split.
      * simpl. fold F. rewrite (insert_id F (etag_path d)) by done.
        by rewrite (insert_id F (bs_gz_path d)).
      * intros req' t' Hreq' Htok' _ Hdec Hstrip. exfalso. apply Hst.
        rewrite Hreq in Hreq'. injection Hreq' as <-.
        rewrite Htok in Htok'. injection Htok' as <-.
        unfold stored_etag. by rewrite Htmp, Het, Hdec, Hstrip.
  - eexists. split.
    + unfold nixos_payload.
      unfold mbind at 1, prog_bind, bind. rewrite nixos_last_etag_stored.
      unfold_prog. rewrite Hreq, Htmp. simpl.
      destruct (bool_decide _); simpl; by rewrite Hb.
    + split; [done|]. intros req' t' _ _ [d Hd]. congruence.
Qed.

Lemma nixos_payload_again_witness :
  nixos_payload (nix_remote (Some "abc") "P1")
    (World (cache_files "abc" "P1") [nixos_URL] [nixos_URL])
  = Some (Ok "P1", World (cache_files "abc" "P1") [nixos_URL; nixos_URL]
                         [nixos_URL]).
Proof.
  destruct (nixos_payload_again (nix_remote (Some "abc") "P1") empty_world
              (World (cache_files "abc" "P1") [nixos_URL] [nixos_URL]) "P1")
    as (w2 & H2 & _ & _); [vm_compute; reflexivity|].
  rewrite H2. vm_compute in H2. by injection H2 as <-.
Defined.

(** The world after [get_nixos] is the one after its payload step, or the
    one it started from. *)
Lemma get_nixos_world (E : env) (source : py_arg) (w w' : world)
    (r : result semver) :
  get_nixos E source w = Some (r, w') ->
  w' = w \/ exists r0, nixos_payload E w = Some (r0, w').
Proof.
  unfold get_nixos.
  destruct (arg_eq_str source ROLLING); simpl.
  - unfold py_assert, ret.
    unfold mbind at 1, prog_bind, bind at 1.
    unfold mbind at 1, prog_bind, bind at 1.
    destruct (nixos_payload E w) as [[[bs|e] w1]|] eqn:Hp; [| |done].
    + unfold_prog.
      destruct (nix_rustc_name E bs) as [name|];
        [|intros [= <- <-]; right; eauto].
      destruct (re_compile E _) as [re_ver|];
        [|intros [= <- <-]; right; eauto].
      destruct (search_group1 re_ver name);
        intros [= <- <-]; right; eauto.
    + intros [= <- <-]. right; eauto.
  - intros [= <- <-]. by left.
Qed.

Lemma nixos_payload_frame (E : env) (w w' : world) (r : result string) :
  nixos_payload E w = Some (r, w') ->
  (forall p,
     (forall d, gettempdir E = Some d ->
                p <> etag_path d /\ p <> bs_gz_path d) ->
     files w' !! p = files w !! p)
  /\ (body_reads w' = body_reads w -> files w' = files w).
Proof.
  unfold nixos_payload.
  unfold mbind at 1, prog_bind, bind. rewrite nixos_last_etag_stored.
  unfold_prog.
  assert (forall l : list string, nixos_URL :: l <> l) as Hcons.
  { intros l Hl. apply (f_equal length) in Hl. simpl in Hl. lia. }
  assert (forall (d x y : string) p,
    (forall d', Some d = Some d' -> p <> etag_path d' /\ p <> bs_gz_path d') ->
    <[bs_gz_path d:=x]> (<[bs_gz_path d:=""]>
       (<[etag_path d:=y]> (<[etag_path d:=""]> (files w)))) !! p
    = files w !! p) as Hfull.
  { intros d x y p Hp. destruct (Hp d eq_refl) as [H1 H2].
    by rewrite !lookup_insert_ne by done. }
  assert (forall (d : string) p,
    (forall d', Some d = Some d' -> p <> etag_path d' /\ p <> bs_gz_path d') ->
    <[etag_path d:=""]> (files w) !! p = files w !! p) as Hhalf.
  { intros d p Hp. destruct (Hp d eq_refl) as [H1 H2].
    by rewrite lookup_insert_ne by done. }
  destruct (http_open E nixos_URL) as [req|e];
    [|intros [= <- <-]; by split].
  destruct (bool_decide _), (gettempdir E) as [d|]; simpl;
    try destruct (files w !! bs_gz_path d);
    destruct (resp_body req); try destruct (resp_etag req); simpl;
    intros [= <- <-]; simpl; (split; [auto | intros Hbr; try done;
      by apply Hcons in Hbr]).
Qed.

(** X15. Whatever its argument and its environment, a run of [get_nixos]
    that ends can change the two cache files in the temporary directory
    and no other file, and it changes a file only in a run that downloads
    the body; without a temporary directory no file changes at all. *)
Theorem get_nixos_touches_cache_only (E : env) (source : py_arg)
    (w w' : world) (r : result semver) :
  get_nixos E source w = Some (r, w') ->
  (forall p,
     (forall d, gettempdir E = Some d ->
                p <> etag_path d /\ p <> bs_gz_path d) ->
     files w' !! p = files w !! p)
  /\ (body_reads w' = body_reads w -> files w' = files w)
  /\ (gettempdir E = None -> files w' = files w).
Proof.
  intros [->|[r0 Hp]]%get_nixos_world; [done|].
  destruct (nixos_payload_frame E w w' r0 Hp) as [H1 H2].
  repeat split; [done..|].
  intros Hnone. apply map_eq. intros p. apply H1.
  intros d Hd. congruence.
Qed.

Lemma get_nixos_touches_cache_only_witness :
  cache_files "abc" "P1" !! "/tmp/notes.txt"
  = (∅ : gmap string string) !! "/tmp/notes.txt".
Proof.
  destruct (get_nixos_touches_cache_only (nix_remote (Some "abc") "P1")
              (ArgStr ROLLING) empty_world
              (World (cache_files "abc" "P1") [nixos_URL] [nixos_URL])
              (Ok (1, 16, 0))) as (H & _ & _); [vm_compute; reflexivity|].
  apply (H "/tmp/notes.txt"). intros d [= <-]. by split.
Defined.

(** X16. A remote that sends no token, with a temporary directory and no
    usable cache (a token is stored, or the payload file is missing): the
    body is downloaded, the token file is emptied, and the run raises
    [AttributeError] before anything is stored - the payload file is not
    written and the dispatcher reports the sentinel. *)
Theorem get_nixos_remote_without_token (E : env) (w : world) (d b : string)
    (req : response) :
  gettempdir E = Some d ->
  http_open E nixos_URL = Ok req ->
  resp_etag req = None ->
  resp_body req = Ok b ->
  stored_etag E (files w) <> None \/ files w !! bs_gz_path d = None ->
  let w' := World (<[etag_path d := ""]> (files w))
                  (nixos_URL :: requests w) (nixos_URL :: body_reads w) in
  get_nixos E (ArgStr ROLLING) w = Some (Raise AttributeError, w')
  /\ files w' !! bs_gz_path d = files w !! bs_gz_path d
  /\ get_dispatch 1 E (DISTROS E) "nixos" (ArgStr ROLLING) w
     = Some (Ok sentinel, w').
Proof.
  intros Htmp Hreq Htok Hb Hmiss w'.
  assert (nixos_payload E w = Some (Raise AttributeError, w')) as Hp.
  { unfold nixos_payload.
    unfold mbind at 1, prog_bind, bind. rewrite nixos_last_etag_stored.
    unfold_prog. rewrite Hreq, Htok, Htmp. simpl.
    destruct Hmiss as [Hne|Hnone].
    - rewrite bool_decide_eq_false_2 by congruence. by rewrite Hb.
    - destruct (bool_decide _); simpl; by rewrite ?Hnone, Hb. }
  assert (get_nixos E (ArgStr ROLLING) w = Some (Raise AttributeError, w'))
    as Hn.
  { unfold get_nixos. simpl. unfold py_assert, ret.
    unfold mbind at 1, prog_bind, bind at 1.
    unfold mbind at 1, prog_bind, bind at 1. by rewrite Hp. }
  split; [done|]. split.
  - simpl. apply lookup_insert_ne, etag_path_ne.
  - rewrite (get_dispatch_boundary E (DISTROS E) 0 "nixos"
               (CustomResolver (get_nixos E)) (ArgStr ROLLING) w)
      by reflexivity.
    simpl. by rewrite Hn.
Qed.

Lemma get_nixos_remote_without_token_witness :
  get_dispatch 1 (nix_remote None "P1") (DISTROS (nix_remote None "P1"))
    "nixos" (ArgStr ROLLING) empty_world
  = Some (Ok sentinel,
          World {[etag_path "/tmp" := ""]} [nixos_URL] [nixos_URL]).
Proof.
  destruct (get_nixos_remote_without_token (nix_remote None "P1") empty_world
              "/tmp" "P1" (Response None (Ok "P1")))
    as (_ & _ & H); [done..| by right |].
  exact H.
Defined.

(** ** The two-step resolvers *)

Lemma has_char_app (c : ascii) (s1 s2 : string) :
  has_char c (s1 +:+ s2) = has_char c s1 || has_char c s2.
Proof.
  induction s1 as [|a s1 IH]; [done|].
  rewrite app_cons. simpl. rewrite IH. by rewrite orb_assoc.
Qed.

Lemma replace_char_gone (a b : ascii) (s : string) :
  a <> b -> has_char a (replace_char a b s) = false.
Proof.
  intros Hab. induction s as [|c s IH]; [done|].
  simpl. rewrite IH, orb_false_r.
  destruct (Ascii.eqb_spec c a) as [->|Hc].
  - apply Ascii.eqb_neq. congruence.
  - by apply Ascii.eqb_neq.
Qed.

Lemma replace_char_length (a b : ascii) (s : string) :
  String.length (replace_char a b s) = String.length s.
Proof. induction s as [|c s IH]; [done|]. simpl. by rewrite IH. Qed.

(** X17. [get_openbsd] on a release name: the tag it asks for has the
    dots of the name replaced, so it holds no dot; the first request goes
    to the directory of the port under that tag; a second request is sent
    only when that page lists a revision, and goes to the Makefile at the
    first revision listed; a version is returned only after both. *)
Theorem get_openbsd_requests (E : env) (s : string) (w w' : world)
    (r : result semver) :
  get_openbsd E (ArgStr s) w = Some (r, w') ->
  has_char "." (openbsd_tag s) = false
  /\ ((requests w' = openbsd_pkg_url s :: requests w /\ is_ok r = false)
      \/ exists resp doc rev rest,
           http_open E (openbsd_pkg_url s) = Ok resp
           /\ resp_body resp = Ok doc
           /\ html_xpath E doc openbsd_rev_xpath = Ok (rev :: rest)
           /\ requests w'
              = openbsd_makefile_url s rev :: openbsd_pkg_url s :: requests w).
Proof.
  intros H. split.
  { unfold openbsd_tag. rewrite has_char_app, replace_char_gone by done.
    reflexivity. }
  revert H. unfold get_openbsd. cbv zeta. unfold_prog.
  destruct (http_open E _) as [resp|] eqn:Hresp;
    [|intros [= <- <-]; by left].
  destruct (resp_body resp) as [doc|] eqn:Hdoc;
    [|intros [= <- <-]; by left].
  destruct (html_xpath E doc _) as [[|rev rest]|] eqn:Hxp;
    [intros [= <- <-]; by left| |intros [= <- <-]; by left].
  simpl.
  intros H. right. exists resp, doc, rev, rest.
  split; [first [exact Hresp | reflexivity]|].
  split; [first [exact Hdoc | reflexivity]|].
  split; [first [exact Hxp | reflexivity]|].
  clear Hresp Hdoc Hxp. revert H.
  destruct (http_open E _) as [resp2|]; [|by intros [= <- <-]].
  destruct (resp_body resp2) as [body|]; [|by intros [= <- <-]].
  destruct (utf8_decode E body) as [text|]; [|by intros [= <- <-]].
  destruct (re_compile E _) as [re_ver|]; [|by intros [= <- <-]].
  destruct (search_group1 re_ver text) as [ver|]; [|by intros [= <- <-]].
  destruct (parse_semver ver); by intros [= <- <-].
Qed.

Lemma get_openbsd_requests_witness :
  get_openbsd bsd_remote (ArgStr "6.0") empty_world
  = Some (Ok (1, 16, 0),
          World ∅
            ["http://cvsweb.openbsd.org/cgi-bin/cvsweb/~checkout~/ports/lang/rust/Makefile?rev=1.7&only_with_tag=OPENBSD_6_0";
             "http://cvsweb.openbsd.org/cgi-bin/cvsweb/ports/lang/rust/?only_with_tag=OPENBSD_6_0"]
            ["http://cvsweb.openbsd.org/cgi-bin/cvsweb/~checkout~/ports/lang/rust/Makefile?rev=1.7&only_with_tag=OPENBSD_6_0";
             "http://cvsweb.openbsd.org/cgi-bin/cvsweb/ports/lang/rust/?only_with_tag=OPENBSD_6_0"])
  /\ has_char "." (openbsd_tag "6.0") = false.
Proof.
  assert (get_openbsd bsd_remote (ArgStr "6.0") empty_world
          = Some (Ok (1, 16, 0),
              World ∅
                [openbsd_makefile_url "6.0" "1.7"; openbsd_pkg_url "6.0"]
                [openbsd_makefile_url "6.0" "1.7"; openbsd_pkg_url "6.0"]))
    as H by (vm_compute; reflexivity).
  split; [exact H|].
  exact (proj1 (get_openbsd_requests bsd_remote "6.0" _ _ _ H)).
Defined.

(** X18. [get_freebsd] on a string, on [None] or on a dict formats its
    argument into the address ([None] reads as the text [None]): the first
    request goes to the directory of the port in that branch; a second
    request is sent only when that page lists a revision, and goes to the
    Makefile at the first revision listed; a version is returned only
    after both. *)
Theorem get_freebsd_requests (E : env) (source : py_arg) (w w' : world)
    (r : result semver) :
  plain_arg source = true ->
  get_freebsd E source w = Some (r, w') ->
  let rel := str_of_arg E source in
  (requests w' = freebsd_pkg_url rel :: requests w /\ is_ok r = false)
  \/ exists resp doc rev rest,
       http_open E (freebsd_pkg_url rel) = Ok resp
       /\ resp_body resp = Ok doc
       /\ html_xpath E doc freebsd_rev_xpath = Ok (rev :: rest)
       /\ requests w'
          = freebsd_makefile_url rel rev :: freebsd_pkg_url rel :: requests w.
Proof.
  intros _. unfold get_freebsd. cbv zeta. unfold_prog.
  destruct (http_open E _) as [resp|] eqn:Hresp;
    [|intros [= <- <-]; by left].
  destruct (resp_body resp) as [doc|] eqn:Hdoc;
    [|intros [= <- <-]; by left].
  destruct (html_xpath E doc _) as [[|rev rest]|] eqn:Hxp;
    [intros [= <- <-]; by left| |intros [= <- <-]; by left].
  simpl.
  intros H. right. exists resp, doc, rev, rest.
  split; [first [exact Hresp | reflexivity]|].
  split; [first [exact Hdoc | reflexivity]|].
  split; [first [exact Hxp | reflexivity]|].
  clear Hresp Hdoc Hxp. revert H.
  destruct (http_open E _) as [resp2|]; [|by intros [= <- <-]].
  destruct (resp_body resp2) as [body|]; [|by intros [= <- <-]].
  destruct (utf8_decode E body) as [text|]; [|by intros [= <- <-]].
  destruct (re_compile E _) as [re_ver|]; [|by intros [= <- <-]].
  destruct (search_group1 re_ver text) as [ver|]; [|by intros [= <- <-]].
  destruct (parse_semver ver); by intros [= <- <-].
Qed.

Lemma get_freebsd_requests_witness :
  exists rev, 
    [ "https://svnweb.freebsd.org/ports/branches/None/lang/rust/Makefile?revision=1.7&view=co";
      "https://svnweb.freebsd.org/ports/branches/None/lang/rust" ]
    = [ freebsd_makefile_url "None" rev; freebsd_pkg_url "None" ].
Proof.
  assert (get_freebsd bsd_remote ArgNone empty_world
          = Some (Ok (1, 16, 0),
              World ∅
                [ "https://svnweb.freebsd.org/ports/branches/None/lang/rust/Makefile?revision=1.7&view=co";
                  "https://svnweb.freebsd.org/ports/branches/None/lang/rust" ]
                [ "https://svnweb.freebsd.org/ports/branches/None/lang/rust/Makefile?revision=1.7&view=co";
                  "https://svnweb.freebsd.org/ports/branches/None/lang/rust" ]))
    as H by (vm_compute; reflexivity).
  destruct (get_freebsd_requests bsd_remote ArgNone _ _ _ eq_refl H)
    as [[_ [=]]|(_ & _ & rev & _ & _ & _ & _ & Hr)].
  exists rev. exact Hr.
Defined.

(** ** The rows of the Fedora query *)

Lemma filter_rows_total (s : string) (rows : list (gmap string string)) :
  Forall (fun q => is_Some (q !! "release")) rows ->
  exists rest, filter_rows (ArgStr s) rows = Ok rest.
Proof.
  induction 1 as [|q rows [rel Hq] _ [rest IH]]; [by exists []|].
  simpl. unfold fedora_row_matches. rewrite Hq, IH. simpl.
  destruct (contains s rel); eauto.
Qed.

Lemma filter_rows_first (s : string) (pre post : list (gmap string string))
    (r : gmap string string) (rel : string) :
  Forall (fun q => exists rel, q !! "release" = Some rel
                               /\ contains s rel = false) pre ->
  r !! "release" = Some rel -> contains s rel = true ->
  Forall (fun q => is_Some (q !! "release")) post ->
  exists rest, filter_rows (ArgStr s) (pre ++ r :: post) = Ok (r :: rest).
Proof.
  intros Hpre Hr Hc Hpost.
  induction Hpre as [|q pre (rq & Hq & Hn) _ [rest IH]].
  - destruct (filter_rows_total s post Hpost) as [rest Hrest].
    exists rest. simpl. unfold fedora_row_matches.
    by rewrite Hr, Hrest, Hc.
  - exists rest. simpl. unfold fedora_row_matches.
    simpl in IH. unfold fedora_row_matches in IH.
    by rewrite Hq, IH, Hn.
Qed.

Lemma filter_rows_missing (source : py_arg)
    (rows : list (gmap string string)) (q : gmap string string) :
  q ∈ rows -> q !! "release" = None \/ (forall s, source <> ArgStr s) ->
  filter_rows source rows = Raise TypeError.
Proof.
  intros Hin Hbad.
  induction Hin as [q rows|q q' rows _ IH].
  - simpl. unfold fedora_row_matches.
    destruct Hbad as [->|Hs]; [done|].
    destruct source as [|s|d|o]; [|by destruct (Hs s)| |];
      by destruct (q !! "release").
  - simpl. rewrite IH by done.
    destruct (fedora_row_matches source q') as [b|e] eqn:Hm; [done|].
    unfold fedora_row_matches in Hm.
    destruct (q' !! "release"), source; by simplify_eq.
Qed.

(** X19. [get_fedora] on a release name takes the first row of the
    answer whose release text contains the name, whatever rows come after
    it: the version is the one read from that row, after one request and
    one download. *)
Theorem get_fedora_first_row (E : env) (s : string) (w : world)
    (resp : response) (body text : string)
    (pre post : list (gmap string string)) (r : gmap string string)
    (rel : string) :
  http_open E fedora_URL = Ok resp -> resp_body resp = Ok body ->
  utf8_decode E body = Ok text -> json_rows E text = Ok (pre ++ r :: post) ->
  Forall (fun q => exists rel, q !! "release" = Some rel
                               /\ contains s rel = false) pre ->
  r !! "release" = Some rel -> contains s rel = true ->
  Forall (fun q => is_Some (q !! "release")) post ->
  get_fedora E (ArgStr s) w
  = Some (fedora_row_version E r,
          World (files w) (fedora_URL :: requests w)
                (fedora_URL :: body_reads w)).
Proof.
  intros Hresp Hbody Htext Hrows Hpre Hr Hc Hpost.
  destruct (filter_rows_first s pre post r rel Hpre Hr Hc Hpost)
    as [rest Hf].
  unfold get_fedora, fedora_row_version. unfold_prog.
  rewrite Hresp, Hbody, Htext, Hrows, Hf. simpl.
  destruct (re_compile E _) as [re_ver|]; [|done].
  destruct (field r "stable_version") as [ver|]; [|done].
  by destruct (search_group1 re_ver ver).
Qed.

Lemma get_fedora_first_row_witness :
  get_fedora fedora_remote (ArgStr "24") empty_world
  = Some (Ok (1, 15, 1), World ∅ [fedora_URL] [fedora_URL]).
Proof.
  rewrite (get_fedora_first_row fedora_remote "24" empty_world
             (Response None (Ok "{}")) "{}" "{}"
             [ {[ "release" := "Fedora 25";
                  "stable_version" := "<a href='u'>1.16.0-1.fc25</a>" ]} ] []
             {[ "release" := "Fedora 24";
                "stable_version" := "<a href='u'>1.15.1-1.fc24</a>" ]}
             "Fedora 24"); try reflexivity.
  - repeat constructor. by exists "Fedora 25".
  - constructor.
Defined.

(** X20. The failures of [get_fedora], called on a string, on [None] or
    on a dict, on the rows of an answer: one row without a release, or an
    argument that is [None] or a dict when there is a row, makes the whole
    query fail with [TypeError], whatever the other rows hold; and when
    every row has a release and none contains the name, the failure is
    the [Exception] that names the release asked for.  In both cases the
    request and the download have been made. *)
Theorem get_fedora_row_failures (E : env) (source : py_arg) (w : world)
    (resp : response) (body text : string)
    (rows : list (gmap string string)) :
  plain_arg source = true ->
  http_open E fedora_URL = Ok resp -> resp_body resp = Ok body ->
  utf8_decode E body = Ok text -> json_rows E text = Ok rows ->
  let w' := World (files w) (fedora_URL :: requests w)
                  (fedora_URL :: body_reads w) in
  (forall q, q ∈ rows ->
     q !! "release" = None \/ source = ArgNone
     \/ (exists d, source = ArgDict d) ->
     get_fedora E source w = Some (Raise TypeError, w'))
  /\ (forall s, source = ArgStr s ->
        Forall (fun q => exists rel, q !! "release" = Some rel
                                     /\ contains s rel = false) rows ->
        get_fedora E source w
        = Some (Raise (Exception
                  ("could not find package information for Fedora " +:+ s)),
                w')).
Proof.
  intros _ Hresp Hbody Htext Hrows w'. split.
  - intros q Hin Hbad.
    assert (q !! "release" = None \/ (forall s, source <> ArgStr s)) as Hbad'.
    { destruct Hbad as [?|[->|[d ->]]]; [by left | by right | by right]. }
    unfold get_fedora. unfold_prog.
    rewrite Hresp, Hbody, Htext, Hrows.
    by rewrite (filter_rows_missing source rows q Hin Hbad').
  - intros s -> Hall.
    assert (filter_rows (ArgStr s) rows = Ok []) as Hf.
    { clear Hrows. induction Hall as [|q rows' (rq & Hq & Hn) _ IH]; [done|].
      simpl. unfold fedora_row_matches. by rewrite Hq, IH, Hn. }
    unfold get_fedora. unfold_prog.
    by rewrite Hresp, Hbody, Htext, Hrows, Hf.
Qed.

Lemma get_fedora_row_failures_witness :
  get_fedora fedora_remote (ArgStr "26") empty_world
  = Some (Raise (Exception
            "could not find package information for Fedora 26"),
          World ∅ [fedora_URL] [fedora_URL])
  /\ get_fedora fedora_remote ArgNone empty_world
     = Some (Raise TypeError, World ∅ [fedora_URL] [fedora_URL]).
Proof.
  destruct (get_fedora_row_failures fedora_remote (ArgStr "26") empty_world
              (Response None (Ok "{}")) "{}" "{}" fedora_rows)
    as [_ H1]; [reflexivity..|].
  destruct (get_fedora_row_failures fedora_remote ArgNone empty_world
              (Response None (Ok "{}")) "{}" "{}" fedora_rows)
    as [H2 _]; [reflexivity..|].
  split.
  - apply (H1 "26"); [done|].
    repeat constructor; eexists; split; reflexivity.
  - apply (H2 {[ "release" := "Fedora 25";
                 "stable_version" := "<a href='u'>1.16.0-1.fc25</a>" ]}).
    + constructor.
    + right. by left.
Defined.

(** ** The choice of the profile *)

Lemma head_insert_sorted {A} (before : A -> A -> bool) (x : A) (l : list A) :
  head (insert_sorted before x l)
  = Some (match head l with
          | Some y => if before x y then x else y
          | None => x
          end).
Proof. destruct l as [|y l]; simpl; [done|]. by destruct (before x y). Qed.

(** The head of the list sorted with the latest date first: nothing in
    front of it in the input is as late, nothing after it is later. *)
Lemma head_sorted_latest (l : list profile) :
  match head (py_sorted (fun p q => String.leb (prof_date q) (prof_date p)) l)
  with
  | Some p =>
      exists pre post, l = pre ++ p :: post
        /\ (forall q, q ∈ pre -> ~ String.le (prof_date p) (prof_date q))
        /\ (forall q, q ∈ post -> String.le (prof_date q) (prof_date p))
  | None => l = []
  end.
Proof.
  induction l as [|x l IH]; [done|].
  unfold py_sorted. simpl. rewrite head_insert_sorted.
  fold (py_sorted (fun p q => String.leb (prof_date q) (prof_date p)) l).
  destruct (head (py_sorted _ l)) as [y|].
  - destruct IH as (pre & post & -> & Hpre & Hpost).
    destruct (String.leb (prof_date y) (prof_date x)) eqn:Hyx.
    + exists [], (pre ++ y :: post). split; [done|].
      split; [by intros q ?%elem_of_nil|].
      assert (String.le (prof_date y) (prof_date x)) as Hle
        by by apply Is_true_true.
      intros q [Hq|[->|Hq]%elem_of_cons]%elem_of_app.
      * destruct (total String.le (prof_date q) (prof_date y)) as [H|H].
        -- by etrans.
        -- by destruct (Hpre q).
      * done.
      * etrans; [by apply Hpost | done].
    + exists (x :: pre), post. split; [done|]. split; [|done].
      intros q [->|Hq]%elem_of_cons; [|by apply Hpre].
      intros H%Is_true_true. congruence.
  - subst l. exists [], []. split; [done|].
    split; by intros q ?%elem_of_nil.
Qed.

Lemma filter_split {A} (f : A -> bool) (l pre' post' : list A) (p : A) :
  List.filter f l = pre' ++ p :: post' ->
  exists pre post, l = pre ++ p :: post
    /\ List.filter f pre = pre' /\ List.filter f post = post' /\ f p = true.
Proof.
  revert pre'. induction l as [|x l IH]; intros pre'; simpl.
  - by destruct pre'.
  - destruct (f x) eqn:Hx.
    + destruct pre' as [|y pre']; simpl.
      * intros [= -> Hl]. exists [], l. by rewrite Hx.
      * intros [= -> Hl]. destruct (IH _ Hl) as (pre & post & -> & H1 & H2 & H3).
        exists (y :: pre), post. simpl. rewrite Hx, H1. done.
    + intros Hl. destruct (IH _ Hl) as (pre & post & -> & H1 & H2 & H3).
      exists (x :: pre), post. simpl. by rewrite Hx.
Qed.

(** X21. The profile that [main] takes is the latest one that is not
    after the date asked for; of several with that date it is the first
    listed; and there is none exactly when every profile is after the
    date. *)
Theorem select_profile_latest (profiles : list profile) (as_of_date : string) :
  match select_profile profiles as_of_date with
  | Some p =>
      String.le (prof_date p) as_of_date
      /\ (forall q, q ∈ profiles -> String.le (prof_date q) as_of_date ->
            String.le (prof_date q) (prof_date p))
      /\ exists pre post, profiles = pre ++ p :: post
           /\ forall q, q ∈ pre -> prof_date q <> prof_date p
  | None => forall q, q ∈ profiles -> ~ String.le (prof_date q) as_of_date
  end.
Proof.
  unfold select_profile.
  pose proof (head_sorted_latest
    (List.filter (fun p => String.leb (prof_date p) as_of_date) profiles))
    as H.
  destruct (head _) as [p|].
  - destruct H as (pre' & post' & Hl & Hpre & Hpost).
    destruct (filter_split _ _ _ _ _ Hl) as (pre & post & -> & H1 & H2 & Hp).
    split; [by apply Is_true_true|]. split.
    + intros q Hq Hle.
      assert (q ∈ pre' ++ p :: post') as Hin.
      { rewrite <- Hl. apply list_elem_of_In, filter_In.
        split; [by apply list_elem_of_In | by apply Is_true_true]. }
      apply elem_of_app in Hin as [Hin|[->|Hin]%elem_of_cons].
      * destruct (total String.le (prof_date q) (prof_date p)) as [H|H];
          [done | by destruct (Hpre q)].
      * done.
      * by apply Hpost.
    + exists pre, post. split; [done|]. intros q Hq Heq.
      apply (Hpre q).
      * rewrite <- H1. apply list_elem_of_In, filter_In.
        split; [by apply list_elem_of_In | by rewrite Heq].
      * by rewrite Heq.
  - intros q Hq Hle.
    assert (q ∈ List.filter (fun p => String.leb (prof_date p) as_of_date)
                  profiles) as Hin.
    { apply list_elem_of_In, filter_In.
      split; [by apply list_elem_of_In | by apply Is_true_true]. }
    rewrite H in Hin. by apply elem_of_nil in Hin.
Qed.

Lemma select_profile_PROFILES (d : date) :
  valid_date d = true ->
  select_profile PROFILES (iso_date d)
  = match date_compare (Date 2017 4 14) d with
    | Gt => match date_compare (Date 2017 3 16) d with
            | Gt => None
            | _ => PROFILES !! 1%nat
            end
    | _ => PROFILES !! 0%nat
    end.
Proof.
  intros Hd.
  assert (forall d0, valid_date d0 = true ->
    String.leb (iso_date d0) (iso_date d)
    = match date_compare d0 d with Gt => false | _ => true end) as Hleb.
  { intros d0 H0. unfold String.leb. by rewrite iso_date_compare. }
  pose proof (Hleb (Date 2017 4 14) eq_refl) as H1.
  pose proof (Hleb (Date 2017 3 16) eq_refl) as H2.
  change (iso_date (Date 2017 4 14)) with "2017-04-14" in H1.
  change (iso_date (Date 2017 3 16)) with "2017-03-16" in H2.
  unfold select_profile, PROFILES. cbn [List.filter prof_date].
  rewrite H1, H2.
  destruct (date_compare (Date 2017 4 14) d) eqn:C1;
    destruct (date_compare (Date 2017 3 16) d) eqn:C2; try reflexivity.
Qed.

(** ** The releases asked for on the command line *)

Lemma dict_get_set (k k' v : string) (d : list (string * string)) :
  dict_get k (dict_set k' v d)
  = if String.eqb k' k then Some v else dict_get k d.
Proof.
  induction d as [|[k0 v0] d IH]; simpl; [done|].
  destruct (String.eqb_spec k0 k') as [->|Hne]; simpl.
  - by destruct (String.eqb k' k).
  - rewrite IH. destruct (String.eqb_spec k0 k) as [->|]; [|done].
    destruct (String.eqb_spec k' k) as [->|]; done.
Qed.

Lemma dict_get_app (k : string) (l1 l2 : list (string * string)) :
  dict_get k (l1 ++ l2)
  = match dict_get k l1 with Some v => Some v | None => dict_get k l2 end.
Proof.
  induction l1 as [|[k0 v0] l1 IH]; simpl; [done|].
  by destruct (String.eqb k0 k).
Qed.

Lemma dict_get_None (k : string) (d : list (string * string)) :
  k ∉ d.*1 -> dict_get k d = None.
Proof.
  induction d as [|[k0 v0] d IH]; simpl; [done|].
  intros [Hne Hd]%not_elem_of_cons.
  destruct (String.eqb_spec k0 k) as [->|]; [done | auto].
Qed.

(** After an update the last pair given for a key holds; a key that is
    not given keeps its value. *)
Lemma dict_get_update (k : string) (d items : list (string * string)) :
  dict_get k (dict_update d items)
  = match dict_get k (reverse items) with
    | Some v => Some v
    | None => dict_get k d
    end.
Proof.
  revert d. induction items as [|[k0 v0] items IH]; intros d; [done|].
  unfold dict_update in *. simpl. rewrite IH, reverse_cons, dict_get_app.
  destruct (dict_get k (reverse items)); [done|].
  simpl. rewrite dict_get_set. by destruct (String.eqb k0 k).
Qed.

Lemma dict_set_keys (k v : string) (d : list (string * string)) :
  (dict_set k v d).*1 = if bool_decide (k ∈ d.*1) then d.*1 else d.*1 ++ [k].
Proof.
  induction d as [|[k0 v0] d IH]; [done|].
  cbn [dict_set]. destruct (String.eqb_spec k0 k) as [->|Hne];
    rewrite !fmap_cons; cbn [fst].
  - rewrite bool_decide_eq_true_2; [done | left].
  - rewrite IH. destruct (decide (k ∈ d.*1)) as [Hin|Hin].
    + rewrite !bool_decide_eq_true_2; [done | by right | done].
    + rewrite !bool_decide_eq_false_2; [done | | done].
      by intros [?|?]%elem_of_cons.
Qed.

Lemma dict_set_NoDup (k v : string) (d : list (string * string)) :
  NoDup d.*1 -> NoDup (dict_set k v d).*1.
Proof.
  intros Hd. rewrite dict_set_keys. case_bool_decide as Hin; [done|].
  apply NoDup_app. split; [done|]. split; [|apply NoDup_singleton].
  intros x Hx ->%list_elem_of_singleton. done.
Qed.

Lemma dict_update_NoDup (d items : list (string * string)) :
  NoDup d.*1 -> NoDup (dict_update d items).*1.
Proof.
  revert d. induction items as [|[k v] items IH]; intros d Hd; [done|].
  unfold dict_update in *. simpl. by apply IH, dict_set_NoDup.
Qed.

Lemma dict_get_reverse (k : string) (d : list (string * string)) :
  NoDup d.*1 -> dict_get k (reverse d) = dict_get k d.
Proof.
  induction d as [|[k0 v0] d IH]; [done|].
  simpl. intros [Hk Hd]%NoDup_cons.
  rewrite reverse_cons, dict_get_app, IH by done. simpl.
  destruct (String.eqb_spec k0 k) as [->|].
  - by rewrite dict_get_None.
  - by destruct (dict_get k d).
Qed.

Lemma override_releases_NoDup (releases : list (string * string))
    (distro_strs : list string) :
  NoDup releases.*1 -> NoDup (override_releases releases distro_strs).*1.
Proof.
  revert releases. induction distro_strs as [|s strs IH]; intros rel Hrel;
    [done|].
  unfold override_releases in *. simpl. by apply IH, dict_update_NoDup.
Qed.

Lemma override_releases_get (releases : list (string * string))
    (distro_strs : list string) (k : string) :
  dict_get k (override_releases releases distro_strs)
  = match dict_get k (reverse (given_releases distro_strs)) with
    | Some a => Some a
    | None => dict_get k releases
    end.
Proof.
  revert releases. induction distro_strs as [|s strs IH]; intros rel; [done|].
  unfold override_releases in *. simpl. rewrite IH.
  unfold given_releases. simpl.
  fold (given_releases strs). rewrite reverse_app, dict_get_app.
  destruct (dict_get k (reverse (given_releases strs))); [done|].
  rewrite dict_get_update. unfold release_overrides, dict_of.
  rewrite dict_get_reverse by (by apply dict_update_NoDup, NoDup_nil).
  rewrite dict_get_update. simpl.
  by destruct (dict_get k (reverse _)).
Qed.

(** X22. The releases that [main] resolves: for every name, the release
    of the last pair [name:release] written on the command line with that
    name and a release that is not blank, over all the options; the
    release of the profile when there is no such pair.  No name occurs
    twice. *)
Theorem override_releases_last_wins (releases : list (string * string))
    (distro_strs : list string) :
  NoDup releases.*1 ->
  NoDup (override_releases releases distro_strs).*1
  /\ forall k,
       dict_get k (override_releases releases distro_strs)
       = match dict_get k (reverse (given_releases distro_strs)) with
         | Some a => Some a
         | None => dict_get k releases
         end.
Proof.
  intros Hnd. split; [by apply override_releases_NoDup|].
  intros k. apply override_releases_get.
Qed.

Lemma override_releases_last_wins_witness :
  dict_get "ubuntu"
    (override_releases [("debian", "jessie"); ("ubuntu", "xenial")]
       ["ubuntu:trusty,debian"; "ubuntu: ,ubuntu:precise"])
  = Some "precise".
Proof.
  destruct (override_releases_last_wins
              [("debian", "jessie"); ("ubuntu", "xenial")]
              ["ubuntu:trusty,debian"; "ubuntu: ,ubuntu:precise"]) as [_ H].
  - apply (bool_decide_unpack _). vm_compute. exact I.
  - rewrite H. reflexivity.
Defined.

(** ** The batch of calls *)

Section files_only.
Context {A B : Type}.
Implicit Types (m : prog A) (k : A -> prog B).

Lemma files_only_lift (r : result A) : files_only (lift r).
Proof. by intros w1 w2 Hf. Qed.

Lemma files_only_ret (a : A) : files_only (ret a).
Proof. by intros w1 w2 Hf. Qed.

Lemma files_only_raise (e : exn) : files_only (raise (A := A) e).
Proof. by intros w1 w2 Hf. Qed.

Lemma files_only_bind m k :
  files_only m -> (forall a, files_only (k a)) -> files_only (m ≫= k).
Proof.
  intros Hm Hk w1 w2 Hf. unfold mbind, prog_bind, bind.
  specialize (Hm w1 w2 Hf).
  destruct (m w1) as [[[a|e] w1']|], (m w2) as [[[a'|e'] w2']|]; try done;
    destruct Hm as [Hr Hf']; simplify_eq; first [by apply Hk | done].
Qed.

Lemma files_only_try m (h : exn -> prog A) :
  files_only m -> (forall e, files_only (h e)) -> files_only (try_except m h).
Proof.
  intros Hm Hh w1 w2 Hf. unfold try_except.
  specialize (Hm w1 w2 Hf).
  destruct (m w1) as [[[a|e] w1']|], (m w2) as [[[a'|e'] w2']|]; try done;
    destruct Hm as [Hr Hf']; simplify_eq; first [by apply Hh | done].
Qed.

Lemma files_only_frame m : keeps_files m -> world_blind m -> files_only m.
Proof.
  intros Hk Hb w1 w2 Hf. specialize (Hb w1 w2).
  destruct (m w1) as [[r1 w1']|] eqn:H1, (m w2) as [[r2 w2']|] eqn:H2;
    simplify_eq/=; [|done].
  split; [done|]. by rewrite (Hk _ _ _ H1), (Hk _ _ _ H2).
Qed.
End files_only.

Lemma files_only_urlopen (E : env) (url : string) : files_only (urlopen E url).
Proof. by intros w1 w2 Hf. Qed.

Lemma files_only_read_body (url : string) (resp : response) :
  files_only (read_body url resp).
Proof. by intros w1 w2 Hf. Qed.

Lemma files_only_read_file (path : string) : files_only (read_file path).
Proof.
  intros w1 w2 Hf. unfold read_file. rewrite Hf.
  by destruct (files w2 !! path).
Qed.

Lemma files_only_open_wb (path : string) : files_only (open_wb path).
Proof. intros w1 w2 Hf. unfold open_wb. simpl. by rewrite Hf. Qed.

Lemma files_only_write_file (path bs : string) :
  files_only (write_file path bs).
Proof. intros w1 w2 Hf. unfold write_file. simpl. by rewrite Hf. Qed.

Ltac files_step :=
  match goal with
  | |- files_only (mbind _ _) => apply files_only_bind; [|intros ?]
  | |- files_only (mret _) => apply files_only_ret
  | |- files_only (ret _) => apply files_only_ret
  | |- files_only (raise _) => apply files_only_raise
  | |- files_only (lift _) => apply files_only_lift
  | |- files_only (urlopen _ _) => apply files_only_urlopen
  | |- files_only (read_body _ _) => apply files_only_read_body
  | |- files_only (read_file _) => apply files_only_read_file
  | |- files_only (open_wb _) => apply files_only_open_wb
  | |- files_only (write_file _ _) => apply files_only_write_file
  | |- files_only (try_except _ _) => apply files_only_try; [|intros ?]
  | |- files_only (py_assert _ _) => unfold py_assert
  | |- files_only (if ?x then _ else _) => destruct x
  | |- files_only (match ?x with _ => _ end) => destruct x
  end.

Ltac files_auto := cbv zeta; repeat files_step.

(** [get_nixos] looks at the files only, not at the requests made before
    it. *)
Lemma files_only_get_nixos (E : env) (source : py_arg) :
  files_only (get_nixos E source).
Proof. unfold get_nixos, nixos_payload, nixos_last_etag. files_auto. Qed.

(** So does every call for a name of [DISTROS]. *)
Lemma files_only_get_dispatch (E : env) (fuel : nat) (distro : string)
    (arg : py_arg) :
  files_only (get_dispatch fuel E (DISTROS E) distro arg).
Proof.
  destruct (decide (distro = "nixos")) as [->|Hne].
  - destruct fuel as [|fuel]; [by intros w1 w2 Hf|].
    cbn [get_dispatch].
    change (DISTROS E !! "nixos") with (Some (CustomResolver (get_nixos E))).
    cbv beta iota.
    apply files_only_try; [apply files_only_get_nixos|intros e; files_auto].
  - destruct (frame_DISTROS E fuel distro arg Hne) as [Hk Hb].
    by apply files_only_frame.
Qed.

Lemma dispatch_all_results (E : env) (fuel : nat) (w0 : world)
    (items : list (string * string)) (w w' : world)
    (rs : list (string * semver)) :
  NoDup items.*1 ->
  files w = files w0 \/ "nixos" ∉ items.*1 ->
  dispatch_all fuel E (DISTROS E) items w = Some (Ok rs, w') ->
  Forall2 (fun da dv =>
             dv.1 = da.1
             /\ exists w1, get_dispatch fuel E (DISTROS E) da.1 (ArgStr da.2) w0
                           = Some (Ok dv.2, w1))
          items rs.
Proof.
  revert w rs. induction items as [|[d a] items IH]; intros w rs Hnd Hinv.
  - simpl. unfold ret. intros [= <- <-]. constructor.
  - apply NoDup_cons in Hnd as [Hd Hnd]. cbn [dispatch_all].
    unfold mbind at 1, prog_bind, bind at 1.
    destruct (get_dispatch fuel E (DISTROS E) d (ArgStr a) w)
      as [[[v|e] w1]|] eqn:Hv; [|done..].
    unfold mbind at 1, prog_bind, bind at 1.
    destruct (dispatch_all fuel E (DISTROS E) items w1)
      as [[[vs|e] w2]|] eqn:Hvs; [|done..].
    unfold mret, prog_ret, ret. intros [= <- <-].
    constructor.
    + split; [done|]. simpl.
      destruct (decide (d = "nixos")) as [->|Hne].
      * assert (files w = files w0) as Hf.
        { destruct Hinv as [?|Hn]; [done|]. destruct Hn. left. }
        pose proof (files_only_get_dispatch E fuel "nixos" (ArgStr a) w w0 Hf)
          as Hr.
        rewrite Hv in Hr.
        destruct (get_dispatch fuel E (DISTROS E) "nixos" (ArgStr a) w0)
          as [[r0 w0']|]; [|done].
        destruct Hr as [<- _]. by exists w0'.
      * destruct (frame_DISTROS E fuel d (ArgStr a) Hne) as [_ Hb].
        by eapply world_blind_result.
    + apply (IH w1); [done| |done].
      destruct (decide (d = "nixos")) as [->|Hne]; [by right|].
      destruct Hinv as [Hf|Hn].
      * left. destruct (frame_DISTROS E fuel d (ArgStr a) Hne) as [Hk _].
        by rewrite (Hk _ _ _ Hv).
      * right. intros Hin. apply Hn. by right.
Qed.

(** X23. The results of a batch do not depend on what the calls before
    them did: when the names are those of [DISTROS], each once, every
    result of the batch is the result that the call gives on its own, in
    the world in which the batch starts. *)
Theorem dispatch_all_independent (E : env) (fuel : nat)
    (items : list (string * string)) (w w' : world)
    (rs : list (string * semver)) :
  NoDup items.*1 ->
  dispatch_all fuel E (DISTROS E) items w = Some (Ok rs, w') ->
  Forall2 (fun da dv =>
             dv.1 = da.1
             /\ exists w1, get_dispatch fuel E (DISTROS E) da.1 (ArgStr da.2) w
                           = Some (Ok dv.2, w1))
          items rs.
Proof.
  intros Hnd. apply (dispatch_all_results E fuel w items w w' rs Hnd).
  by left.
Qed.

Lemma dispatch_all_independent_witness :
  exists w1,
    get_dispatch 3 (nix_remote (Some "abc") "P1")
      (DISTROS (nix_remote (Some "abc") "P1")) "nixos" (ArgStr ROLLING)
      empty_world
    = Some (Ok (1, 16, 0), w1).
Proof.
  pose proof (dispatch_all_independent (nix_remote (Some "abc") "P1") 3
                [("arch", ROLLING); ("nixos", ROLLING)] empty_world
                (World (cache_files "abc" "P1")
                   [nixos_URL;
                    "https://www.archlinux.org/packages/community/x86_64/rust/"]
                   [nixos_URL;
                    "https://www.archlinux.org/packages/community/x86_64/rust/"])
                [("arch", sentinel); ("nixos", (1, 16, 0))]) as H.
  apply Forall2_cons_1 in H as [_ H].
  - apply Forall2_cons_1 in H as [[_ H] _]. exact H.
  - apply (bool_decide_unpack _). vm_compute. exact I.
  - vm_compute. reflexivity.
Defined.

(** ** The run as a whole *)

Lemma get_dispatch_DISTROS_ends (E : env) (distro : string) (arg : py_arg)
    (w : world) (fuel : nat) :
  is_Some (DISTROS E !! distro) -> (3 <= fuel)%nat ->
  exists v w', get_dispatch fuel E (DISTROS E) distro arg w = Some (Ok v, w').
Proof.
  intros [defin Hd] Hf. destruct fuel as [|fuel]; [lia|].
  destruct (DISTROS_entry E distro defin Hd)
    as [(d & n & -> & Hn & Hc)|[(f & -> & Hh)|[(t & d & n & -> & Ht & Hn & Hc)
        |(t & f & -> & Ht & Hh)]]].
  - eapply get_dispatch_halts_rule; [done | done | lia].
  - by eapply get_dispatch_halts_custom.
  - eapply get_dispatch_halts_alias; [done|].
    destruct fuel as [|fuel]; [lia|].
    eapply get_dispatch_halts_rule; [done | done | lia].
  - eapply get_dispatch_halts_alias; [done|].
    destruct fuel as [|fuel]; [lia|].
    by eapply get_dispatch_halts_custom.
Qed.

Lemma dispatch_all_ends (E : env) (fuel : nat)
    (items : list (string * string)) (w : world) :
  Forall (fun da => is_Some (DISTROS E !! da.1)) items -> (3 <= fuel)%nat ->
  exists rs w',
    dispatch_all fuel E (DISTROS E) items w = Some (Ok rs, w')
    /\ rs.*1 = items.*1.
Proof.
  intros Hall Hf. revert w.
  induction Hall as [|[d a] items Hd _ IH]; intros w.
  - by exists [], w.
  - destruct (get_dispatch_DISTROS_ends E d (ArgStr a) w fuel Hd Hf)
      as (v & w1 & Hv).
    destruct (IH w1) as (vs & w2 & Hvs & Hk).
    exists ((d, v) :: vs), w2. cbn [dispatch_all].
    unfold mbind at 1, prog_bind, bind at 1. rewrite Hv.
    unfold mbind at 1, prog_bind, bind at 1. rewrite Hvs.
    split; [done|]. by rewrite !fmap_cons, Hk.
Qed.

Lemma dispatch_all_unknown (E : env) (fuel : nat)
    (items : list (string * string)) (w : world) :
  Exists (fun da => DISTROS E !! da.1 = None) items -> (3 <= fuel)%nat ->
  exists d w',
    d ∈ items.*1 /\ DISTROS E !! d = None
    /\ dispatch_all fuel E (DISTROS E) items w = Some (Raise (KeyError d), w').
Proof.
  intros Hex Hf. revert w.
  induction items as [|[d a] items IH]; intros w; [by inversion Hex|].
  cbn [dispatch_all]. unfold mbind at 1, prog_bind, bind at 1.
  destruct (DISTROS E !! d) as [defin|] eqn:Hd.
  - destruct (get_dispatch_DISTROS_ends E d (ArgStr a) w fuel) as (v & w1 & Hv);
      [by rewrite Hd | done |].
    rewrite Hv.
    apply Exists_cons in Hex as [Hex|Hex]; [simpl in Hex; congruence|].
    destruct (IH Hex w1) as (d' & w' & Hin & Hd' & Hr).
    exists d', w'. split; [rewrite fmap_cons; by right|]. split; [done|].
    unfold mbind at 1, prog_bind, bind at 1. by rewrite Hr.
  - destruct fuel as [|fuel]; [lia|].
    rewrite (get_dispatch_unknown E (DISTROS E) fuel d (ArgStr a) w Hd).
    exists d, w. split; [rewrite fmap_cons; left|]. done.
Qed.

Lemma main_report_nonempty (show_all : bool)
    (pkg_vers : list (string * semver)) :
  pkg_vers <> [] ->
  exists rep, main_report show_all pkg_vers = Ok rep
    /\ ((show_all = true /\ exists rows, rep = PrintTable rows /\ rows <> [])
        \/ (show_all = false /\ exists line, rep = PrintLine line)).
Proof.
  intros Hne. unfold main_report.
  assert (length (sort_and_format pkg_vers) = length pkg_vers) as Hlen.
  { unfold sort_and_format. rewrite length_fmap.
    apply Permutation_length, sorted_by_key_perm. }
  rewrite bool_decide_eq_false_2
    by (rewrite Hlen; by destruct pkg_vers).
  destruct show_all.
  - eexists. split; [done|]. left. split; [done|]. eexists. split; [done|].
    intros H0. rewrite H0 in Hlen. by destruct pkg_vers.
  - unfold headline.
    destruct (filter _ _) as [|v vs]; simpl;
      eexists; (split; [done|]); right; split; try done; by eexists.
Qed.

Lemma filter_nil_iff {A} (f : A -> bool) (l : list A) :
  (forall x, x ∈ l -> f x = false) -> List.filter f l = [].
Proof.
  induction l as [|x l IH]; [done|]. intros H. simpl.
  rewrite (H x) by left. apply IH. intros y Hy. apply H. by right.
Qed.

Lemma dict_get_elem (da : string * string) (l : list (string * string)) :
  da ∈ l -> is_Some (dict_get da.1 l).
Proof.
  induction 1 as [[k v] l|[k v] [k0 v0] l _ IH]; simpl.
  - by rewrite String.eqb_refl.
  - by destruct (String.eqb k0 k).
Qed.

Lemma dict_get_Some (k v : string) (l : list (string * string)) :
  dict_get k l = Some v -> (k, v) ∈ l.
Proof.
  induction l as [|[k0 v0] l IH]; simpl; [done|].
  destruct (String.eqb_spec k0 k) as [->|].
  - intros [= ->]. left.
  - intros H. right. by apply IH.
Qed.

(** X24. A date before the first profile: [main] prints the message
    about the date and ends with code 1; it selects nothing and sends no
    request. *)
Theorem main_too_old (fuel : nat) (E : env) (today : date) (o : options)
    (w : world) (d : date) :
  parse_date today (opt_DATE o) = Ok (iso_date d) ->
  valid_date d = true ->
  date_compare (Date 2017 3 16) d = Gt ->
  main_run fuel E today o w
  = Some (Ok (ExitError 1 (too_old (iso_date d))), w).
Proof.
  intros Hp Hv Hc. unfold main_run. rewrite Hp.
  unfold mbind at 1, prog_bind, bind at 1, lift.
  rewrite (select_profile_PROFILES d Hv), Hc.
  assert (date_compare (Date 2017 4 14) d = Gt) as ->; [|done].
  revert Hc. unfold date_compare, lex. cbn [year month day].
  destruct (Z.compare_spec 2017 (year d)); try done.
  destruct (Z.compare_spec 3 (month d)), (Z.compare_spec 4 (month d));
    try done; lia.
Qed.

Lemma main_too_old_witness :
  main_run 3 offline (Date 2017 5 1)
    (Options (Some "2017") [] false false false) empty_world
  = Some (Ok (ExitError 1
            "error: provided date `2017-01-01` is too old: no data available."),
          empty_world).
Proof.
  apply (main_too_old 3 offline (Date 2017 5 1)
           (Options (Some "2017") [] false false false) empty_world
           (Date 2017 1 1)); reflexivity.
Defined.

Lemma batch_prints (fuel : nat) (E : env) (fast show_all : bool)
    (releases : list (string * string)) (w : world) :
  ("arch", ROLLING) ∈ releases ->
  Forall (fun da => is_Some (DISTROS E !! da.1)) releases ->
  (3 <= fuel)%nat ->
  exists rep w',
    (pkg_vers ← dispatch_all fuel E (DISTROS E)
                  (List.filter
                     (fun da => check fast (selected_distros E []) da.1)
                     releases);
     lift (main_report show_all pkg_vers)) w = Some (Ok rep, w')
    /\ ((show_all = true /\ exists rows, rep = PrintTable rows /\ rows <> [])
        \/ (show_all = false /\ exists line, rep = PrintLine line)).
Proof.
  intros Harch Hall Hf.
  set (items := List.filter _ releases).
  assert (("arch", ROLLING) ∈ items) as Hin.
  { apply list_elem_of_In, filter_In. split; [by apply list_elem_of_In|].
    unfold check. simpl. rewrite andb_false_r.
    apply bool_decide_eq_true_2. unfold selected_distros. simpl.
    apply list_elem_of_fmap. exists ("arch", ScrapeRule (list_to_map [
       ("url", "https://www.archlinux.org/packages/community/x86_64/rust/");
       ("xpath", "//h2/text()");
       ("re", "rust \d+:(?P<version>\d+[.]\d+[.]\d+)") ])).
    split; [done|]. by apply elem_of_map_to_list. }
  assert (Forall (fun da => is_Some (DISTROS E !! da.1)) items) as Hitems.
  { apply Forall_forall. intros da Hda.
    apply list_elem_of_In, filter_In in Hda as [Hda _].
    by apply (proj1 (Forall_forall _ _) Hall), list_elem_of_In. }
  destruct (dispatch_all_ends E fuel items w Hitems Hf) as (rs & w' & Hrs & Hk).
  destruct (main_report_nonempty show_all rs) as (rep & Hrep & Hshape).
  { intros ->. destruct items; [by apply elem_of_nil in Hin | done]. }
  exists rep, w'. split; [|done].
  unfold mbind at 1, prog_bind, bind at 1. rewrite Hrs. unfold lift.
  by rewrite Hrep.
Qed.

(** X25. Without [--distro] and [--list-distros], on a date that is not
    before the first profile, [main] ends by printing: the table with
    [--all], one line otherwise.  Whatever the network and the libraries
    do, it raises nothing and does not end with an error code. *)
Theorem main_default_prints (fuel : nat) (E : env) (today : date)
    (o : options) (w : world) (d : date) :
  opt_distro o = [] -> opt_list_distros o = false ->
  parse_date today (opt_DATE o) = Ok (iso_date d) ->
  valid_date d = true ->
  date_compare (Date 2017 3 16) d <> Gt ->
  (3 <= fuel)%nat ->
  exists rep w',
    main_run fuel E today o w = Some (Ok rep, w')
    /\ ((opt_all o = true /\ exists rows, rep = PrintTable rows /\ rows <> [])
        \/ (opt_all o = false /\ exists line, rep = PrintLine line)).
Proof.
  intros Hdistro Hlist Hp Hv Hc Hf. unfold main_run.
  rewrite Hp, Hdistro, Hlist.
  unfold mbind at 1, prog_bind, bind at 1, lift.
  rewrite (select_profile_PROFILES d Hv).
  assert (forall p, p ∈ PROFILES ->
    ("arch", ROLLING) ∈ prof_releases p
    /\ Forall (fun da => is_Some (DISTROS E !! da.1)) (prof_releases p))
    as Hprof.
  { intros p [->|[->|[]%elem_of_nil]%elem_of_cons]%elem_of_cons;
      (split; [left | repeat constructor; by eexists]). }
  assert (exists p, p ∈ PROFILES
    /\ match date_compare (Date 2017 4 14) d with
       | Gt => match date_compare (Date 2017 3 16) d with
               | Gt => None
               | _ => PROFILES !! 1%nat
               end
       | _ => PROFILES !! 0%nat
       end = Some p) as (p & Hin & ->).
  { destruct (date_compare (Date 2017 4 14) d);
      [| |destruct (date_compare (Date 2017 3 16) d); [| |done]];
      eexists; (split; [|reflexivity]);
      first [by left | by right; left]. }
  destruct (Hprof p Hin) as [Harch Hall].
  by apply batch_prints.
Qed.

Lemma main_default_prints_witness :
  exists rep w',
    main_run 3 offline (Date 2017 5 1)
      (Options None [] true false false) empty_world = Some (Ok rep, w')
    /\ ((false = true /\ exists rows, rep = PrintTable rows /\ rows <> [])
        \/ (false = false /\ exists line, rep = PrintLine line)).
Proof.
  apply (main_default_prints 3 offline (Date 2017 5 1)
           (Options None [] true false false) empty_world (Date 2017 5 1));
    try reflexivity; discriminate.
Defined.

(** X26. When names are asked for and none of them has a release -
    neither in the profile nor on the command line - nothing is resolved:
    [main] sends no request, prints that no package was found and ends
    with code 2.  A name that [DISTROS] does not know, given without a
    release, is such a name. *)
Theorem main_nothing_to_resolve (fuel : nat) (E : env) (today : date)
    (o : options) (w : world) (as_of_date : string) (p : profile) :
  parse_date today (opt_DATE o) = Ok as_of_date ->
  select_profile PROFILES as_of_date = Some p ->
  opt_list_distros o = false ->
  distro_names (opt_distro o) <> [] ->
  (forall d, d ∈ distro_names (opt_distro o) ->
     dict_get d (prof_releases p) = None
     /\ dict_get d (reverse (given_releases (opt_distro o))) = None) ->
  main_run fuel E today o w
  = Some (Ok (ExitError 2 "error: no packages found!"), w).
Proof.
  intros Hp Hsel Hlist Hne Hnone. unfold main_run.
  rewrite Hp. unfold mbind at 1, prog_bind, bind at 1, lift.
  rewrite Hsel, Hlist. cbv zeta.
  rewrite filter_nil_iff; [done|].
  intros da Hda. apply not_true_is_false. intros Hc.
  unfold check in Hc.
  destruct (opt_fast o && bool_decide (da.1 ∈ SLOW_DISTROS)); [done|].
  apply bool_decide_eq_true in Hc. unfold selected_distros in Hc.
  rewrite bool_decide_eq_false_2 in Hc
    by (by destruct (distro_names (opt_distro o))).
  destruct (Hnone _ Hc) as [H1 H2].
  apply dict_get_elem in Hda as [a Ha].
  rewrite override_releases_get, H2, H1 in Ha. done.
Qed.

Lemma main_nothing_to_resolve_witness :
  main_run 3 offline (Date 2017 5 1)
    (Options None ["gentoo"] false false false) empty_world
  = Some (Ok (ExitError 2 "error: no packages found!"), empty_world).
Proof.
  eapply (main_nothing_to_resolve 3 offline (Date 2017 5 1)
            (Options None ["gentoo"] false false false) empty_world);
    [reflexivity | reflexivity | reflexivity | discriminate |].
  intros d [->|[]%elem_of_nil]%elem_of_cons. split; reflexivity.
Defined.

Lemma split1_shape (c : ascii) (s : string) :
  split1 c s = [s] \/ exists a b, split1 c s = [a; b].
Proof.
  induction s as [|x s IH]; simpl; [by left|].
  destruct (Ascii.eqb x c); [right; by eexists _, _|].
  destruct IH as [->|(a & b & ->)]; [by left | right; by eexists _, _].
Qed.

Lemma split_hd_split1 (c : ascii) (s : string) :
  List.hd "" (split c s) = List.hd "" (split1 c s).
Proof.
  induction s as [|x s IH]; simpl; [done|].
  destruct (Ascii.eqb x c); [done|].
  pose proof (split_not_nil c s).
  destruct (split c s) as [|u us]; [done|].
  destruct (split1_shape c s) as [Hs|(a & b & Hs)]; rewrite Hs in *;
    simpl in *; by subst.
Qed.

Lemma release_pair_name (d : string) :
  (release_pair d).1 = List.hd "" (split ":" d).
Proof.
  rewrite split_hd_split1. unfold release_pair.
  by destruct (split1_shape ":" d) as [->|(a & b & ->)].
Qed.

(** A name given with a release is among the names asked for, once the
    blanks around it are removed. *)
Lemma given_releases_names (distro_strs : list string) (d a : string) :
  (d, a) ∈ given_releases distro_strs -> strip d ∈ distro_names distro_strs.
Proof.
  unfold given_releases, distro_names.
  intros (distro_str & Hin & Hstr)%list_elem_of_bind.
  apply list_elem_of_bind. exists distro_str. split; [|done].
  apply list_elem_of_In, filter_In in Hin as [Hin _].
  apply list_elem_of_In, list_elem_of_fmap in Hin as (piece & Hpair & Hpiece).
  apply list_elem_of_fmap. exists piece. split; [|done].
  rewrite <- release_pair_name, <- Hpair. done.
Qed.

(** X27. A name that [DISTROS] does not know, written without blanks
    around it and given with a release, reaches [get_dispatch]: the
    [KeyError] of such a name is raised in the batch and leaves [main],
    which prints no result. *)
Theorem main_unknown_name (fuel : nat) (E : env) (today : date)
    (o : options) (w : world) (as_of_date : string) (p : profile)
    (d a : string) :
  parse_date today (opt_DATE o) = Ok as_of_date ->
  select_profile PROFILES as_of_date = Some p ->
  opt_list_distros o = false ->
  (d, a) ∈ given_releases (opt_distro o) -> strip d = d ->
  DISTROS E !! d = None ->
  (3 <= fuel)%nat ->
  exists d' w',
    DISTROS E !! d' = None
    /\ main_run fuel E today o w = Some (Raise (KeyError d'), w').
Proof.
  intros Hp Hsel Hlist Hgiven Hstrip Hd Hf. unfold main_run.
  rewrite Hp. unfold mbind at 1, prog_bind, bind at 1, lift.
  rewrite Hsel, Hlist. cbv zeta.
  set (releases := override_releases _ _).
  set (items := List.filter _ releases).
  assert (exists a', (d, a') ∈ items) as [a' Hin].
  { assert (is_Some (dict_get d (reverse (given_releases (opt_distro o)))))
      as [a1 Ha1].
    { apply (dict_get_elem (d, a)). by apply elem_of_reverse. }
    assert (dict_get d releases = Some a1) as Hrel.
    { unfold releases. by rewrite override_releases_get, Ha1. }
    exists a1. apply list_elem_of_In, filter_In.
    split; [by apply list_elem_of_In, dict_get_Some|].
    unfold check. cbn [fst].
    rewrite (bool_decide_eq_false_2 (d ∈ SLOW_DISTROS)), andb_false_r.
    - apply bool_decide_eq_true_2. unfold selected_distros.
      apply given_releases_names in Hgiven. rewrite Hstrip in Hgiven.
      rewrite bool_decide_eq_false_2; [done|].
      intros Hlen. destruct (distro_names (opt_distro o)); [|done].
      by apply elem_of_nil in Hgiven.
    - intros ->%list_elem_of_singleton. done. }
  destruct (dispatch_all_unknown E fuel items w) as (d' & w' & _ & Hd' & Hr);
    [|done|].
  { apply Exists_exists. by exists (d, a'). }
  exists d', w'. split; [done|].
  unfold mbind at 1, prog_bind, bind at 1. by rewrite Hr.
Qed.

Lemma main_unknown_name_witness :
  exists d' w',
    DISTROS offline !! d' = None
    /\ main_run 3 offline (Date 2017 5 1)
         (Options None ["gentoo:1"] false false false) empty_world
       = Some (Raise (KeyError d'), w').
Proof.
  eapply (main_unknown_name 3 offline (Date 2017 5 1)
            (Options None ["gentoo:1"] false false false) empty_world
            "2017-05-01" _ "gentoo" "1");
    [reflexivity | reflexivity | reflexivity | left | reflexivity
    | reflexivity | lia].
Defined.
